(** * nAuth: the encrypted vault subsystem

    A shallow embedding of the services of the nAuth credential manager

      - [EncryptionService]  (src/services/encryption.service.ts)
      - [StorageService]     (storage.service.ts)
      - [OTPService]         (otp.service.ts, [validateSecret])
      - [VaultService]       (src/services/vault.service.ts)
      - [AccountService]     (src/services/account.service.ts)
      - [BiometricService]   (biometric.service.ts)

    and the properties of the vault that follow from the code.

    The services are written in TypeScript against third-party libraries
    (crypto-js, otpauth) and browser builtins (Web Crypto, [btoa]/[atob],
    [JSON], [localStorage], [Date.now], [Math.random]).  Those collaborators
    are not part of the repository: they are gathered in the record
    [Platform], and what the proofs need from them is stated in [Laws].
    Everything the repository itself computes is written out.

    Conventions.  A JavaScript string is a [string], a sequence of 8-bit
    characters; such a string has no lone surrogate, so it always has a
    UTF-8 encoding.  A number that the code uses as an integer (timestamps,
    counters, digits) is a [Z].  [null] and [undefined] are [None].  An
    [async] method is the sequential computation its [await]s spell out:
    one operation runs at a time.  [console.error] is not modelled. *)

From Stdlib Require Import String Ascii ZArith List Bool Lia.
From Stdlib Require Import DecimalString DecimalZ.
From stdpp Require Import base option list gmap strings.

Set Implicit Arguments.
Local Open Scope string_scope.
Local Open Scope Z_scope.

(** ** Data model (types/index.ts) *)

Inductive OTPType := totp | hotp.
Inductive Algorithm := SHA1 | SHA256 | SHA512.

(** [Omit<Account, 'id' | 'createdAt' | 'updatedAt'>]: what a caller hands
    to [addAccount]. *)
Module AccountData.
Record t := mk {
  name : string;
  issuer : string;
  secret : string;
  type : OTPType;
  algorithm : Algorithm;
  digits : Z;
  period : Z;
  counter : Z
}.
End AccountData.

Module Account.
Record t := mk {
  id : string;
  name : string;
  issuer : string;
  secret : string;
  type : OTPType;
  algorithm : Algorithm;
  digits : Z;
  period : Z;
  counter : Z;
  createdAt : Z;
  updatedAt : Z
}.
End Account.

(** [Partial<Account>]. *)
Module Partial.
Record t := mk {
  id : option string;
  name : option string;
  issuer : option string;
  secret : option string;
  type : option OTPType;
  algorithm : option Algorithm;
  digits : option Z;
  period : option Z;
  counter : option Z;
  createdAt : option Z;
  updatedAt : option Z
}.
End Partial.

Module EncryptedVault.
Record t := mk {
  version : string;
  salt : string;
  iv : string;
  data : string;
  hmac : string
}.
End EncryptedVault.

(** The object built by [exportVault] and read back by [importVault]. *)
Module ExportData.
Record t := mk {
  version : string;
  encryptedData : string;
  salt : string;
  iv : string;
  hmac : string;
  checksum : string
}.
End ExportData.

(** The object stored under [SESSION_KEY_STORAGE] by [BiometricService]. *)
Module Session.
Record t := mk {
  encrypted : string;
  salt : string;
  iv : string;
  hmac : string;
  sessionKey : string
}.
End Session.

(** The result of [EncryptionService.encrypt]. *)
Module Encrypted.
Record t := mk {
  encrypted : string;
  salt : string;
  iv : string;
  hmac : string
}.
End Encrypted.

(** A [Uint8Array]. *)
Definition Uint8Array := list Byte.byte.

(** crypto-js [WordArray]: 32-bit words and a count of significant bytes. *)
Record WordArray := { words : list Z; sigBytes : Z }.

(** [CryptoJS.lib.WordArray.create(words)]: with no [sigBytes] argument the
    array counts four significant bytes per element. *)
Definition WordArray_create (ws : list Z) : WordArray :=
  {| words := ws; sigBytes := 4 * Z.of_nat (length ws) |}.

(** [Array.from(bytes)]: the bytes as numbers. *)
Definition Array_from (bytes : Uint8Array) : list Z :=
  map (fun b => Z.of_N (Byte.to_N b)) bytes.

(** ** Exceptions and outcomes *)

Inductive exn :=
| Error (message : string)      (* [new Error(message)] *)
| SyntaxError                   (* [JSON.parse] on malformed text *)
| InvalidCharacterError.        (* [atob] on malformed Base64 *)

Inductive outcome (A : Type) :=
| Return (a : A)
| Throw (e : exn).
Arguments Return {A} a.
Arguments Throw {A} e.

Definition obind {A B} (m : outcome A) (k : A -> outcome B) : outcome B :=
  match m with
  | Return a => k a
  | Throw e => Throw e
  end.

(** A builtin that signals failure by throwing. *)
Definition or_throw {A} (e : exn) (o : option A) : outcome A :=
  match o with
  | Some a => Return a
  | None => Throw e
  end.

(** [JSON.stringify] / [JSON.parse] at the type the code uses the value at. *)
Class JSON (T : Type) := {
  JSON_stringify : T -> string;
  JSON_parse : string -> option T
}.

(** ** External collaborators *)

Record Platform := {
  (* crypto-js *)
  AES_encrypt : string -> WordArray -> WordArray -> WordArray;
  AES_decrypt : WordArray -> WordArray -> WordArray -> WordArray;
  HmacSHA256 : string -> WordArray -> WordArray;
  CryptoJS_SHA256 : string -> WordArray;
  enc_Hex_stringify : WordArray -> string;
  enc_Base64_stringify : WordArray -> string;
  enc_Base64_parse : string -> WordArray;
  enc_Utf8_stringify : WordArray -> option string;
  (* Web Crypto *)
  TextEncoder_encode : string -> Uint8Array;
  PBKDF2_SHA256 : Uint8Array -> Uint8Array -> Z -> Z -> Uint8Array;
  getRandomValues : nat -> nat -> Uint8Array;
  (* builtins *)
  btoa : string -> string;
  atob : string -> option string;
  toUpperCase : string -> string;
  Date_now : nat -> Z;
  Math_random_toString36 : nat -> string;
  JSON_EncryptedVault : JSON EncryptedVault.t;
  JSON_Accounts : JSON (list Account.t);
  JSON_Export : JSON ExportData.t;
  JSON_Session : JSON Session.t;
  (* otpauth *)
  TOTP_accepts : string -> bool;
  (* the host *)
  window_process_renderer : bool;
  window_Capacitor : option string;
  electronAPI : bool;
  safeStorage_isEncryptionAvailable : bool;
  biometric_prompt : nat -> string -> bool
}.


(** ** The mutable world

    [VaultService] keeps its state in three static fields.  [accounts] holds
    a reference to an array: arrays live in [heap] and are shared by
    reference, so that a function which hands out an array hands out a
    location.  The elements of an array are kept by value: the model speaks
    of the contents of arrays, not of changes made inside an account object
    that two arrays hold.  The two key-value stores are
    the renderer's [localStorage] and the [Map] kept by the Electron main
    process behind the [storage:*] IPC handlers.  [tick] counts the draws made
    so far from the outside world (clock, random generator, biometric
    prompt); the [Platform] oracles are indexed by it. *)

Record World := {
  masterPassword : option string;
  accounts : nat;
  isUnlocked : bool;
  heap : gmap nat (list Account.t);
  localStorage : gmap string string;
  secureStorage : gmap string string;
  tick : nat
}.

Definition set_masterPassword (v : option string) (w : World) : World :=
  {| masterPassword := v; accounts := accounts w; isUnlocked := isUnlocked w;
     heap := heap w; localStorage := localStorage w;
     secureStorage := secureStorage w; tick := tick w |}.

Definition set_accounts (v : nat) (w : World) : World :=
  {| masterPassword := masterPassword w; accounts := v; isUnlocked := isUnlocked w;
     heap := heap w; localStorage := localStorage w;
     secureStorage := secureStorage w; tick := tick w |}.

Definition set_isUnlocked (v : bool) (w : World) : World :=
  {| masterPassword := masterPassword w; accounts := accounts w; isUnlocked := v;
     heap := heap w; localStorage := localStorage w;
     secureStorage := secureStorage w; tick := tick w |}.

Definition set_heap (v : gmap nat (list Account.t)) (w : World) : World :=
  {| masterPassword := masterPassword w; accounts := accounts w;
     isUnlocked := isUnlocked w; heap := v; localStorage := localStorage w;
     secureStorage := secureStorage w; tick := tick w |}.

Definition set_localStorage (v : gmap string string) (w : World) : World :=
  {| masterPassword := masterPassword w; accounts := accounts w;
     isUnlocked := isUnlocked w; heap := heap w; localStorage := v;
     secureStorage := secureStorage w; tick := tick w |}.

Definition set_secureStorage (v : gmap string string) (w : World) : World :=
  {| masterPassword := masterPassword w; accounts := accounts w;
     isUnlocked := isUnlocked w; heap := heap w; localStorage := localStorage w;
     secureStorage := v; tick := tick w |}.

Definition set_tick (v : nat) (w : World) : World :=
  {| masterPassword := masterPassword w; accounts := accounts w;
     isUnlocked := isUnlocked w; heap := heap w; localStorage := localStorage w;
     secureStorage := secureStorage w; tick := v |}.

(** The contents of the array at a location. *)
Definition array_at (w : World) (r : nat) : list Account.t :=
  default [] (heap w !! r).

(** The contents of [this.accounts]. *)
Definition accounts_of (w : World) : list Account.t := array_at w (accounts w).

(** ** Computations: state, and exceptions that leave the state as it is at
    the point of the throw *)

Definition M (A : Type) : Type := World -> outcome A * World.

Definition ret {A} (a : A) : M A := fun w => (Return a, w).

Definition throw {A} (e : exn) : M A := fun w => (Throw e, w).

Definition bind {A B} (m : M A) (k : A -> M B) : M B :=
  fun w =>
    match m w with
    | (Return a, w') => k a w'
    | (Throw e, w') => (Throw e, w')
    end.

Definition try_catch {A} (m : M A) (handler : exn -> M A) : M A :=
  fun w =>
    match m w with
    | (Return a, w') => (Return a, w')
    | (Throw e, w') => handler e w'
    end.

(** A computation that only throws or returns. *)
Definition lift {A} (o : outcome A) : M A := fun w => (o, w).

Definition gets {A} (f : World -> A) : M A := fun w => (Return (f w), w).

Definition modify (f : World -> World) : M unit := fun w => (Return tt, f w).

(** One draw from an oracle of the outside world. *)
Definition draw {A} (oracle : nat -> A) : M A :=
  fun w => (Return (oracle (tick w)), set_tick (S (tick w)) w).

Notation "'let*' x ':=' m 'in' k" := (bind m (fun x => k))
  (at level 10, x name, m at level 100, k at level 200).
Notation "m ';;' k" := (bind m (fun _ => k))
  (at level 100, k at level 200, right associativity).
Notation "'let+' x ':=' m 'in' k" := (obind m (fun x => k))
  (at level 10, x name, m at level 100, k at level 200).

(** [new Array], [[...xs]], [JSON.parse] of an array: a fresh location. *)
Definition new_array (xs : list Account.t) : M nat :=
  fun w =>
    let r := fresh (dom (heap w)) in
    (Return r, set_heap (<[r := xs]> (heap w)) w).

(** An update of an array in place ([push], [splice], [a[i] = x]). *)
Definition update_array (r : nat) (f : list Account.t -> list Account.t) : M unit :=
  modify (fun w => set_heap (<[r := f (array_at w r)]> (heap w)) w).

(** ** String helpers *)

(** [s.substring(from, to)] for [from <= to]. *)
Definition JS_substring (from to : nat) (s : string) : string :=
  String.substring from (to - from) s.

(** [!s] on a string. *)
Definition falsy (s : string) : bool := String.eqb s "".

(** [a || b] where [a] is a string or [undefined]. *)
Definition or_string (a : option string) (b : string) : string :=
  match a with
  | Some a => if falsy a then b else a
  | None => b
  end.

(** The characters matched by [\s], among 8-bit characters. *)
Definition is_whitespace (c : ascii) : bool :=
  let n := nat_of_ascii c in
  ((9 <=? n)%nat && (n <=? 13)%nat) || (n =? 32)%nat || (n =? 160)%nat.

(** [s.replace(/\s/g, '')]. *)
Fixpoint strip_whitespace (s : string) : string :=
  match s with
  | EmptyString => EmptyString
  | String c s' =>
      if is_whitespace c then strip_whitespace s'
      else String c (strip_whitespace s')
  end.

(** [`${n}`] for an integer. *)
Definition Z_toString (n : Z) : string := NilZero.string_of_int (Z.to_int n).

Section Services.

Variable pf : Platform.

#[local] Instance json_vault : JSON EncryptedVault.t := JSON_EncryptedVault pf.
#[local] Instance json_accounts : JSON (list Account.t) := JSON_Accounts pf.
#[local] Instance json_export : JSON ExportData.t := JSON_Export pf.
#[local] Instance json_session : JSON Session.t := JSON_Session pf.

(** [JSON.parse(text)], throwing [SyntaxError]. *)
Definition parse {T} `{JSON T} (text : string) : M T :=
  lift (or_throw SyntaxError (JSON_parse text)).

(** ** EncryptionService (src/services/encryption.service.ts) *)

Definition PBKDF2_ITERATIONS : Z := 100000.
Definition KEY_LENGTH : Z := 32.

Definition deriveKey (password : string) (salt : Uint8Array) : Uint8Array :=
  let passwordBuffer := TextEncoder_encode pf password in
  PBKDF2_SHA256 pf passwordBuffer salt PBKDF2_ITERATIONS (KEY_LENGTH * 8).

Definition generateSalt : M Uint8Array := draw (fun t => getRandomValues pf t 16).

Definition generateIV : M Uint8Array := draw (fun t => getRandomValues pf t 16).

(** The loop [binary += String.fromCharCode(buffer[i])], then [btoa]. *)
Definition arrayBufferToBase64 (buffer : Uint8Array) : string :=
  let binary :=
    fold_left (fun binary b => binary +:+ String (ascii_of_byte b) "") buffer "" in
  btoa pf binary.

(** [atob], then the loop [bytes[i] = binary.charCodeAt(i)]. *)
Definition base64ToUint8Array (base64 : string) : outcome Uint8Array :=
  let+ binary := or_throw InvalidCharacterError (atob pf base64) in
  Return (map byte_of_ascii (list_ascii_of_string binary)).

Definition encrypt (data password : string) (salt iv : option Uint8Array)
  : M Encrypted.t :=
  let* saltBytes := match salt with Some s => ret s | None => generateSalt end in
  let* ivBytes := match iv with Some i => ret i | None => generateIV end in
  let keyBytes := deriveKey password saltBytes in
  let key := WordArray_create (Array_from keyBytes) in
  let ivWordArray := WordArray_create (Array_from ivBytes) in
  let ciphertext := AES_encrypt pf data key ivWordArray in
  let hmac :=
    enc_Hex_stringify pf (HmacSHA256 pf (enc_Hex_stringify pf ciphertext) key) in
  ret {| Encrypted.encrypted := enc_Base64_stringify pf ciphertext;
         Encrypted.salt := arrayBufferToBase64 saltBytes;
         Encrypted.iv := arrayBufferToBase64 ivBytes;
         Encrypted.hmac := hmac |}.

Definition integrity_error : exn :=
  Error "Data integrity check failed. Data may be corrupted or tampered with.".

Definition decryption_error : exn :=
  Error "Decryption failed. Incorrect password or corrupted data.".

(** Thrown by crypto-js when the decrypted bytes are not UTF-8. *)
Definition malformed_utf8_error : exn := Error "Malformed UTF-8 data".

Definition decrypt (encryptedData password salt iv hmac : string) : outcome string :=
  let+ saltBytes := base64ToUint8Array salt in
  let+ ivBytes := base64ToUint8Array iv in
  let keyBytes := deriveKey password saltBytes in
  let key := WordArray_create (Array_from keyBytes) in
  let ivWordArray := WordArray_create (Array_from ivBytes) in
  (* Verify HMAC before decrypting *)
  let ciphertext := enc_Base64_parse pf encryptedData in
  let computedHmac :=
    enc_Hex_stringify pf (HmacSHA256 pf (enc_Hex_stringify pf ciphertext) key) in
  if negb (String.eqb computedHmac hmac) then Throw integrity_error
  else
    let decrypted := AES_decrypt pf ciphertext key ivWordArray in
    let+ decryptedString :=
      or_throw malformed_utf8_error (enc_Utf8_stringify pf decrypted) in
    if falsy decryptedString then Throw decryption_error
    else Return decryptedString.

Definition generateTransferKey : M string :=
  let* array := draw (fun t => getRandomValues pf t 32) in
  ret (arrayBufferToBase64 array).

Definition createChecksum (data : string) : string :=
  JS_substring 0 8 (enc_Hex_stringify pf (CryptoJS_SHA256 pf data)).

(** [wipeString] overwrites its own parameter, nothing else. *)
Definition wipeString (str : string) : M unit := ret tt.

(** ** Platform detection (src/utils/platform.ts) *)

Inductive PlatformName := web | electron | ios | android.

Record PlatformInfo := {
  isElectron : bool;
  isCapacitor : bool;
  platform : PlatformName
}.

Definition getPlatformInfo : PlatformInfo :=
  let isElectron := window_process_renderer pf in
  let isCapacitor := bool_decide (is_Some (window_Capacitor pf)) in
  {| isElectron := isElectron;
     isCapacitor := isCapacitor;
     platform :=
       if isElectron then electron
       else match window_Capacitor pf with
            | Some p =>
                if String.eqb p "ios" then ios
                else if String.eqb p "android" then android
                else web
            | None => web
            end |}.

(** ** The [storage:*] IPC handlers (electron/main.ts) *)

Definition ipc_storage_set (key value : string) : M unit :=
  modify (fun w => set_secureStorage (<[key := value]> (secureStorage w)) w).

(** [if (!value) return null]: with [safeStorage] the stored value is a
    buffer, otherwise it is the string itself and the empty string is
    reported as missing. *)
Definition ipc_storage_get (key : string) : M (option string) :=
  gets (fun w =>
    match secureStorage w !! key with
    | Some value =>
        if safeStorage_isEncryptionAvailable pf then Some value
        else if falsy value then None else Some value
    | None => None
    end).

Definition ipc_storage_remove (key : string) : M unit :=
  modify (fun w => set_secureStorage (delete key (secureStorage w)) w).

(** ** StorageService *)

Definition STORAGE_PREFIX : string := "nauth_".

Definition localStorage_setItem (key value : string) : M unit :=
  modify (fun w => set_localStorage (<[key := value]> (localStorage w)) w).

Definition localStorage_getItem (key : string) : M (option string) :=
  gets (fun w => localStorage w !! key).

Definition localStorage_removeItem (key : string) : M unit :=
  modify (fun w => set_localStorage (delete key (localStorage w)) w).

Definition setItem (key value : string) : M unit :=
  let fullKey := STORAGE_PREFIX +:+ key in
  if isCapacitor getPlatformInfo then localStorage_setItem fullKey value
  else if isElectron getPlatformInfo then
    if electronAPI pf then ipc_storage_set fullKey value
    else localStorage_setItem fullKey value
  else localStorage_setItem fullKey value.

Definition getItem (key : string) : M (option string) :=
  let fullKey := STORAGE_PREFIX +:+ key in
  if isCapacitor getPlatformInfo then localStorage_getItem fullKey
  else if isElectron getPlatformInfo then
    if electronAPI pf then ipc_storage_get fullKey
    else localStorage_getItem fullKey
  else localStorage_getItem fullKey.

Definition removeItem (key : string) : M unit :=
  let fullKey := STORAGE_PREFIX +:+ key in
  if isCapacitor getPlatformInfo then localStorage_removeItem fullKey
  else if isElectron getPlatformInfo then
    if electronAPI pf then ipc_storage_remove fullKey
    else localStorage_removeItem fullKey
  else localStorage_removeItem fullKey.

(** ** OTPService.validateSecret *)

Definition is_base32_char (c : ascii) : bool :=
  let n := nat_of_ascii c in
  ((65 <=? n)%nat && (n <=? 90)%nat) || ((50 <=? n)%nat && (n <=? 55)%nat).

Fixpoint all_equals_signs (s : string) : bool :=
  match s with
  | EmptyString => true
  | String c s' => Ascii.eqb c "="%char && all_equals_signs s'
  end.

Fixpoint base32_tail (s : string) : bool :=
  match s with
  | EmptyString => true
  | String c s' => if is_base32_char c then base32_tail s' else all_equals_signs s
  end.

(** [/^[A-Z2-7]+=*$/.test(s)]. *)
Definition base32Regex_test (s : string) : bool :=
  match s with
  | EmptyString => false
  | String c s' => is_base32_char c && base32_tail s'
  end.

(** [secret.replace(/\s/g, '').toUpperCase()]. *)
Definition clean (secret : string) : string :=
  toUpperCase pf (strip_whitespace secret).

Definition validateSecret (secret : string) : bool :=
  let cleanSecret := clean secret in
  if negb (base32Regex_test cleanSecret) then false
  else TOTP_accepts pf cleanSecret.

(** ** VaultService (src/services/vault.service.ts) *)

Definition VAULT_KEY : string := "vault".
Definition VAULT_VERSION : string := "1.0.0".

Definition vault_is_locked : exn := Error "Vault is locked".

Definition initialize : M bool :=
  let* vaultData := getItem VAULT_KEY in
  ret (bool_decide (is_Some vaultData)).

Definition saveVault : M unit :=
  let* unlocked := gets isUnlocked in
  let* password := gets masterPassword in
  match password with
  | None => throw vault_is_locked
  | Some password =>
      if negb unlocked || falsy password then throw vault_is_locked
      else
        let* accounts := gets accounts_of in
        let data := JSON_stringify accounts in
        let* encrypted := encrypt data password None None in
        let vault :=
          {| EncryptedVault.version := VAULT_VERSION;
             EncryptedVault.salt := Encrypted.salt encrypted;
             EncryptedVault.iv := Encrypted.iv encrypted;
             EncryptedVault.data := Encrypted.encrypted encrypted;
             EncryptedVault.hmac := Encrypted.hmac encrypted |} in
        setItem VAULT_KEY (JSON_stringify vault)
  end.

Definition createVault (password : string) : M unit :=
  let* exists_ := initialize in
  if exists_ then throw (Error "Vault already exists")
  else
    modify (set_masterPassword (Some password));;
    (let* empty := new_array [] in modify (set_accounts empty));;
    modify (set_isUnlocked true);;
    saveVault.

Definition unlockVault (password : string) : M bool :=
  let* vaultData := getItem VAULT_KEY in
  match vaultData with
  | None => throw (Error "Vault does not exist")
  | Some vaultData =>
      if falsy vaultData then throw (Error "Vault does not exist")
      else
        try_catch
          (let* vault := parse vaultData in
           let* decryptedData :=
             lift (decrypt (EncryptedVault.data vault) password
                     (EncryptedVault.salt vault) (EncryptedVault.iv vault)
                     (EncryptedVault.hmac vault)) in
           let* parsed := parse decryptedData in
           (let* fresh := new_array parsed in modify (set_accounts fresh));;
           modify (set_masterPassword (Some password));;
           modify (set_isUnlocked true);;
           ret true)
          (fun error => ret false)
  end.

Definition lockVault : M unit :=
  (let* empty := new_array [] in modify (set_accounts empty));;
  modify (set_isUnlocked false);;
  let* password := gets masterPassword in
  match password with
  | None => ret tt
  | Some password =>
      if falsy password then ret tt
      else wipeString password;; modify (set_masterPassword None)
  end.

(** [[...this.accounts]]: the caller receives a new array. *)
Definition getAccounts : M nat :=
  let* unlocked := gets isUnlocked in
  if negb unlocked then throw vault_is_locked
  else
    let* accounts := gets accounts_of in
    new_array accounts.

Definition getMasterPassword : M (option string) :=
  let* unlocked := gets isUnlocked in
  if negb unlocked then ret None else gets masterPassword.

Definition getAccount (id : string) : M (option Account.t) :=
  let* unlocked := gets isUnlocked in
  if negb unlocked then throw vault_is_locked
  else
    let* accounts := gets accounts_of in
    ret (find (fun acc => String.eqb (Account.id acc) id) accounts).

Definition generateId : M string :=
  let* now := draw (Date_now pf) in
  let* random := draw (Math_random_toString36 pf) in
  ret (Z_toString now +:+ "-" +:+ JS_substring 2 11 random).

Definition addAccount (account : AccountData.t) : M Account.t :=
  let* unlocked := gets isUnlocked in
  if negb unlocked then throw vault_is_locked
  else
    let* id := generateId in
    let* createdAt := draw (Date_now pf) in
    let* updatedAt := draw (Date_now pf) in
    let newAccount :=
      {| Account.id := id;
         Account.name := AccountData.name account;
         Account.issuer := AccountData.issuer account;
         Account.secret := AccountData.secret account;
         Account.type := AccountData.type account;
         Account.algorithm := AccountData.algorithm account;
         Account.digits := AccountData.digits account;
         Account.period := AccountData.period account;
         Account.counter := AccountData.counter account;
         Account.createdAt := createdAt;
         Account.updatedAt := updatedAt |} in
    (let* this_accounts := gets accounts in
     update_array this_accounts (fun xs => (xs ++ [newAccount])%list));;
    saveVault;;
    ret newAccount.

(** [{ ...old, ...updates, updatedAt }]. *)
Definition spread (old : Account.t) (updates : Partial.t) (updatedAt : Z) : Account.t :=
  {| Account.id := default (Account.id old) (Partial.id updates);
     Account.name := default (Account.name old) (Partial.name updates);
     Account.issuer := default (Account.issuer old) (Partial.issuer updates);
     Account.secret := default (Account.secret old) (Partial.secret updates);
     Account.type := default (Account.type old) (Partial.type updates);
     Account.algorithm := default (Account.algorithm old) (Partial.algorithm updates);
     Account.digits := default (Account.digits old) (Partial.digits updates);
     Account.period := default (Account.period old) (Partial.period updates);
     Account.counter := default (Account.counter old) (Partial.counter updates);
     Account.createdAt := default (Account.createdAt old) (Partial.createdAt updates);
     Account.updatedAt := updatedAt |}.

(** [xs.findIndex(p)], with [None] for [-1]. *)
Fixpoint findIndex {A} (p : A -> bool) (xs : list A) : option nat :=
  match xs with
  | [] => None
  | x :: xs' => if p x then Some O else S <$> findIndex p xs'
  end.

Definition updateAccount (id : string) (updates : Partial.t) : M unit :=
  let* unlocked := gets isUnlocked in
  if negb unlocked then throw vault_is_locked
  else
    let* accounts_ := gets accounts_of in
    match findIndex (fun acc => String.eqb (Account.id acc) id) accounts_ with
    | None => throw (Error "Account not found")
    | Some index =>
        let* now := draw (Date_now pf) in
        (let* this_accounts := gets accounts in
         update_array this_accounts
           (fun xs => match xs !! index with
                      | Some old => <[index := spread old updates now]> xs
                      | None => xs
                      end));;
        saveVault
    end.

Definition deleteAccount (id : string) : M unit :=
  let* unlocked := gets isUnlocked in
  if negb unlocked then throw vault_is_locked
  else
    let* accounts_ := gets accounts_of in
    match findIndex (fun acc => String.eqb (Account.id acc) id) accounts_ with
    | None => throw (Error "Account not found")
    | Some index =>
        (let* this_accounts := gets accounts in
         update_array this_accounts (fun xs => (take index xs ++ drop (S index) xs)%list));;
        saveVault
    end.

Definition exportVault (transferPassword : option string) : M string :=
  let* unlocked := gets isUnlocked in
  let* masterPassword_ := gets masterPassword in
  match masterPassword_ with
  | None => throw vault_is_locked
  | Some masterPassword_ =>
      if negb unlocked || falsy masterPassword_ then throw vault_is_locked
      else
        let password := or_string transferPassword masterPassword_ in
        let* accounts := gets accounts_of in
        let data := JSON_stringify accounts in
        let* encrypted := encrypt data password None None in
        let checksum := createChecksum data in
        let exportData :=
          {| ExportData.version := VAULT_VERSION;
             ExportData.encryptedData := Encrypted.encrypted encrypted;
             ExportData.salt := Encrypted.salt encrypted;
             ExportData.iv := Encrypted.iv encrypted;
             ExportData.hmac := Encrypted.hmac encrypted;
             ExportData.checksum := checksum |} in
        ret (JSON_stringify exportData)
  end.

Definition same_issuer_and_name (account acc : Account.t) : bool :=
  String.eqb (Account.issuer acc) (Account.issuer account)
  && String.eqb (Account.name acc) (Account.name account).

(** The loop of [importVault] over the imported accounts. *)
Fixpoint import_loop (importedAccounts : list Account.t) (importedCount : Z) : M Z :=
  match importedAccounts with
  | [] => ret importedCount
  | account :: rest =>
      let* accounts := gets accounts_of in
      let exists_ := existsb (same_issuer_and_name account) accounts in
      if negb exists_ then
        addAccount
          {| AccountData.name := Account.name account;
             AccountData.issuer := Account.issuer account;
             AccountData.secret := Account.secret account;
             AccountData.type := Account.type account;
             AccountData.algorithm := Account.algorithm account;
             AccountData.digits := Account.digits account;
             AccountData.period := Account.period account;
             AccountData.counter := Account.counter account |};;
        import_loop rest (importedCount + 1)
      else import_loop rest importedCount
  end.

Definition checksum_error : exn := Error "Checksum verification failed".

Definition import_error : exn :=
  Error "Failed to import vault. Check password and data integrity.".

(** The body of the [try] block of [importVault]. *)
Definition importVault_try (exportedData transferPassword : string) : M Z :=
  let* importData := parse exportedData in
  let* decryptedData :=
    lift (decrypt (ExportData.encryptedData importData) transferPassword
            (ExportData.salt importData) (ExportData.iv importData)
            (ExportData.hmac importData)) in
  let checksum := createChecksum decryptedData in
  if negb (String.eqb checksum (ExportData.checksum importData))
  then throw checksum_error
  else
    let* importedAccounts := parse decryptedData in
    import_loop importedAccounts 0.

Definition importVault (exportedData transferPassword : string) : M Z :=
  let* unlocked := gets isUnlocked in
  if negb unlocked then throw (Error "Vault must be unlocked to import")
  else
    try_catch (importVault_try exportedData transferPassword)
      (fun error => throw import_error).

Definition changeMasterPassword (currentPassword newPassword : string) : M bool :=
  let* unlocked := gets isUnlocked in
  if negb unlocked then throw vault_is_locked
  else
    let* masterPassword_ := gets masterPassword in
    if negb (bool_decide (Some currentPassword = masterPassword_)) then ret false
    else
      modify (set_masterPassword (Some newPassword));;
      saveVault;;
      ret true.

Definition isVaultUnlocked : M bool := gets isUnlocked.

Definition deleteVault : M unit :=
  lockVault;;
  removeItem VAULT_KEY.

(** ** AccountService (src/services/account.service.ts) *)

Definition getAll : M nat := getAccounts.

Definition getById (id : string) : M (option Account.t) := getAccount id.

Definition addManual (accountData : AccountData.t) : M Account.t :=
  if negb (validateSecret (AccountData.secret accountData))
  then throw (Error "Invalid secret key")
  else addAccount accountData.

(** ** AddAccountModal.handleManualSubmit (src/components/AddAccountModal.tsx)

    The form state is the argument; the result is the error message the
    form ends up showing, if any. *)

Definition handleManualSubmit (form : AccountData.t) : M (option string) :=
  let name := AccountData.name form in
  let secret := AccountData.secret form in
  let issuer := AccountData.issuer form in
  if falsy name || falsy secret then ret (Some "Name and secret are required")
  else if negb (validateSecret secret)
  then ret (Some "Invalid secret key. Must be Base32 encoded.")
  else
    try_catch
      (addManual
         {| AccountData.name := name;
            AccountData.issuer := or_string (Some issuer) "Unknown";
            AccountData.secret := clean secret;
            AccountData.type := AccountData.type form;
            AccountData.algorithm := AccountData.algorithm form;
            AccountData.digits := AccountData.digits form;
            AccountData.period := AccountData.period form;
            AccountData.counter := 0 |};;
       ret None)
      (fun err => ret (Some "Failed to add account. Please try again.")).

(** ** BiometricService *)

Definition BIOMETRIC_KEY_STORAGE : string := "biometric_enabled".
Definition SESSION_KEY_STORAGE : string := "encrypted_session_key".

Definition authenticate (reason : string) : M bool :=
  if isElectron getPlatformInfo then
    if electronAPI pf then draw (fun t => biometric_prompt pf t reason)
    else ret false
  else if isCapacitor getPlatformInfo then ret false
  else ret false.

Definition isEnabled : M bool :=
  let* enabled := getItem BIOMETRIC_KEY_STORAGE in
  ret (bool_decide (enabled = Some "true")).

Definition enable (masterPassword : string) : M bool :=
  try_catch
    (let* authenticated := authenticate "Enable biometric unlock" in
     if negb authenticated then ret false
     else
       let* sessionKey := generateTransferKey in
       let* encrypted := encrypt masterPassword sessionKey None None in
       setItem SESSION_KEY_STORAGE
         (JSON_stringify
            {| Session.encrypted := Encrypted.encrypted encrypted;
               Session.salt := Encrypted.salt encrypted;
               Session.iv := Encrypted.iv encrypted;
               Session.hmac := Encrypted.hmac encrypted;
               Session.sessionKey := sessionKey |});;
       setItem BIOMETRIC_KEY_STORAGE "true";;
       ret true)
    (fun error => ret false).

Definition disable : M unit :=
  removeItem BIOMETRIC_KEY_STORAGE;;
  removeItem SESSION_KEY_STORAGE.

Definition unlock : M (option string) :=
  try_catch
    (let* enabled := isEnabled in
     if negb enabled then ret None
     else
       let* authenticated := authenticate "Unlock nAuth" in
       if negb authenticated then ret None
       else
         let* sessionData := getItem SESSION_KEY_STORAGE in
         match sessionData with
         | None => ret None
         | Some sessionData =>
             if falsy sessionData then ret None
             else
               let* session := parse sessionData in
               let* masterPassword :=
                 lift (decrypt (Session.encrypted session) (Session.sessionKey session)
                         (Session.salt session) (Session.iv session)
                         (Session.hmac session)) in
               ret (Some masterPassword)
         end)
    (fun error => ret None).

Definition updatePassword (newPassword : string) : M bool :=
  let* enabled := isEnabled in
  if negb enabled then ret true
  else
    disable;;
    enable newPassword.

End Services.

(** ** Addition of numbers

    A [number] that holds an integer is modelled by that integer, and a
    [number] is a double: [a + b] is the exact sum rounded to the nearest
    double, ties going to the even significand.  Up to 2^53 in magnitude
    every integer is a double and the sum is exact; beyond, only 53
    significant bits are kept.  (Sums beyond the largest finite double are
    not modelled; adding [1] to a double never produces one.) *)

Definition round_to_double (z : Z) : Z :=
  let m := Z.abs z in
  if m <=? 2 ^ 53 then z
  else
    let e := Z.log2 m - 52 in
    let q := Z.shiftr m e in
    let r := Z.land m (Z.ones e) in
    let half := Z.shiftl 1 (e - 1) in
    let q' := if (half <? r) || ((r =? half) && Z.odd q) then q + 1 else q in
    Z.sgn z * Z.shiftl q' e.

Definition JS_plus (a b : Z) : Z := round_to_double (a + b).

(** ** More of the services, and the screens that call them *)

Section MoreServices.

Variable pf : Platform.

(** The contents of an array a caller holds. *)
Definition read_array (r : nat) : M (list Account.t) :=
  gets (fun w => array_at w r).

(** *** The [storage:clear] IPC handler (electron/main.ts) *)

Definition ipc_storage_clear : M unit :=
  modify (fun w => set_secureStorage ∅ w).

(** *** StorageService.clear *)

(** The loop of [clearLocalStorage] over [Object.keys(localStorage)]. *)
Definition remove_prefixed (keys : list string) (items : gmap string string)
  : gmap string string :=
  fold_left
    (fun items key =>
       if String.prefix STORAGE_PREFIX key then delete key items else items)
    keys items.

Definition clearLocalStorage : M unit :=
  modify (fun w =>
    let keys := (map_to_list (localStorage w)).*1 in
    set_localStorage (remove_prefixed keys (localStorage w)) w).

Definition clear : M unit :=
  if isCapacitor (getPlatformInfo pf) then clearLocalStorage
  else if isElectron (getPlatformInfo pf) then
    if electronAPI pf then ipc_storage_clear else clearLocalStorage
  else clearLocalStorage.

(** *** OTPService.formatCode *)

(** [s.substring(from)]. *)
Definition JS_substring_from (from : nat) (s : string) : string :=
  String.substring from (String.length s - from) s.

Definition formatCode (code : string) : string :=
  if (String.length code =? 6)%nat then
    JS_substring 0 3 code +:+ " " +:+ JS_substring_from 3 code
  else if (String.length code =? 7)%nat then
    JS_substring 0 3 code +:+ " " +:+ JS_substring_from 3 code
  else if (String.length code =? 8)%nat then
    JS_substring 0 4 code +:+ " " +:+ JS_substring_from 4 code
  else code.

(** *** AccountService: incrementHOTPCounter, search, getStats *)

(** The object literal [{ counter: n }]. *)
Definition only_counter (n : Z) : Partial.t :=
  {| Partial.id := None; Partial.name := None; Partial.issuer := None;
     Partial.secret := None; Partial.type := None; Partial.algorithm := None;
     Partial.digits := None; Partial.period := None; Partial.counter := Some n;
     Partial.createdAt := None; Partial.updatedAt := None |}.

Definition is_hotp (t : OTPType) : bool :=
  match t with hotp => true | totp => false end.

Definition is_totp (t : OTPType) : bool :=
  match t with totp => true | hotp => false end.

Definition not_hotp_error : exn := Error "Account is not HOTP".

Definition incrementHOTPCounter (id : string) : M unit :=
  let* account := getAccount id in
  match account with
  | None => throw not_hotp_error
  | Some account =>
      if negb (is_hotp (Account.type account)) then throw not_hotp_error
      else updateAccount pf id (only_counter (JS_plus (Account.counter account) 1))
  end.

(** [s.includes(sub)]. *)
Fixpoint includes (sub s : string) : bool :=
  String.prefix sub s
  || match s with
     | EmptyString => false
     | String _ s' => includes sub s'
     end.

(** [String.prototype.toLowerCase], a builtin. *)
Variable toLowerCase : string -> string.

Definition search (query : string) : M nat :=
  let* r := getAccounts in
  let* accounts := read_array r in
  let lowerQuery := toLowerCase query in
  new_array
    (List.filter
       (fun account =>
          includes lowerQuery (toLowerCase (Account.name account))
          || includes lowerQuery (toLowerCase (Account.issuer account)))
       accounts).

Record Stats := {
  total : Z;
  totpCount : Z;
  hotpCount : Z;
  issuers : Z
}.

Definition getStats : M Stats :=
  let* r := getAccounts in
  let* accounts := read_array r in
  let uniqueIssuers : gset string := list_to_set (map Account.issuer accounts) in
  ret {| total := Z.of_nat (length accounts);
         totpCount :=
           Z.of_nat (length (List.filter (fun acc => is_totp (Account.type acc)) accounts));
         hotpCount :=
           Z.of_nat (length (List.filter (fun acc => is_hotp (Account.type acc)) accounts));
         issuers := Z.of_nat (size uniqueIssuers) |}.

(** *** AuthScreen (src/components/AuthScreen.tsx)

    A handler is given the props and the form state it reads; its result is
    what the screen does next. *)

Inductive AuthOutcome :=
| ShowError (message : string)               (* [setError(message)] *)
| OfferBiometric (pendingMasterPassword : string)
| OnUnlock.                                   (* [onUnlock()] *)

Definition shouldShowBiometricModal : M bool :=
  let* dontAsk := getItem pf "biometric_dont_ask" in
  ret (negb (bool_decide (dontAsk = Some "true"))).

Definition handleSubmit (vaultExists : bool) (password confirmPassword : string)
  (biometricAvailable biometricEnabled : bool) : M AuthOutcome :=
  if falsy password then ret (ShowError "Password is required")
  else if negb vaultExists && negb (String.eqb password confirmPassword)
  then ret (ShowError "Passwords do not match")
  else if negb vaultExists && (String.length password <? 8)%nat
  then ret (ShowError "Password must be at least 8 characters")
  else
    try_catch
      (if vaultExists then
         let* success := unlockVault pf password in
         if success then
           if biometricAvailable && negb biometricEnabled then
             let* ask := shouldShowBiometricModal in
             if ask then ret (OfferBiometric password) else ret OnUnlock
           else ret OnUnlock
         else ret (ShowError "Incorrect password")
       else
         createVault pf password;;
         if biometricAvailable then
           let* ask := shouldShowBiometricModal in
           if ask then ret (OfferBiometric password) else ret OnUnlock
         else ret OnUnlock)
      (fun err => ret (ShowError "An error occurred. Please try again.")).

Definition handleBiometricUnlock : M AuthOutcome :=
  try_catch
    (let* masterPassword := unlock pf in
     match masterPassword with
     | None => ret (ShowError "Biometric authentication failed")
     | Some masterPassword =>
         if falsy masterPassword
         then ret (ShowError "Biometric authentication failed")
         else
           let* success := unlockVault pf masterPassword in
           if success then ret OnUnlock
           else ret (ShowError "Failed to unlock vault")
     end)
    (fun err => ret (ShowError "Biometric authentication failed")).

(** *** Settings.handleEnableBiometric

    The four notices stand for the messages the screen can show. *)

Inductive EnableNotice :=
| VaultNotUnlocked         (* the error [Vault is not unlocked] *)
| BiometricEnabled         (* the success message *)
| EnableFailed             (* the error shown when [enable] returns false *)
| EnableError.             (* the error of the [catch] *)

Definition Settings_handleEnableBiometric : M EnableNotice :=
  try_catch
    (let* masterPassword := getMasterPassword in
     match masterPassword with
     | None => ret VaultNotUnlocked
     | Some masterPassword =>
         if falsy masterPassword then ret VaultNotUnlocked
         else
           let* result := enable pf masterPassword in
           if result then ret BiometricEnabled else ret EnableFailed
     end)
    (fun err => ret EnableError).

(** *** Settings.handleDeleteAllData

    The three notices the screen can show stand for its messages. *)

Inductive DeleteNotice :=
| ConfirmationRequired     (* the error asking to type SUPPRIMER *)
| DataCleared              (* the success message *)
| ClearFailed.             (* the error of the [catch] *)

Definition handleDeleteAllData (deleteConfirmText : string) : M DeleteNotice :=
  if negb (String.eqb deleteConfirmText "SUPPRIMER") then ret ConfirmationRequired
  else
    try_catch
      (clear;;
       disable pf;;
       ret DataCleared)
      (fun err => ret ClearFailed).

End MoreServices.

(** ** What the proofs assume of the collaborators *)

Record Laws (pf : Platform) : Prop := {
  (** AES-CBC decryption with the key and IV of the encryption gives back
      the bytes of the message, and those decode to the message. *)
  law_AES : forall data key iv,
    enc_Utf8_stringify pf (AES_decrypt pf (AES_encrypt pf data key iv) key iv)
    = Some data;
  (** Base64 text of a ciphertext parses back to the ciphertext. *)
  law_Base64 : forall data key iv,
    enc_Base64_parse pf (enc_Base64_stringify pf (AES_encrypt pf data key iv))
    = AES_encrypt pf data key iv;
  law_atob_btoa : forall binary, atob pf (btoa pf binary) = Some binary;
  law_JSON_Export : forall x : ExportData.t,
    JSON_parse (JSON := JSON_Export pf) (JSON_stringify (JSON := JSON_Export pf) x)
    = Some x;
  law_JSON_Session : forall x : Session.t,
    JSON_parse (JSON := JSON_Session pf) (JSON_stringify (JSON := JSON_Session pf) x)
    = Some x;
  (** JSON text is never empty. *)
  law_JSON_Session_text : forall x : Session.t,
    JSON_stringify (JSON := JSON_Session pf) x <> "";
  law_JSON_Accounts_text : forall x : list Account.t,
    JSON_stringify (JSON := JSON_Accounts pf) x <> ""
}.

(** What the proofs about the stored vault assume in addition: the vault
    record and the account list survive [JSON.stringify] and [JSON.parse],
    and the text of a record is not empty. *)
Record StoreLaws (pf : Platform) : Prop := {
  law_JSON_Vault : forall x : EncryptedVault.t,
    JSON_parse (JSON := JSON_EncryptedVault pf)
      (JSON_stringify (JSON := JSON_EncryptedVault pf) x) = Some x;
  law_JSON_Vault_text : forall x : EncryptedVault.t,
    JSON_stringify (JSON := JSON_EncryptedVault pf) x <> "";
  law_JSON_Accounts : forall x : list Account.t,
    JSON_parse (JSON := JSON_Accounts pf)
      (JSON_stringify (JSON := JSON_Accounts pf) x) = Some x
}.


Definition with_oracles (now : nat -> Z) (random : nat -> string) (pf : Platform)
  : Platform :=
  {| AES_encrypt := AES_encrypt pf; AES_decrypt := AES_decrypt pf;
     HmacSHA256 := HmacSHA256 pf; CryptoJS_SHA256 := CryptoJS_SHA256 pf;
     enc_Hex_stringify := enc_Hex_stringify pf;
     enc_Base64_stringify := enc_Base64_stringify pf;
     enc_Base64_parse := enc_Base64_parse pf;
     enc_Utf8_stringify := enc_Utf8_stringify pf;
     TextEncoder_encode := TextEncoder_encode pf;
     PBKDF2_SHA256 := PBKDF2_SHA256 pf; getRandomValues := getRandomValues pf;
     btoa := btoa pf; atob := atob pf; toUpperCase := toUpperCase pf;
     Date_now := now; Math_random_toString36 := random;
     JSON_EncryptedVault := JSON_EncryptedVault pf; JSON_Accounts := JSON_Accounts pf;
     JSON_Export := JSON_Export pf; JSON_Session := JSON_Session pf;
     TOTP_accepts := TOTP_accepts pf;
     window_process_renderer := window_process_renderer pf;
     window_Capacitor := window_Capacitor pf; electronAPI := electronAPI pf;
     safeStorage_isEncryptionAvailable := safeStorage_isEncryptionAvailable pf;
     biometric_prompt := biometric_prompt pf |}.

Definition with_biometric_prompt (prompt : nat -> string -> bool) (pf : Platform)
  : Platform :=
  {| AES_encrypt := AES_encrypt pf; AES_decrypt := AES_decrypt pf;
     HmacSHA256 := HmacSHA256 pf; CryptoJS_SHA256 := CryptoJS_SHA256 pf;
     enc_Hex_stringify := enc_Hex_stringify pf;
     enc_Base64_stringify := enc_Base64_stringify pf;
     enc_Base64_parse := enc_Base64_parse pf;
     enc_Utf8_stringify := enc_Utf8_stringify pf;
     TextEncoder_encode := TextEncoder_encode pf;
     PBKDF2_SHA256 := PBKDF2_SHA256 pf; getRandomValues := getRandomValues pf;
     btoa := btoa pf; atob := atob pf; toUpperCase := toUpperCase pf;
     Date_now := Date_now pf; Math_random_toString36 := Math_random_toString36 pf;
     JSON_EncryptedVault := JSON_EncryptedVault pf; JSON_Accounts := JSON_Accounts pf;
     JSON_Export := JSON_Export pf; JSON_Session := JSON_Session pf;
     TOTP_accepts := TOTP_accepts pf;
     window_process_renderer := window_process_renderer pf;
     window_Capacitor := window_Capacitor pf; electronAPI := electronAPI pf;
     safeStorage_isEncryptionAvailable := safeStorage_isEncryptionAvailable pf;
     biometric_prompt := prompt |}.

Definition with_window (renderer : bool) (capacitor : option string) (api : bool)
  (pf : Platform) : Platform :=
  {| AES_encrypt := AES_encrypt pf; AES_decrypt := AES_decrypt pf;
     HmacSHA256 := HmacSHA256 pf; CryptoJS_SHA256 := CryptoJS_SHA256 pf;
     enc_Hex_stringify := enc_Hex_stringify pf;
     enc_Base64_stringify := enc_Base64_stringify pf;
     enc_Base64_parse := enc_Base64_parse pf;
     enc_Utf8_stringify := enc_Utf8_stringify pf;
     TextEncoder_encode := TextEncoder_encode pf;
     PBKDF2_SHA256 := PBKDF2_SHA256 pf; getRandomValues := getRandomValues pf;
     btoa := btoa pf; atob := atob pf; toUpperCase := toUpperCase pf;
     Date_now := Date_now pf; Math_random_toString36 := Math_random_toString36 pf;
     JSON_EncryptedVault := JSON_EncryptedVault pf; JSON_Accounts := JSON_Accounts pf;
     JSON_Export := JSON_Export pf; JSON_Session := JSON_Session pf;
     TOTP_accepts := TOTP_accepts pf;
     window_process_renderer := renderer;
     window_Capacitor := capacitor; electronAPI := api;
     safeStorage_isEncryptionAvailable := safeStorage_isEncryptionAvailable pf;
     biometric_prompt := biometric_prompt pf |}.

(** ** A small platform

    An executable stand-in for the collaborators, on which the services can
    be run: a byte-wise masking cipher, a checksum in place of the hash
    functions, a length-prefixed text format in place of JSON, a clock that
    advances one millisecond per reading, a random generator that always
    renders as [0.i], and a desktop host whose biometric prompt succeeds. *)

Module Small.

Definition wa_of_string (s : string) : WordArray :=
  {| words := map (fun c => Z.of_N (N_of_ascii c)) (list_ascii_of_string s);
     sigBytes := Z.of_nat (String.length s) |}.

Definition string_of_wa (w : WordArray) : string :=
  string_of_list_ascii (map (fun z => ascii_of_N (Z.to_N z)) (words w)).

Definition xor_ascii (k c : ascii) : ascii :=
  match k, c with
  | Ascii k0 k1 k2 k3 k4 k5 k6 k7, Ascii c0 c1 c2 c3 c4 c5 c6 c7 =>
      Ascii (xorb k0 c0) (xorb k1 c1) (xorb k2 c2) (xorb k3 c3)
            (xorb k4 c4) (xorb k5 c5) (xorb k6 c6) (xorb k7 c7)
  end.

Fixpoint mask (k : ascii) (s : string) : string :=
  match s with
  | EmptyString => EmptyString
  | String c s' => String (xor_ascii k c) (mask k s')
  end.

Definition sum (ws : list Z) : Z := fold_right Z.add 0 ws.

Definition key_byte (key iv : WordArray) : ascii :=
  ascii_of_N (Z.to_N ((sum (words key) + sum (words iv)) mod 256)).

Definition encrypt_ (data : string) (key iv : WordArray) : WordArray :=
  wa_of_string (mask (key_byte key iv) data).

Definition decrypt_ (ciphertext key iv : WordArray) : WordArray :=
  wa_of_string (mask (key_byte key iv) (string_of_wa ciphertext)).

(** A 4-byte rolling checksum. *)
Definition digest (s : string) (seed : Z) : WordArray :=
  let h := fold_left (fun h c => (h * 31 + Z.of_N (N_of_ascii c)) mod 4294967296)
             (list_ascii_of_string s) seed in
  {| words := [h mod 256; (h / 256) mod 256; (h / 65536) mod 256; (h / 16777216) mod 256];
     sigBytes := 4 |}.

Definition hex_digit (n : Z) : ascii :=
  ascii_of_N (Z.to_N (if n <? 10 then 48 + n else 87 + n)).

Definition hex (w : WordArray) : string :=
  string_of_list_ascii
    (flat_map (fun b => [hex_digit ((b / 16) mod 16); hex_digit (b mod 16)]) (words w)).

Definition upper_ascii (c : ascii) : ascii :=
  let n := nat_of_ascii c in
  if ((97 <=? n)%nat && (n <=? 122)%nat) then ascii_of_nat (n - 32) else c.

Fixpoint upper (s : string) : string :=
  match s with
  | EmptyString => EmptyString
  | String c s' => String (upper_ascii c) (upper s')
  end.

(** The text format: each string is written as its length in unary (that
    many ["1"], then ["0"]) followed by its characters. *)

Fixpoint ones (n : nat) (rest : string) : string :=
  match n with
  | O => rest
  | S n' => String "1" (ones n' rest)
  end.

Definition put (s rest : string) : string :=
  ones (String.length s) (String "0" (s +:+ rest)).

Fixpoint split_at (n : nat) (s : string) : option (string * string) :=
  match n, s with
  | O, _ => Some (EmptyString, s)
  | S n', String c s' =>
      match split_at n' s' with
      | Some (a, b) => Some (String c a, b)
      | None => None
      end
  | S _, EmptyString => None
  end.

Fixpoint get_from (n : nat) (s : string) : option (string * string) :=
  match s with
  | String c s' =>
      if Ascii.eqb c "1" then get_from (S n) s'
      else if Ascii.eqb c "0" then split_at n s'
      else None
  | EmptyString => None
  end.

Definition get (s : string) : option (string * string) := get_from 0 s.

Definition finish {A} (x : A) (rest : string) : option A :=
  if String.eqb rest "" then Some x else None.

#[export] Instance json_vault : JSON EncryptedVault.t := {|
  JSON_stringify v :=
    put (EncryptedVault.version v) (put (EncryptedVault.salt v)
      (put (EncryptedVault.iv v) (put (EncryptedVault.data v)
        (put (EncryptedVault.hmac v) ""))));
  JSON_parse text :=
    '(a, text) ← get text; '(b, text) ← get text; '(c, text) ← get text;
    '(d, text) ← get text; '(e, text) ← get text;
    finish (EncryptedVault.mk a b c d e) text
|}.

#[export] Instance json_export : JSON ExportData.t := {|
  JSON_stringify v :=
    put (ExportData.version v) (put (ExportData.encryptedData v)
      (put (ExportData.salt v) (put (ExportData.iv v)
        (put (ExportData.hmac v) (put (ExportData.checksum v) "")))));
  JSON_parse text :=
    '(a, text) ← get text; '(b, text) ← get text; '(c, text) ← get text;
    '(d, text) ← get text; '(e, text) ← get text; '(f, text) ← get text;
    finish (ExportData.mk a b c d e f) text
|}.

#[export] Instance json_session : JSON Session.t := {|
  JSON_stringify v :=
    put (Session.encrypted v) (put (Session.salt v)
      (put (Session.iv v) (put (Session.hmac v)
        (put (Session.sessionKey v) ""))));
  JSON_parse text :=
    '(a, text) ← get text; '(b, text) ← get text; '(c, text) ← get text;
    '(d, text) ← get text; '(e, text) ← get text;
    finish (Session.mk a b c d e) text
|}.

Definition put_type (t : OTPType) : string :=
  match t with totp => "totp" | hotp => "hotp" end.

Definition get_type (s : string) : option OTPType :=
  if String.eqb s "totp" then Some totp
  else if String.eqb s "hotp" then Some hotp else None.

Definition put_algorithm (a : Algorithm) : string :=
  match a with SHA1 => "SHA1" | SHA256 => "SHA256" | SHA512 => "SHA512" end.

Definition get_algorithm (s : string) : option Algorithm :=
  if String.eqb s "SHA1" then Some SHA1
  else if String.eqb s "SHA256" then Some SHA256
  else if String.eqb s "SHA512" then Some SHA512 else None.

Definition get_Z (s : string) : option Z := Z.of_int <$> NilZero.int_of_string s.

Definition put_account (a : Account.t) (rest : string) : string :=
  put (Account.id a) (put (Account.name a) (put (Account.issuer a)
    (put (Account.secret a) (put (put_type (Account.type a))
      (put (put_algorithm (Account.algorithm a))
        (put (Z_toString (Account.digits a)) (put (Z_toString (Account.period a))
          (put (Z_toString (Account.counter a))
            (put (Z_toString (Account.createdAt a))
              (put (Z_toString (Account.updatedAt a)) rest)))))))))).

Definition get_account (text : string) : option (Account.t * string) :=
  '(id, text) ← get text; '(name, text) ← get text; '(issuer, text) ← get text;
  '(secret, text) ← get text;
  '(type, text) ← get text; type ← get_type type;
  '(algorithm, text) ← get text; algorithm ← get_algorithm algorithm;
  '(digits, text) ← get text; digits ← get_Z digits;
  '(period, text) ← get text; period ← get_Z period;
  '(counter, text) ← get text; counter ← get_Z counter;
  '(createdAt, text) ← get text; createdAt ← get_Z createdAt;
  '(updatedAt, text) ← get text; updatedAt ← get_Z updatedAt;
  Some (Account.mk id name issuer secret type algorithm digits period counter
          createdAt updatedAt, text).

Fixpoint get_accounts (fuel : nat) (text : string) : option (list Account.t) :=
  if String.eqb text "]" then Some []
  else
    match fuel with
    | O => None
    | S fuel' =>
        '(a, text) ← get_account text;
        rest ← get_accounts fuel' text;
        Some (a :: rest)
    end.

#[export] Instance json_accounts : JSON (list Account.t) := {|
  JSON_stringify l := String "[" (fold_right put_account "]" l);
  JSON_parse text :=
    match text with
    | String c text' =>
        if Ascii.eqb c "[" then get_accounts (String.length text') text' else None
    | EmptyString => None
    end
|}.

Definition platform : Platform := {|
  AES_encrypt := encrypt_;
  AES_decrypt := decrypt_;
  HmacSHA256 message key := digest message (sum (words key));
  CryptoJS_SHA256 message := digest message 7;
  enc_Hex_stringify := hex;
  enc_Base64_stringify := string_of_wa;
  enc_Base64_parse := wa_of_string;
  enc_Utf8_stringify w := Some (string_of_wa w);
  TextEncoder_encode s := map byte_of_ascii (list_ascii_of_string s);
  PBKDF2_SHA256 password salt _ _ := (password ++ salt)%list;
  getRandomValues t n := repeat (byte_of_ascii (ascii_of_nat t)) n;
  btoa s := s;
  atob s := Some s;
  toUpperCase := upper;
  Date_now t := 1700000000000 + Z.of_nat t;
  Math_random_toString36 _ := "0.i";
  JSON_EncryptedVault := json_vault;
  JSON_Accounts := json_accounts;
  JSON_Export := json_export;
  JSON_Session := json_session;
  TOTP_accepts _ := true;
  window_process_renderer := true;
  window_Capacitor := None;
  electronAPI := true;
  safeStorage_isEncryptionAvailable := true;
  biometric_prompt _ _ := true
|}.

(** The same platform within one millisecond, with two random draws that
    agree in their first nine base-36 digits. *)
Definition one_millisecond : Platform :=
  with_oracles (fun _ => 1700000000000)
    (fun t => if (t <? 6)%nat then "0.4fzyo82mvyr" else "0.4fzyo82mvzz")
    platform.

(** The same platform with a biometric prompt that always refuses. *)
Definition refusing : Platform := with_biometric_prompt (fun _ _ => false) platform.

(** The world of a fresh installation. *)
Definition fresh : World := {|
  masterPassword := None;
  accounts := 0;
  isUnlocked := false;
  heap := {[ 0%nat := [] ]};
  localStorage := ∅;
  secureStorage := ∅;
  tick := 0
|}.

(** The sample account of the specification's example scenario (its secret
    is the placeholder of the manual-entry form). *)
Definition github : AccountData.t := {|
  AccountData.name := "alice@example.com";
  AccountData.issuer := "GitHub";
  AccountData.secret := "JBSWY3DPEHPK3PXP";
  AccountData.type := totp;
  AccountData.algorithm := SHA1;
  AccountData.digits := 6;
  AccountData.period := 30;
  AccountData.counter := 0
|}.

(** The vault of the example scenario: created, then one account added. *)
Definition created : World :=
  Eval vm_compute in snd (createVault platform "correct-horse-battery" fresh).

Definition with_github : World :=
  Eval vm_compute in snd (addAccount platform github created).

Definition locked : World := Eval vm_compute in snd (lockVault with_github).

(** The record [locked] keeps in storage. *)
Definition record : string :=
  Eval vm_compute in
  match fst (getItem platform VAULT_KEY locked) with
  | Return (Some vaultData) => vaultData
  | _ => ""
  end.

(** The same account, its secret typed in lower case and in groups. *)
Definition github_as_typed : AccountData.t := {|
  AccountData.name := "alice@example.com";
  AccountData.issuer := "GitHub";
  AccountData.secret := "jbsw y3dp ehpk 3pxp";
  AccountData.type := totp;
  AccountData.algorithm := SHA1;
  AccountData.digits := 6;
  AccountData.period := 30;
  AccountData.counter := 0
|}.

(** A second device: a vault with three accounts, exported under a
    transfer password. *)
Definition gitlab : AccountData.t := {|
  AccountData.name := "alice@example.com";
  AccountData.issuer := "GitLab";
  AccountData.secret := "GEZDGNBVGY3TQOJQ";
  AccountData.type := totp;
  AccountData.algorithm := SHA256;
  AccountData.digits := 6;
  AccountData.period := 30;
  AccountData.counter := 0
|}.

Definition bank : AccountData.t := {|
  AccountData.name := "alice";
  AccountData.issuer := "Bank";
  AccountData.secret := "MFRGGZDFMZTWQ2LK";
  AccountData.type := hotp;
  AccountData.algorithm := SHA1;
  AccountData.digits := 8;
  AccountData.period := 30;
  AccountData.counter := 4
|}.

Definition other_device : World :=
  Eval vm_compute in
  snd (addAccount platform bank
         (snd (addAccount platform gitlab
                 (snd (addAccount platform github
                         (snd (createVault platform "another-password" fresh))))))).

Definition payload : string :=
  Eval vm_compute in
  match fst (exportVault platform (Some "transfer") other_device) with
  | Return exported => exported
  | Throw _ => ""
  end.


(** What the payload holds. *)
Definition payload_data : ExportData.t :=
  Eval vm_compute in
  default (ExportData.mk "" "" "" "" "" "") (JSON_parse payload).

Definition payload_text : string :=
  Eval vm_compute in
  match decrypt platform (ExportData.encryptedData payload_data) "transfer"
          (ExportData.salt payload_data) (ExportData.iv payload_data)
          (ExportData.hmac payload_data) with
  | Return text => text
  | Throw _ => ""
  end.

Definition payload_accounts : list Account.t :=
  Eval vm_compute in default [] (JSON_parse payload_text).


(** The first device, a little later. *)
Definition later : World :=
  Eval vm_compute in snd (exportVault platform None with_github).

End Small.

(** ** Vocabulary of the statements *)

(** The runtime state of the vault: the in-memory account list, the stored
    master password and the unlocked flag. *)
Definition runtime (w : World) : list Account.t * option string * bool :=
  (accounts_of w, masterPassword w, isUnlocked w).

(** What [getItem] reads in a world. *)
Definition stored (pf : Platform) (w : World) (key : string) : option string :=
  match fst (getItem pf key w) with
  | Return value => value
  | Throw _ => None
  end.

(** The world a computation leaves behind. *)
Definition after {A} (m : M A) (w : World) : World := snd (m w).



(** The envelope [encrypt] builds from a salt and an IV. *)
Definition envelope (pf : Platform) (data password : string)
  (saltBytes ivBytes : Uint8Array) : Encrypted.t :=
  let key := WordArray_create (Array_from (deriveKey pf password saltBytes)) in
  let ciphertext := AES_encrypt pf data key (WordArray_create (Array_from ivBytes)) in
  {| Encrypted.encrypted := enc_Base64_stringify pf ciphertext;
     Encrypted.salt := arrayBufferToBase64 pf saltBytes;
     Encrypted.iv := arrayBufferToBase64 pf ivBytes;
     Encrypted.hmac :=
       enc_Hex_stringify pf (HmacSHA256 pf (enc_Hex_stringify pf ciphertext) key) |}.

(** The session record [enable] stores for an envelope. *)
Definition session_of (e : Encrypted.t) (sessionKey : string) : Session.t :=
  {| Session.encrypted := Encrypted.encrypted e;
     Session.salt := Encrypted.salt e;
     Session.iv := Encrypted.iv e;
     Session.hmac := Encrypted.hmac e;
     Session.sessionKey := sessionKey |}.

(** The object [exportVault] serializes for an envelope and a checksum. *)
Definition export_of (e : Encrypted.t) (checksum : string) : ExportData.t :=
  {| ExportData.version := VAULT_VERSION;
     ExportData.encryptedData := Encrypted.encrypted e;
     ExportData.salt := Encrypted.salt e;
     ExportData.iv := Encrypted.iv e;
     ExportData.hmac := Encrypted.hmac e;
     ExportData.checksum := checksum |}.

(** A desktop host whose biometric prompt never refuses. *)
Definition challenge_always_succeeds (pf : Platform) : Prop :=
  window_process_renderer pf = true
  /\ electronAPI pf = true
  /\ forall t reason, biometric_prompt pf t reason = true.

(** [decrypt] applied to what [encrypt] returned. *)
Definition decrypt_envelope (pf : Platform) (e : Encrypted.t) (password : string)
  : outcome string :=
  decrypt pf (Encrypted.encrypted e) password (Encrypted.salt e) (Encrypted.iv e)
    (Encrypted.hmac e).

(** The id [generateId] returns when the next draw is number [t]. *)
Definition id_at (pf : Platform) (t : nat) : string :=
  Z_toString (Date_now pf t) +:+ "-"
  +:+ JS_substring 2 11 (Math_random_toString36 pf (S t)).

(** The account [addAccount] builds when the next draw is number [t]. *)
Definition admitted (pf : Platform) (t : nat) (account : AccountData.t) : Account.t :=
  {| Account.id := id_at pf t;
     Account.name := AccountData.name account;
     Account.issuer := AccountData.issuer account;
     Account.secret := AccountData.secret account;
     Account.type := AccountData.type account;
     Account.algorithm := AccountData.algorithm account;
     Account.digits := AccountData.digits account;
     Account.period := AccountData.period account;
     Account.counter := AccountData.counter account;
     Account.createdAt := Date_now pf (S (S t));
     Account.updatedAt := Date_now pf (S (S (S t))) |}.

(** The fields [importVault] passes on from an imported account. *)
Definition data_of (account : Account.t) : AccountData.t :=
  {| AccountData.name := Account.name account;
     AccountData.issuer := Account.issuer account;
     AccountData.secret := Account.secret account;
     AccountData.type := Account.type account;
     AccountData.algorithm := Account.algorithm account;
     AccountData.digits := Account.digits account;
     AccountData.period := Account.period account;
     AccountData.counter := Account.counter account |}.

(** The accounts an import adds, in the words of the specification: an
    incoming account is skipped when some account existing in the vault at
    that point has the same issuer and the same name; every other incoming
    account is added as [addAccount] builds it, with the id and timestamps
    drawn locally.  [existing] is the list in memory, [t] the number of the
    next draw; one [addAccount] with its save makes six draws. *)
Fixpoint import_plan (pf : Platform) (existing incoming : list Account.t) (t : nat)
  : list Account.t :=
  match incoming with
  | [] => []
  | account :: rest =>
      if existsb (same_issuer_and_name account) existing
      then import_plan pf existing rest t
      else
        let newAccount := admitted pf t (data_of account) in
        newAccount :: import_plan pf (existing ++ [newAccount])%list rest (6 + t)
  end.

(** The operations that add accounts, and a sequence of them issued by a
    caller who carries on after a failure. *)
Inductive operation :=
| Add (account : AccountData.t)
| Import (exportedData transferPassword : string).

Definition perform (pf : Platform) (op : operation) : M unit :=
  match op with
  | Add account => addAccount pf account;; ret tt
  | Import exportedData transferPassword =>
      importVault pf exportedData transferPassword;; ret tt
  end.

Definition perform_all (pf : Platform) (ops : list operation) (w : World) : World :=
  fold_left (fun w op => after (perform pf op) w) ops w.

(** The ids of the accounts in memory. *)
Definition ids (w : World) : list string := map Account.id (accounts_of w).

(** The ids in memory are distinct, and each was there in [w0] or was drawn
    since. *)
Definition ids_drawn (pf : Platform) (w0 w : World) : Prop :=
  NoDup (ids w)
  /\ (tick w0 <= tick w)%nat
  /\ forall i, i ∈ ids w ->
       i ∈ ids w0
       \/ exists t, (tick w0 <= t)%nat /\ (t < tick w)%nat /\ i = id_at pf t.

(** What [unlockVault] decrypts from the stored record. *)
Definition decrypted_vault (pf : Platform) (vaultData password : string)
  : outcome string :=
  let+ vault :=
    or_throw SyntaxError (JSON_parse (JSON := JSON_EncryptedVault pf) vaultData) in
  decrypt pf (EncryptedVault.data vault) password (EncryptedVault.salt vault)
    (EncryptedVault.iv vault) (EncryptedVault.hmac vault).

(** [decrypt(encrypt(data, password), password)]. *)
Definition round_trip (pf : Platform) (data password : string)
  (salt iv : option Uint8Array) (w : World) : outcome string :=
  match encrypt pf data password salt iv w with
  | (Return e, _) => decrypt_envelope pf e password
  | (Throw x, _) => Throw x
  end.

(** The Electron IPC store is the one in use. *)
Definition uses_ipc (pf : Platform) : bool :=
  negb (isCapacitor (getPlatformInfo pf))
  && isElectron (getPlatformInfo pf) && electronAPI pf.

(** Two worlds with the same key-value stores. *)
Definition same_stores (w w' : World) : Prop :=
  localStorage w' = localStorage w /\ secureStorage w' = secureStorage w.

(** The stored vault record decrypts under [password] to the text of
    [accounts]. *)
Definition persisted (pf : Platform) (w : World) (password : string)
  (accounts : list Account.t) : Prop :=
  exists vault : EncryptedVault.t,
    stored pf w VAULT_KEY
    = Some (JSON_stringify (JSON := JSON_EncryptedVault pf) vault)
    /\ decrypt pf (EncryptedVault.data vault) password (EncryptedVault.salt vault)
         (EncryptedVault.iv vault) (EncryptedVault.hmac vault)
       = Return (JSON_stringify (JSON := JSON_Accounts pf) accounts).

(** The vault is unlocked under a non-empty password, and the stored record
    decrypts under it to the accounts in memory. *)
Definition saved (pf : Platform) (w : World) : Prop :=
  exists password,
    masterPassword w = Some password /\ password <> "" /\ isUnlocked w = true
    /\ persisted pf w password (accounts_of w).

(** [account] is the first account of [accounts] with the id [id]. *)
Definition first_with_id (id : string) (accounts before : list Account.t)
  (account : Account.t) (rest : list Account.t) : Prop :=
  accounts = (before ++ account :: rest)%list
  /\ Account.id account = id
  /\ Forall (fun acc => Account.id acc <> id) before.

(** Two worlds with the same vault state in memory. *)
Definition same_memory (w w' : World) : Prop :=
  masterPassword w' = masterPassword w /\ accounts w' = accounts w
  /\ isUnlocked w' = isUnlocked w /\ heap w' = heap w.

(** The host offers no biometric prompt: it is not Electron, or the preload
    bridge is missing. *)
Definition no_biometric_prompt (pf : Platform) : Prop :=
  isElectron (getPlatformInfo pf) && electronAPI pf = false.

(** The sign-in screen goes on to the application (directly, or through
    the offer to enable biometric unlock). *)
Definition proceeds (outcome : AuthOutcome) : bool :=
  match outcome with
  | ShowError _ => false
  | OfferBiometric _ | OnUnlock => true
  end.

(** One or more Base32 characters, then only [=]. *)
Definition base32_shape (s : string) : Prop :=
  exists body padding,
    s = body +:+ padding
    /\ body <> ""
    /\ Forall (fun c => is_base32_char c = true) (list_ascii_of_string body)
    /\ Forall (fun c => c = "="%char) (list_ascii_of_string padding).

(** The operations that write the vault record. *)
Inductive mutation :=
| CreateVault (password : string)
| AddAccount (account : AccountData.t)
| UpdateAccount (id : string) (updates : Partial.t)
| DeleteAccount (id : string)
| ChangeMasterPassword (currentPassword newPassword : string).

Definition mutate (pf : Platform) (m : mutation) : M unit :=
  match m with
  | CreateVault password => createVault pf password
  | AddAccount account => addAccount pf account;; ret tt
  | UpdateAccount id updates => updateAccount pf id updates
  | DeleteAccount id => deleteAccount pf id
  | ChangeMasterPassword currentPassword newPassword =>
      let* changed := changeMasterPassword pf currentPassword newPassword in
      if changed then ret tt else throw (Error "Incorrect password")
  end.

(** ** Sample values on the small platform *)

Module Sample.

(** The three accounts of [Small.other_device], in vault order. *)
Definition github_account : Account.t :=
  Eval vm_compute in
  default (admitted Small.platform 0 Small.github)
    (accounts_of Small.other_device !! 0%nat).

Definition gitlab_account : Account.t :=
  Eval vm_compute in
  default (admitted Small.platform 0 Small.gitlab)
    (accounts_of Small.other_device !! 1%nat).

Definition bank_account : Account.t :=
  Eval vm_compute in
  default (admitted Small.platform 0 Small.bank)
    (accounts_of Small.other_device !! 2%nat).

(** [{ name: 'bob@example.com' }]. *)
Definition rename : Partial.t :=
  {| Partial.id := None; Partial.name := Some "bob@example.com";
     Partial.issuer := None; Partial.secret := None; Partial.type := None;
     Partial.algorithm := None; Partial.digits := None; Partial.period := None;
     Partial.counter := None; Partial.createdAt := None;
     Partial.updatedAt := Some 0 |}.

(** The small platform in a browser, and in a Capacitor shell. *)
Definition browser : Platform := with_window false None false Small.platform.

Definition phone : Platform := with_window false (Some "android") false Small.platform.

(** A browser in which the vault of [Small.locked] is stored. *)
Definition in_browser : World :=
  Eval vm_compute in
  snd (lockVault
         (snd (addAccount browser Small.github
                 (snd (createVault browser "correct-horse-battery" Small.fresh))))).

(** The desktop vault of [Small.with_github] once biometric unlock has been
    enabled from the settings screen, and after a restart. *)
Definition enabled : World :=
  Eval vm_compute in snd (Settings_handleEnableBiometric Small.platform Small.with_github).

Definition restarted : World :=
  Eval vm_compute in
  {| masterPassword := None; accounts := 0; isUnlocked := false;
     heap := {[ 0%nat := [] ]};
     localStorage := localStorage enabled;
     secureStorage := secureStorage enabled;
     tick := 0 |}.

(** The vault of [Small.with_github] after the payload of the second
    device has been imported. *)
Definition merged : World :=
  Eval vm_compute in
  snd (importVault Small.platform Small.payload "transfer" Small.with_github).

(** The second device once it has exported its vault. *)
Definition exported : World :=
  Eval vm_compute in
  snd (exportVault Small.platform (Some "transfer") Small.other_device).

(** Lower case, for the letters A to Z. *)
Definition lower_ascii (c : ascii) : ascii :=
  let n := nat_of_ascii c in
  if ((65 <=? n)%nat && (n <=? 90)%nat) then ascii_of_nat (n + 32) else c.

Fixpoint lower (s : string) : string :=
  match s with
  | EmptyString => EmptyString
  | String c s' => String (lower_ascii c) (lower s')
  end.

End Sample.

(** * Properties *)

Ltac split_conj := repeat match goal with |- _ /\ _ => split end.

Ltac heap_simpl :=
  repeat first
    [ rewrite lookup_insert_eq
    | rewrite lookup_insert_ne by (assumption || congruence)
    | progress (unfold accounts_of, array_at; simpl) ].

(** ** Strings and byte arrays *)

Lemma append_nil (b : string) : "" +:+ b = b.
Proof. reflexivity. Qed.

Lemma append_cons (x : ascii) (a b : string) : String x a +:+ b = String x (a +:+ b).
Proof. reflexivity. Qed.

Lemma append_assoc (a b c : string) : (a +:+ b) +:+ c = a +:+ (b +:+ c).
Proof.
  induction a as [|x a IH]; [reflexivity|].
  rewrite !append_cons. f_equal. exact IH.
Qed.

Lemma append_empty_r (a : string) : a +:+ "" = a.
Proof.
  induction a as [|x a IH]; [reflexivity|].
  rewrite append_cons. f_equal. exact IH.
Qed.

Lemma falsy_false (s : string) : falsy s = false <-> s <> "".
Proof. apply String.eqb_neq. Qed.

Lemma binary_string_loop (buffer : Uint8Array) (acc : string) :
  fold_left (fun binary b => binary +:+ String (ascii_of_byte b) "") buffer acc
  = acc +:+ string_of_list_ascii (map ascii_of_byte buffer).
Proof.
  revert acc. induction buffer as [|b buffer IH]; intros acc; simpl.
  - now rewrite append_empty_r.
  - rewrite IH, append_assoc. reflexivity.
Qed.

Lemma base64_of_buffer (pf : Platform) (buffer : Uint8Array) :
  (forall binary, atob pf (btoa pf binary) = Some binary) ->
  base64ToUint8Array pf (arrayBufferToBase64 pf buffer) = Return buffer.
Proof.
  intros Hatob. unfold base64ToUint8Array, arrayBufferToBase64.
  rewrite binary_string_loop, append_nil, Hatob. simpl.
  rewrite list_ascii_of_string_of_list_ascii, map_map.
  f_equal. induction buffer as [|b buffer IH]; simpl; [reflexivity|].
  now rewrite byte_of_ascii_of_byte, IH.
Qed.

(** ** EncryptionService *)

(** [encrypt] never throws; it draws the salt and the IV it was not given. *)
Lemma encrypt_returns (pf : Platform) data password salt iv w :
  exists saltBytes ivBytes w',
    encrypt pf data password salt iv w
    = (Return (envelope pf data password saltBytes ivBytes), w')
    /\ masterPassword w' = masterPassword w /\ accounts w' = accounts w
    /\ isUnlocked w' = isUnlocked w /\ heap w' = heap w
    /\ localStorage w' = localStorage w /\ secureStorage w' = secureStorage w
    /\ (tick w <= tick w')%nat.
Proof.
  unfold encrypt, generateSalt, generateIV, bind, ret, draw.
  destruct salt as [s|], iv as [i|]; simpl;
    eexists _, _, _; (split; [reflexivity|]); simpl;
    repeat split; lia.
Qed.

(** What [decrypt] does with an envelope made by [encrypt]. *)
Lemma decrypt_encrypted (pf : Platform) (HL : Laws pf) data password saltBytes ivBytes :
  decrypt_envelope pf (envelope pf data password saltBytes ivBytes) password
  = if falsy data then Throw decryption_error else Return data.
Proof.
  unfold decrypt_envelope, envelope, decrypt. simpl.
  rewrite !(base64_of_buffer pf _ (law_atob_btoa HL)). simpl.
  rewrite !(law_Base64 HL), String.eqb_refl. simpl.
  rewrite (law_AES HL). reflexivity.
Qed.

(** ** The small platform obeys the laws *)

Lemma small_xor_ascii_involutive (k c : ascii) :
  Small.xor_ascii k (Small.xor_ascii k c) = c.
Proof.
  destruct k as [k0 k1 k2 k3 k4 k5 k6 k7], c as [c0 c1 c2 c3 c4 c5 c6 c7].
  simpl. now rewrite <- !xorb_assoc, !xorb_nilpotent, !xorb_false_l.
Qed.

Lemma small_mask_involutive (k : ascii) (s : string) :
  Small.mask k (Small.mask k s) = s.
Proof.
  induction s as [|c s IH]; simpl; [reflexivity|].
  now rewrite small_xor_ascii_involutive, IH.
Qed.

Lemma small_string_of_wa_of_string (s : string) :
  Small.string_of_wa (Small.wa_of_string s) = s.
Proof.
  unfold Small.string_of_wa, Small.wa_of_string. simpl.
  rewrite map_map. rewrite <- (string_of_list_ascii_of_string s) at 2.
  f_equal. induction (list_ascii_of_string s) as [|c l IH]; simpl; [reflexivity|].
  now rewrite N2Z.id, ascii_N_embedding, IH.
Qed.

Lemma small_split_at_append (s rest : string) :
  Small.split_at (String.length s) (s +:+ rest) = Some (s, rest).
Proof.
  induction s as [|c s IH]; [reflexivity|].
  rewrite append_cons. simpl. now rewrite IH.
Qed.

Lemma small_get_from_ones (m n : nat) (rest : string) :
  Small.get_from n (Small.ones m (String "0" rest)) = Small.split_at (n + m) rest.
Proof.
  revert n. induction m as [|m IH]; intros n; simpl.
  - now rewrite Nat.add_0_r.
  - rewrite IH. f_equal. lia.
Qed.

Lemma small_get_put (s rest : string) : Small.get (Small.put s rest) = Some (s, rest).
Proof.
  unfold Small.get, Small.put. rewrite small_get_from_ones. simpl.
  apply small_split_at_append.
Qed.

Lemma small_put_not_empty (s rest : string) : Small.put s rest <> "".
Proof. unfold Small.put. destruct s; simpl; discriminate. Qed.

Lemma small_laws : Laws Small.platform.
Proof.
  split.
  - intros data key iv. simpl. unfold Small.decrypt_, Small.encrypt_.
    now rewrite !small_string_of_wa_of_string, small_mask_involutive.
  - intros data key iv. simpl. unfold Small.encrypt_.
    now rewrite small_string_of_wa_of_string.
  - reflexivity.
  - intros [a b c d e f]. simpl.
    repeat (rewrite small_get_put; simpl). reflexivity.
  - intros [a b c d e]. simpl.
    repeat (rewrite small_get_put; simpl). reflexivity.
  - intros x. apply small_put_not_empty.
  - intros x. discriminate.
Qed.

(** The laws do not mention the biometric prompt. *)
Lemma laws_with_biometric_prompt (pf : Platform) (prompt : nat -> string -> bool) :
  Laws pf -> Laws (with_biometric_prompt prompt pf).
Proof. intros [? ? ? ? ? ? ?]. split; assumption. Qed.

(** ** The envelope *)

Lemma round_trip_spec (pf : Platform) (HL : Laws pf) data password salt iv w :
  round_trip pf data password salt iv w
  = if falsy data then Throw decryption_error else Return data.
Proof.
  unfold round_trip.
  destruct (encrypt_returns pf data password salt iv w)
    as (saltBytes & ivBytes & w' & -> & _).
  apply (decrypt_encrypted HL).
Qed.

(** C1, as amended: for every non-empty plaintext [P] and every password
    [W], decrypting the envelope produced by [encrypt(P, W)] with [W] returns
    exactly [P], whether the salt and IV are supplied or drawn; the empty
    plaintext does not round-trip, because [decrypt] rejects an empty result
    with its decryption error. *)
Theorem C1_round_trip (pf : Platform) (HL : Laws pf) (P W : string)
  (salt iv : option Uint8Array) (w : World) :
  (P <> "" -> round_trip pf P W salt iv w = Return P)
  /\ (P = "" -> round_trip pf P W salt iv w = Throw decryption_error).
Proof.
  rewrite (round_trip_spec HL). split.
  - intros HP. apply falsy_false in HP. now rewrite HP.
  - intros ->. reflexivity.
Qed.

Lemma C1_round_trip_witness :
  round_trip Small.platform "JBSWY3DPEHPK3PXP" "correct-horse-battery" None None
    Small.fresh = Return "JBSWY3DPEHPK3PXP".
Proof.
  apply (C1_round_trip small_laws "JBSWY3DPEHPK3PXP" "correct-horse-battery"
           None None Small.fresh).
  discriminate.
Defined.

(** C1, as stated, fails at the empty plaintext. *)
Lemma C1_empty_plaintext :
  round_trip Small.platform "" "correct-horse-battery" None None Small.fresh
  <> Return "".
Proof. vm_compute. discriminate. Qed.




(** ** Running computations *)

Lemma after_bind {A B} (m : M A) (k : A -> M B) (w : World) :
  after (bind m k) w
  = match m w with
    | (Return a, w') => after (k a) w'
    | (Throw _, w') => w'
    end.
Proof. unfold after, bind. destruct (m w) as [[a|e] w']; reflexivity. Qed.

Lemma bind_returns {A B} (m : M A) (k : A -> M B) (w w' : World) (a : A) :
  m w = (Return a, w') -> bind m k w = k a w'.
Proof. unfold bind. now intros ->. Qed.

Lemma bind_bind {A B C} (m : M A) (f : A -> M B) (g : B -> M C) (w : World) :
  bind (bind m f) g w = bind m (fun x => bind (f x) g) w.
Proof. unfold bind. now destruct (m w) as [[a|e] w']. Qed.

Lemma bind_ret {A B} (a : A) (k : A -> M B) (w : World) : bind (ret a) k w = k a w.
Proof. reflexivity. Qed.

Lemma bind_lift {A B} (o : outcome A) (k : A -> M B) (w : World) :
  bind (lift o) k w
  = match o with
    | Return a => k a w
    | Throw e => (Throw e, w)
    end.
Proof. unfold bind, lift. now destruct o. Qed.

(** ** StorageService *)

Lemma full_key_inj (key key' : string) :
  STORAGE_PREFIX +:+ key = STORAGE_PREFIX +:+ key' -> key = key'.
Proof. apply (inj (String.app STORAGE_PREFIX)). Qed.

Lemma getItem_spec (pf : Platform) (key : string) (w : World) :
  getItem pf key w = (Return (stored pf w key), w).
Proof.
  unfold stored, getItem, localStorage_getItem, ipc_storage_get, gets.
  destruct (isCapacitor (getPlatformInfo pf)), (isElectron (getPlatformInfo pf)),
    (electronAPI pf); reflexivity.
Qed.

Lemma setItem_spec (pf : Platform) (key value : string) (w : World) :
  exists w',
    setItem pf key value w = (Return tt, w')
    /\ masterPassword w' = masterPassword w /\ accounts w' = accounts w
    /\ isUnlocked w' = isUnlocked w /\ heap w' = heap w /\ tick w' = tick w
    /\ (value <> "" -> stored pf w' key = Some value)
    /\ (forall key', key' <> key -> stored pf w' key' = stored pf w key').
Proof.
  unfold stored, getItem, setItem, localStorage_getItem, localStorage_setItem,
    ipc_storage_get, ipc_storage_set, gets, modify.
  destruct (isCapacitor (getPlatformInfo pf)), (isElectron (getPlatformInfo pf)),
    (electronAPI pf); eexists; (split; [reflexivity|]); simpl;
    repeat (split; [reflexivity|]); (split; [intros Hv | intros key' Hk]);
    rewrite ?lookup_insert_eq, ?(proj2 (falsy_false value)) by assumption;
    try (destruct (safeStorage_isEncryptionAvailable pf); reflexivity);
    try reflexivity;
    rewrite lookup_insert_ne by (intros E; apply full_key_inj in E; congruence);
    reflexivity.
Qed.

Lemma removeItem_spec (pf : Platform) (key : string) (w : World) :
  exists w',
    removeItem pf key w = (Return tt, w')
    /\ masterPassword w' = masterPassword w /\ accounts w' = accounts w
    /\ isUnlocked w' = isUnlocked w /\ heap w' = heap w /\ tick w' = tick w
    /\ stored pf w' key = None
    /\ (forall key', key' <> key -> stored pf w' key' = stored pf w key').
Proof.
  unfold stored, getItem, removeItem, localStorage_getItem, localStorage_removeItem,
    ipc_storage_get, ipc_storage_remove, gets, modify.
  destruct (isCapacitor (getPlatformInfo pf)), (isElectron (getPlatformInfo pf)),
    (electronAPI pf); eexists; (split; [reflexivity|]); simpl;
    repeat (split; [reflexivity|]); (split; [| intros key' Hk]);
    rewrite ?lookup_delete_eq; try reflexivity;
    rewrite lookup_delete_ne by (intros E; apply full_key_inj in E; congruence);
    reflexivity.
Qed.

(** ** Arrays *)

Lemma fresh_location_unused (w : World) : heap w !! fresh (dom (heap w)) = None.
Proof. apply not_elem_of_dom, is_fresh. Qed.

Lemma fresh_location_differs (w : World) (r : nat) :
  is_Some (heap w !! r) -> fresh (dom (heap w)) <> r.
Proof.
  intros Hr E. apply elem_of_dom in Hr. rewrite <- E in Hr.
  exact (is_fresh _ Hr).
Qed.

(** ** Locking *)

(** C9, as amended: from any starting state [lockVault] returns normally
    and leaves the in-memory account list empty and the unlocked flag false;
    the stored master password is cleared (absent) unless it was the empty
    string, which the guard [if (this.masterPassword)] leaves in place; a
    second [lockVault] changes nothing of the runtime state, and storage is
    never touched. *)
Theorem C9_lockVault_locks (w : World) :
  fst (lockVault w) = Return tt
  /\ accounts_of (after lockVault w) = []
  /\ isUnlocked (after lockVault w) = false
  /\ masterPassword (after lockVault w)
     = match masterPassword w with
       | Some password => if falsy password then Some password else None
       | None => None
       end
  /\ runtime (after lockVault (after lockVault w)) = runtime (after lockVault w)
  /\ localStorage (after lockVault w) = localStorage w
  /\ secureStorage (after lockVault w) = secureStorage w.
Proof.
  assert (Hlock : forall w0,
    fst (lockVault w0) = Return tt
    /\ accounts_of (after lockVault w0) = []
    /\ isUnlocked (after lockVault w0) = false
    /\ masterPassword (after lockVault w0)
       = match masterPassword w0 with
         | Some password => if falsy password then Some password else None
         | None => None
         end
    /\ localStorage (after lockVault w0) = localStorage w0
    /\ secureStorage (after lockVault w0) = secureStorage w0).
  { intros w0.
    unfold after, lockVault, bind, new_array, modify, gets, wipeString, ret,
      accounts_of, array_at.
    simpl. destruct (masterPassword w0) as [password|] eqn:E; simpl.
    - destruct (falsy password) eqn:F; simpl; rewrite ?lookup_insert_eq;
        repeat split; try reflexivity; assumption.
    - rewrite lookup_insert_eq. repeat split; try reflexivity; assumption. }
  destruct (Hlock w) as (H1 & H2 & H3 & H4 & H5 & H6).
  destruct (Hlock (after lockVault w)) as (_ & H2' & H3' & H4' & _).
  repeat split; try assumption.
  unfold runtime. rewrite H2, H2', H3, H3', H4'. f_equal. f_equal.
  rewrite H4. destruct (masterPassword w) as [password|]; [|reflexivity].
  destruct (falsy password) eqn:F; [|reflexivity]. now rewrite F.
Qed.

(** C9, as stated, fails from the state [createVault("")] leaves behind:
    the vault is unlocked with the empty master password, and after
    [lockVault] the stored password is still the empty string, not absent. *)
Lemma C9_empty_password_survives :
  masterPassword (after lockVault (after (createVault Small.platform "") Small.fresh))
  <> None.
Proof. vm_compute. discriminate. Qed.

(** ** Reading the accounts *)

(** C10: when the vault is unlocked, [getAccounts] returns a new array with
    the contents of the in-memory account list; whatever is then done to the
    returned array (adding, removing or reordering elements, that is, any
    change of its contents) leaves the vault's own list as it was, and a
    later [getAccounts] returns the same contents again. *)
Theorem C10_getAccounts_returns_a_copy (w : World) :
  isUnlocked w = true ->
  is_Some (heap w !! accounts w) ->
  exists r w1,
    getAccounts w = (Return r, w1)
    /\ heap w !! r = None
    /\ r <> accounts w1
    /\ array_at w1 r = accounts_of w
    /\ accounts_of w1 = accounts_of w
    /\ forall mutate : list Account.t -> list Account.t,
         let w2 := after (update_array r mutate) w1 in
         array_at w2 r = mutate (accounts_of w)
         /\ accounts_of w2 = accounts_of w
         /\ exists r' w3,
              getAccounts w2 = (Return r', w3)
              /\ array_at w3 r' = accounts_of w.
Proof.
  intros Hunlocked Hwf.
  pose proof (fresh_location_unused w) as Hnone.
  pose proof (fresh_location_differs w Hwf) as Hne.
  exists (fresh (dom (heap w))). eexists. split.
  { unfold getAccounts, bind, gets, new_array. rewrite Hunlocked. reflexivity. }
  unfold after, update_array, modify. simpl.
  repeat split; try assumption; heap_simpl; try reflexivity.
  eexists _, _. split.
  - unfold getAccounts, bind, gets, new_array. simpl. rewrite Hunlocked.
    reflexivity.
  - now heap_simpl.
Qed.

Lemma C10_getAccounts_returns_a_copy_witness :
  exists r w1,
    getAccounts Small.with_github = (Return r, w1)
    /\ accounts_of (after (update_array r (@rev Account.t)) w1)
       = accounts_of Small.with_github.
Proof.
  destruct (C10_getAccounts_returns_a_copy Small.with_github)
    as (r & w1 & Hget & _ & _ & _ & _ & Hmut).
  - vm_compute. reflexivity.
  - vm_compute. eexists. reflexivity.
  - exists r, w1. split; [exact Hget | apply Hmut].
Defined.

(** ** Saving and adding *)

Lemma saveVault_spec (pf : Platform) (w : World) :
  exists r w',
    saveVault pf w = (r, w')
    /\ masterPassword w' = masterPassword w /\ accounts w' = accounts w
    /\ isUnlocked w' = isUnlocked w /\ heap w' = heap w
    /\ (tick w <= tick w')%nat
    /\ (r = Return tt \/ r = Throw vault_is_locked)
    /\ (forall password,
          isUnlocked w = true -> masterPassword w = Some password ->
          password <> "" -> r = Return tt /\ tick w' = S (S (tick w))).
Proof.
  unfold saveVault, bind, gets, throw.
  destruct (masterPassword w) as [password|] eqn:Hpw; simpl.
  2:{ eexists _, _. split; [reflexivity|].
      repeat split; auto; intros; discriminate. }
  destruct (isUnlocked w) eqn:Hun; simpl.
  2:{ eexists _, _. split; [reflexivity|].
      repeat split; auto; intros; discriminate. }
  destruct (falsy password) eqn:Hf; simpl.
  { eexists _, _. split; [reflexivity|]. repeat split; auto.
    all: match goal with
         | H : Some _ = Some _, Hp : _ <> "" |- _ =>
             injection H as <-; apply falsy_false in Hp; congruence
         end. }
  match goal with
  | |- context [setItem pf ?k ?v ?w1] =>
      destruct (setItem_spec pf k v w1)
        as (w2 & -> & F1 & F2 & F3 & F4 & F5 & _)
  end.
  eexists _, _. split; [reflexivity|].
  rewrite F1, F2, F3, F4, F5. simpl.
  repeat split; auto.
Qed.

Lemma addAccount_locked (pf : Platform) (account : AccountData.t) (w : World) :
  isUnlocked w = false -> addAccount pf account w = (Throw vault_is_locked, w).
Proof. intros H. unfold addAccount, bind, gets. rewrite H. reflexivity. Qed.

Lemma addAccount_spec (pf : Platform) (account : AccountData.t) (w : World) :
  isUnlocked w = true ->
  exists r w',
    addAccount pf account w = (r, w')
    /\ accounts_of w' = (accounts_of w ++ [admitted pf (tick w) account])%list
    /\ masterPassword w' = masterPassword w /\ accounts w' = accounts w
    /\ isUnlocked w' = true
    /\ (tick w < tick w')%nat
    /\ (r = Return (admitted pf (tick w) account) \/ r = Throw vault_is_locked)
    /\ (forall password,
          masterPassword w = Some password -> password <> "" ->
          r = Return (admitted pf (tick w) account)
          /\ tick w' = (6 + tick w)%nat).
Proof.
  intros Hun. unfold addAccount, generateId, bind, gets, draw, ret, update_array, modify.
  rewrite Hun. simpl.
  match goal with
  | |- context [saveVault pf ?w0] =>
      destruct (saveVault_spec pf w0)
        as (r & w' & -> & E1 & E2 & E3 & E4 & Ht & Hr & Hok); simpl in *
  end.
  fold (id_at pf (tick w)) in *. fold (admitted pf (tick w) account) in *.
  assert (Hid : (tick w < tick w')%nat) by lia.
  exists (match r with
          | Return _ => Return (admitted pf (tick w) account)
          | Throw e => Throw e
          end), w'.
  split; [now destruct r|].
  unfold accounts_of, array_at. rewrite E2, E4. simpl. rewrite lookup_insert_eq.
  split_conj; auto.
  - congruence.
  - destruct r as [[]|e]; [now left|].
    destruct Hr as [Hr|Hr]; [discriminate | injection Hr as ->; now right].
  - intros password Hp Hne. destruct (Hok password Hun Hp Hne) as [-> ->].
    split; [reflexivity | lia].
Qed.

Lemma addAccount_returned (pf : Platform) (account : AccountData.t) (w w' : World)
  (a : Account.t) :
  addAccount pf account w = (Return a, w') ->
  isUnlocked w = true
  /\ a = admitted pf (tick w) account
  /\ accounts_of w' = (accounts_of w ++ [a])%list.
Proof.
  intros Hadd. destruct (isUnlocked w) eqn:Hun.
  - destruct (addAccount_spec pf account w Hun)
      as (r & w1 & E & Hacc & _ & _ & _ & _ & Hr & _).
    rewrite E in Hadd. injection Hadd as -> ->.
    destruct Hr as [[= ->]|?]; [|discriminate]. auto.
  - rewrite addAccount_locked in Hadd by assumption. discriminate.
Qed.

(** ** The manual add path *)

(** C4, as amended: an account admitted through [AccountService.addManual]
    has a secret whose normalized form (whitespace stripped, upper-cased)
    passed the Base32 validation, and the secret stored in the vault is
    exactly the string the caller supplied: [addManual] validates the
    normalized form but stores the input.  The stored secret is the
    normalized form on the path that normalizes before it calls
    [addManual], the manual-entry form: every account that
    [handleManualSubmit] admits is stored with its secret upper-cased and
    stripped of whitespace. *)
Theorem C4_secret_as_supplied (pf : Platform) (input : AccountData.t) (w : World) :
  (forall a w',
     addManual pf input w = (Return a, w') ->
     validateSecret pf (AccountData.secret input) = true
     /\ accounts_of w' = (accounts_of w ++ [a])%list
     /\ Account.secret a = AccountData.secret input)
  /\ (forall w',
        handleManualSubmit pf input w = (Return None, w') ->
        validateSecret pf (AccountData.secret input) = true
        /\ exists a,
             accounts_of w' = (accounts_of w ++ [a])%list
             /\ Account.secret a = clean pf (AccountData.secret input)).
Proof.
  split.
  - intros a w' H. unfold addManual in H.
    destruct (validateSecret pf (AccountData.secret input)); simpl in H.
    + apply addAccount_returned in H as (_ & -> & Hacc). auto.
    + discriminate.
  - intros w' H. unfold handleManualSubmit in H.
    destruct (falsy (AccountData.name input) || falsy (AccountData.secret input));
      [discriminate|].
    destruct (validateSecret pf (AccountData.secret input)); simpl in H;
      [|discriminate].
    split; [reflexivity|].
    unfold try_catch, bind, ret in H.
    match type of H with
    | context [addManual pf ?d w] =>
        destruct (addManual pf d w) as [[a|e] w1] eqn:E
    end; [|discriminate].
    injection H as <-. unfold addManual in E. simpl in E.
    destruct (validateSecret pf (clean pf (AccountData.secret input)));
      simpl in E; [|discriminate].
    apply addAccount_returned in E as (_ & -> & Hacc).
    eexists. split; [exact Hacc | reflexivity].
Qed.

Lemma C4_secret_as_supplied_witness :
  Account.secret (admitted Small.platform (tick Small.created) Small.github_as_typed)
  = "jbsw y3dp ehpk 3pxp"
  /\ exists a,
       accounts_of (after (handleManualSubmit Small.platform Small.github_as_typed)
                      Small.created)
       = (accounts_of Small.created ++ [a])%list
       /\ Account.secret a = "JBSWY3DPEHPK3PXP".
Proof.
  destruct (C4_secret_as_supplied Small.platform Small.github_as_typed Small.created)
    as [Hservice Hform].
  split.
  - refine (proj2 (proj2
      (Hservice (admitted Small.platform (tick Small.created) Small.github_as_typed)
         (snd (addManual Small.platform Small.github_as_typed Small.created)) _))).
    vm_compute. reflexivity.
  - refine (proj2
      (Hform (after (handleManualSubmit Small.platform Small.github_as_typed)
                Small.created) _)).
    vm_compute. reflexivity.
Defined.

(** C4, as stated, fails for a secret typed in lower case and in groups:
    it passes the validation and is stored as typed. *)
Lemma C4_secret_stored_as_typed :
  validateSecret Small.platform "jbsw y3dp ehpk 3pxp" = true
  /\ map Account.secret
       (accounts_of (after (addManual Small.platform Small.github_as_typed) Small.created))
     = ["jbsw y3dp ehpk 3pxp"]
  /\ clean Small.platform "jbsw y3dp ehpk 3pxp" = "JBSWY3DPEHPK3PXP"
  /\ "jbsw y3dp ehpk 3pxp" <> "JBSWY3DPEHPK3PXP".
Proof. vm_compute. repeat split; discriminate. Qed.

(** ** Import *)

Lemma same_issuer_and_name_refl (pf : Platform) (t : nat) (account : Account.t) :
  same_issuer_and_name account (admitted pf t (data_of account)) = true.
Proof. unfold same_issuer_and_name. simpl. now rewrite !String.eqb_refl. Qed.

Lemma import_plan_new (pf : Platform) (incoming existing : list Account.t) (t : nat) :
  Forall (fun n => existsb (same_issuer_and_name n) existing = false)
    (import_plan pf existing incoming t).
Proof.
  revert existing t. induction incoming as [|a rest IH]; intros existing t; simpl.
  - constructor.
  - destruct (existsb (same_issuer_and_name a) existing) eqn:E; [apply IH|].
    constructor.
    + exact E.
    + eapply Forall_impl; [apply IH|]. simpl. intros n Hn.
      rewrite existsb_app in Hn. now apply orb_false_elim in Hn as [Hn _].
Qed.

Lemma import_plan_covers (pf : Platform) (incoming existing : list Account.t) (t : nat) :
  Forall (fun a => existsb (same_issuer_and_name a)
                     (existing ++ import_plan pf existing incoming t) = true)
    incoming.
Proof.
  revert existing t. induction incoming as [|a rest IH]; intros existing t; simpl.
  - constructor.
  - destruct (existsb (same_issuer_and_name a) existing) eqn:E.
    + constructor; [|apply IH]. rewrite existsb_app, E. reflexivity.
    + constructor.
      * rewrite existsb_app. simpl.
        rewrite (same_issuer_and_name_refl pf t a). now rewrite orb_true_r.
      * specialize (IH (existing ++ [admitted pf t (data_of a)])%list (6 + t)%nat).
        now rewrite <- app_assoc in IH.
Qed.

Lemma import_plan_origin (pf : Platform) (incoming existing : list Account.t) (t : nat) :
  Forall (fun n => exists a t', In a incoming /\ (t <= t')%nat
                                /\ n = admitted pf t' (data_of a))
    (import_plan pf existing incoming t).
Proof.
  revert existing t. induction incoming as [|a rest IH]; intros existing t; simpl.
  - constructor.
  - destruct (existsb (same_issuer_and_name a) existing) eqn:E.
    + eapply Forall_impl; [apply IH|]. simpl.
      intros n (b & t' & Hb & Ht & ->). eauto 6.
    + constructor; [eauto 6|].
      eapply Forall_impl; [apply IH|]. simpl.
      intros n (b & t' & Hb & Ht & ->). exists b, t'. split_conj; auto. lia.
Qed.

Lemma import_loop_spec (pf : Platform) (password : string)
  (incoming : list Account.t) (count : Z) (w : World) :
  isUnlocked w = true -> masterPassword w = Some password -> password <> "" ->
  exists w',
    import_loop pf incoming count w
    = (Return (count + Z.of_nat (length (import_plan pf (accounts_of w) incoming (tick w)))),
       w')
    /\ accounts_of w'
       = (accounts_of w ++ import_plan pf (accounts_of w) incoming (tick w))%list
    /\ isUnlocked w' = true /\ masterPassword w' = Some password
    /\ (tick w <= tick w')%nat.
Proof.
  revert count w. induction incoming as [|a rest IH]; intros count w Hun Hpw Hne.
  - exists w. simpl. unfold ret. rewrite Z.add_0_r, app_nil_r. auto.
  - simpl. unfold bind at 1, gets at 1.
    destruct (existsb (same_issuer_and_name a) (accounts_of w)) eqn:E; simpl.
    + apply IH; assumption.
    + change (AccountData.mk _ _ _ _ _ _ _ _) with (data_of a).
      destruct (addAccount_spec pf (data_of a) w Hun)
        as (r & w1 & Hadd & Hacc & Hpw1 & _ & Hun1 & _ & _ & Hok).
      destruct (Hok password Hpw Hne) as [-> Ht].
      rewrite (@bind_returns _ _ _ _ _ _ _ Hadd).
      rewrite Hpw in Hpw1.
      destruct (IH (count + 1) w1 Hun1 Hpw1 Hne) as (w' & -> & Hacc' & Hun' & Hpw' & Ht').
      exists w'. rewrite Hacc', Hacc, Ht, <- app_assoc. simpl.
      split_conj; auto; try lia.
      f_equal. f_equal. lia.
Qed.

(** C5, as amended: for a vault unlocked under a non-empty master password
    (the unlocked flag set and a password with which the vault can be
    saved) and a valid transfer payload (one that parses, decrypts under
    the transfer password, matches its checksum and holds a list of
    accounts), [importVault] returns normally; it skips each
    incoming account for which some account existing in the vault when the
    incoming account is reached has both the same issuer and the same name,
    and adds every other incoming account through [addAccount].  The
    accounts already in the vault are kept as they were, in place; each
    added account carries the fields of an incoming account, with an id and
    timestamps drawn locally; none of the added accounts shares issuer and
    name with an account that was in the vault; every incoming account has
    an account with its issuer and name in the vault afterwards; and the
    number returned is the number of accounts added. *)
Theorem C5_import_deduplicates (pf : Platform) (w : World)
  (exportedData transferPassword password decryptedData : string)
  (importData : ExportData.t) (importedAccounts : list Account.t) :
  isUnlocked w = true ->
  masterPassword w = Some password ->
  password <> "" ->
  JSON_parse (JSON := JSON_Export pf) exportedData = Some importData ->
  decrypt pf (ExportData.encryptedData importData) transferPassword
    (ExportData.salt importData) (ExportData.iv importData)
    (ExportData.hmac importData) = Return decryptedData ->
  createChecksum pf decryptedData = ExportData.checksum importData ->
  JSON_parse (JSON := JSON_Accounts pf) decryptedData = Some importedAccounts ->
  let added := import_plan pf (accounts_of w) importedAccounts (tick w) in
  exists w',
    importVault pf exportedData transferPassword w
    = (Return (Z.of_nat (length added)), w')
    /\ accounts_of w' = (accounts_of w ++ added)%list
    /\ Forall (fun n => existsb (same_issuer_and_name n) (accounts_of w) = false) added
    /\ Forall (fun a => existsb (same_issuer_and_name a) (accounts_of w') = true)
         importedAccounts
    /\ Forall (fun n => exists a t, In a importedAccounts /\ (tick w <= t)%nat
                                   /\ n = admitted pf t (data_of a)) added.
Proof.
  intros Hun Hpw Hne Hparse Hdec Hsum Haccs added.
  destruct (import_loop_spec pf importedAccounts 0 w Hun Hpw Hne)
    as (w' & Hloop & Hacc & _).
  exists w'. split_conj.
  - unfold importVault, bind at 1, gets at 1. rewrite Hun. simpl.
    unfold try_catch, importVault_try, parse, lift, bind, json_export, json_accounts.
    rewrite Hparse. simpl. rewrite Hdec, Hsum, String.eqb_refl. simpl.
    rewrite Haccs. simpl. now rewrite Hloop.
  - exact Hacc.
  - apply import_plan_new.
  - rewrite Hacc. apply import_plan_covers.
  - apply import_plan_origin.
Qed.

Lemma C5_import_deduplicates_witness :
  exists w',
    importVault Small.platform Small.payload "transfer" Small.later = (Return 2, w')
    /\ map Account.issuer (accounts_of w') = ["GitHub"; "GitLab"; "Bank"].
Proof.
  destruct (C5_import_deduplicates Small.platform Small.later Small.payload
              "transfer" (password := "correct-horse-battery")
              (decryptedData := Small.payload_text)
              (importData := Small.payload_data)
              (importedAccounts := Small.payload_accounts))
    as (w' & Himport & Hacc & _).
  - vm_compute. reflexivity.
  - vm_compute. reflexivity.
  - discriminate.
  - vm_compute. reflexivity.
  - vm_compute. reflexivity.
  - vm_compute. reflexivity.
  - vm_compute. reflexivity.
  - exists w'. split.
    + rewrite Himport. vm_compute. reflexivity.
    + rewrite Hacc. vm_compute. reflexivity.
Defined.

(** C5, as stated, fails in the unlocked vault that [createVault] with the
    empty password leaves behind: the flag is set, so [importVault] passes
    its guard and pushes the first incoming account, but [saveVault]
    refuses the empty password; [importVault] throws its import error, no
    count is returned, and one account of the payload's three stays in
    memory. *)
Lemma C5_import_throws_without_password :
  isUnlocked (after (createVault Small.platform "") Small.fresh) = true
  /\ fst (importVault Small.platform Small.payload "transfer"
            (after (createVault Small.platform "") Small.fresh))
     = Throw import_error
  /\ length (accounts_of
               (after (importVault Small.platform Small.payload "transfer")
                  (after (createVault Small.platform "") Small.fresh)))
     = 1%nat.
Proof. vm_compute. split_conj; reflexivity. Qed.

(** ** Account ids *)

Lemma length_append (a b : string) :
  String.length (a +:+ b) = (String.length a + String.length b)%nat.
Proof.
  induction a as [|x a IH]; [reflexivity|].
  rewrite append_cons. simpl. now rewrite IH.
Qed.

Lemma append_inj_r (a b r : string) : a +:+ r = b +:+ r -> a = b.
Proof.
  revert b. induction a as [|x a IH]; intros [|y b] H.
  - reflexivity.
  - apply (f_equal String.length) in H. rewrite !length_append in H.
    simpl in H. lia.
  - apply (f_equal String.length) in H. rewrite !length_append in H.
    simpl in H. lia.
  - rewrite !append_cons in H. injection H as -> H. f_equal. now apply IH.
Qed.

Lemma to_int_not_nil (n : Z) :
  Z.to_int n <> Decimal.Pos Decimal.Nil /\ Z.to_int n <> Decimal.Neg Decimal.Nil.
Proof.
  destruct n as [|p|p]; simpl; split; try discriminate;
    intros [= H]; now apply DecimalPos.Unsigned.to_uint_nonnil in H.
Qed.

Lemma Z_toString_inj (n m : Z) : Z_toString n = Z_toString m -> n = m.
Proof.
  unfold Z_toString. intros H.
  apply (f_equal NilZero.int_of_string) in H.
  destruct (to_int_not_nil n), (to_int_not_nil m).
  rewrite !NilZero.isi in H by assumption.
  injection H as H. now apply DecimalZ.to_int_inj.
Qed.

Lemma after_lift {A B} (o : outcome A) (k : A -> M B) (w : World) :
  after (bind (lift o) k) w
  = match o with
    | Return a => after (k a) w
    | Throw _ => w
    end.
Proof. rewrite after_bind. unfold lift. now destruct o. Qed.

Lemma after_try_rethrow {A} (m : M A) (e : exn) (w : World) :
  after (try_catch m (fun _ => throw e)) w = after m w.
Proof. unfold after, try_catch, throw. now destruct (m w) as [[a|x] w']. Qed.

Section Ids.

Variable pf : Platform.
Variable w0 : World.

(** No draw yields an id that is in use at the start, and no two draws
    yield the same id. *)
Hypothesis ids_new : forall t, (tick w0 <= t)%nat -> id_at pf t ∉ ids w0.
Hypothesis ids_differ :
  forall t t', (tick w0 <= t)%nat -> (t < t')%nat -> id_at pf t <> id_at pf t'.

Lemma addAccount_ids_drawn (account : AccountData.t) (w : World) :
  ids_drawn pf w0 w -> ids_drawn pf w0 (after (addAccount pf account) w).
Proof.
  intros (Hnd & Ht & Hall). destruct (isUnlocked w) eqn:Hun.
  2:{ unfold after. rewrite addAccount_locked by assumption. now split_conj. }
  destruct (addAccount_spec pf account w Hun)
    as (r & w' & Hadd & Hacc & _ & _ & _ & Hlt & _).
  unfold after. rewrite Hadd. simpl. unfold ids_drawn, ids.
  rewrite Hacc, map_app. simpl. split_conj.
  - apply NoDup_app. split_conj; [exact Hnd | | apply NoDup_singleton].
    intros i Hi Hin. apply list_elem_of_singleton in Hin. subst i.
    destruct (Hall _ Hi) as [H0 | (t & Ht0 & Htw & E)].
    + exact (ids_new Ht H0).
    + symmetry in E. exact (ids_differ Ht0 Htw E).
  - lia.
  - intros i Hi. apply elem_of_app in Hi as [Hi | Hi].
    + destruct (Hall _ Hi) as [H0 | (t & Ht0 & Htw & E)]; [now left|].
      right. exists t. split_conj; auto. lia.
    + apply list_elem_of_singleton in Hi. subst i.
      right. exists (tick w). split_conj; auto.
Qed.

Lemma import_loop_ids_drawn (incoming : list Account.t) (count : Z) (w : World) :
  ids_drawn pf w0 w -> ids_drawn pf w0 (after (import_loop pf incoming count) w).
Proof.
  revert count w. induction incoming as [|a rest IH]; intros count w Hw.
  - exact Hw.
  - simpl. rewrite after_bind. unfold gets at 1.
    destruct (existsb (same_issuer_and_name a) (accounts_of w)); simpl.
    + now apply IH.
    + rewrite after_bind.
      pose proof (addAccount_ids_drawn (data_of a) Hw) as Hw'. unfold after in Hw'.
      change (AccountData.mk _ _ _ _ _ _ _ _) with (data_of a).
      destruct (addAccount pf (data_of a) w) as [[n|e] w']; simpl in Hw'.
      * now apply IH.
      * exact Hw'.
Qed.

Lemma importVault_ids_drawn (exportedData transferPassword : string) (w : World) :
  ids_drawn pf w0 w -> ids_drawn pf w0 (after (importVault pf exportedData transferPassword) w).
Proof.
  intros Hw. unfold importVault. rewrite after_bind. unfold gets at 1.
  destruct (isUnlocked w); simpl; [|exact Hw].
  rewrite after_try_rethrow. unfold importVault_try, parse.
  rewrite after_lift. destruct (or_throw _ _) as [importData|]; [|exact Hw].
  rewrite after_lift. destruct (decrypt _ _ _ _ _ _) as [decryptedData|]; [|exact Hw].
  destruct (negb _); [exact Hw|].
  rewrite after_lift. destruct (or_throw _ _) as [importedAccounts|]; [|exact Hw].
  now apply import_loop_ids_drawn.
Qed.

Lemma perform_ids_drawn (op : operation) (w : World) :
  ids_drawn pf w0 w -> ids_drawn pf w0 (after (perform pf op) w).
Proof.
  intros Hw. destruct op as [account | exportedData transferPassword]; simpl;
    rewrite after_bind.
  - pose proof (addAccount_ids_drawn account Hw) as Hw'. unfold after in Hw'.
    now destruct (addAccount pf account w) as [[a|e] w'].
  - pose proof (importVault_ids_drawn exportedData transferPassword Hw) as Hw'.
    unfold after in Hw'.
    now destruct (importVault pf exportedData transferPassword w) as [[n|e] w'].
Qed.

Lemma perform_all_ids_drawn (ops : list operation) (w : World) :
  ids_drawn pf w0 w -> ids_drawn pf w0 (perform_all pf ops w).
Proof.
  revert w. induction ops as [|op ops IH]; intros w Hw; simpl.
  - exact Hw.
  - apply IH. now apply perform_ids_drawn.
Qed.

End Ids.

(** The ids in the vault come from the draws alone: over every sequence of
    [addAccount] operations, including those performed by [importVault],
    issued from a list whose ids are distinct, the ids stay distinct as long
    as no draw yields an id already in the list and no two draws yield the
    same id. *)
Lemma ids_distinct_when_draws_are (pf : Platform) (w : World)
  (ops : list operation) :
  NoDup (ids w) ->
  (forall t, (tick w <= t)%nat -> id_at pf t ∉ ids w) ->
  (forall t t', (tick w <= t)%nat -> (t < t')%nat -> id_at pf t <> id_at pf t') ->
  NoDup (ids (perform_all pf ops w)).
Proof.
  intros Hnd Hnew Hdiffer.
  apply (perform_all_ids_drawn (w0 := w) Hnew Hdiffer ops).
  unfold ids_drawn. split_conj; auto.
Qed.

Lemma small_ids_differ (t t' : nat) :
  (t < t')%nat -> id_at Small.platform t <> id_at Small.platform t'.
Proof.
  intros Hlt E. unfold id_at in E. simpl in E.
  apply append_inj_r, Z_toString_inj in E. lia.
Qed.

Example ids_distinct_on_the_small_platform :
  NoDup (ids (perform_all Small.platform
                [Add Small.github; Import Small.payload "transfer"; Add Small.github]
                Small.created)).
Proof.
  apply ids_distinct_when_draws_are.
  - vm_compute. constructor.
  - intros t _. change (ids Small.created) with (@nil string).
    apply not_elem_of_nil.
  - intros t t' _. apply small_ids_differ.
Defined.

(** C8: [generateId], documented as generating a unique id for accounts,
    builds the id from the clock and nine base-36 digits of a random draw
    and never compares it with the ids in use.  When two accounts are added
    within one millisecond and the two random draws agree in the nine digits
    that [substring(2, 11)] keeps, both accounts receive the same id: the
    ids of the two accounts in the vault are not distinct. *)
Lemma C8_same_millisecond_same_id :
  ~ NoDup (ids (perform_all Small.one_millisecond
                  [Add Small.github; Add Small.gitlab]
                  (after (createVault Small.one_millisecond "correct-horse-battery")
                     Small.fresh))).
Proof.
  assert (E : ids (perform_all Small.one_millisecond
                     [Add Small.github; Add Small.gitlab]
                     (after (createVault Small.one_millisecond "correct-horse-battery")
                        Small.fresh))
              = ["1700000000000-4fzyo82mv"; "1700000000000-4fzyo82mv"])
    by (vm_compute; reflexivity).
  rewrite E. intros H. apply NoDup_cons in H as [H _].
  apply H. constructor.
Qed.

(** ** Unlocking *)

(** C2, as amended: for every password, whenever a (non-empty) stored vault
    record exists, [unlockVault] returns a boolean and throws nothing; when
    decryption of the record fails (the record does not parse, its salt or
    IV is not Base64, the HMAC does not match as for a wrong password, or
    the cipher output is rejected) the boolean is [false]; and whenever it
    is [false] the world, and with it the runtime state (in-memory account
    list, stored master password, unlocked flag), is exactly as before. *)
Theorem C2_unlock_failure_is_false (pf : Platform) (password vaultData : string)
  (w : World) :
  stored pf w VAULT_KEY = Some vaultData ->
  vaultData <> "" ->
  exists (unlocked : bool) (w' : World),
    unlockVault pf password w = (Return unlocked, w')
    /\ (unlocked = false -> w' = w)
    /\ (forall e, decrypted_vault pf vaultData password = Throw e -> unlocked = false).
Proof.
  intros Hstored Hne. apply falsy_false in Hne.
  unfold unlockVault. rewrite (@bind_returns _ _ _ _ _ _ _ (getItem_spec pf VAULT_KEY w)).
  rewrite Hstored, Hne.
  unfold decrypted_vault, try_catch, bind, parse, lift, json_vault, json_accounts.
  destruct (JSON_parse vaultData) as [vault|]; simpl.
  2:{ exists false, w. split_conj; auto. }
  destruct (decrypt pf _ password _ _ _) as [decryptedData|e]; simpl.
  2:{ exists false, w. split_conj; auto. }
  destruct (JSON_parse decryptedData) as [parsed|]; simpl.
  2:{ exists false, w. split_conj; auto. }
  eexists true, _. split_conj; [reflexivity | discriminate | discriminate].
Qed.

Lemma C2_unlock_failure_is_false_witness :
  unlockVault Small.platform "wrong" Small.locked = (Return false, Small.locked).
Proof.
  destruct (C2_unlock_failure_is_false Small.platform "wrong"
              (vaultData := Small.record) Small.locked)
    as (unlocked & w' & Hunlock & Hsame & Hfail).
  - vm_compute. reflexivity.
  - discriminate.
  - rewrite Hunlock.
    assert (E : unlocked = false).
    { apply (Hfail integrity_error). vm_compute. reflexivity. }
    rewrite (Hsame E), E. reflexivity.
Defined.

(** C2, as stated, fails when there is no stored record: the guard at the
    head of [unlockVault] throws. *)
Lemma C2_unlock_without_record_throws :
  unlockVault Small.platform "correct-horse-battery" Small.fresh
  = (Throw (Error "Vault does not exist"), Small.fresh).
Proof. vm_compute. reflexivity. Qed.

(** ** Biometric unlock *)

Lemma stored_same_stores (pf : Platform) (w w' : World) (key : string) :
  localStorage w' = localStorage w -> secureStorage w' = secureStorage w ->
  stored pf w' key = stored pf w key.
Proof.
  intros Hl Hs.
  unfold stored, getItem, localStorage_getItem, ipc_storage_get, gets.
  destruct (isCapacitor (getPlatformInfo pf)), (isElectron (getPlatformInfo pf)),
    (electronAPI pf); simpl; now rewrite ?Hl, ?Hs.
Qed.

Lemma authenticate_spec (pf : Platform) (reason : string) (w : World) :
  exists (b : bool) (w' : World),
    authenticate pf reason w = (Return b, w')
    /\ localStorage w' = localStorage w /\ secureStorage w' = secureStorage w
    /\ (challenge_always_succeeds pf -> b = true).
Proof.
  unfold authenticate, draw, ret, challenge_always_succeeds. simpl.
  destruct (window_process_renderer pf), (electronAPI pf);
    try (destruct (bool_decide _)); eexists _, _;
    (split; [reflexivity|]); split_conj; try reflexivity;
    intros (? & ? & Hprompt); try discriminate; apply Hprompt.
Qed.

Lemma enable_spec (pf : Platform) (HL : Laws pf) (masterPassword_ : string) (w : World) :
  challenge_always_succeeds pf ->
  exists w' sessionKey saltBytes ivBytes,
    enable pf masterPassword_ w = (Return true, w')
    /\ stored pf w' BIOMETRIC_KEY_STORAGE = Some "true"
    /\ stored pf w' SESSION_KEY_STORAGE
       = Some (JSON_stringify (JSON := JSON_Session pf)
                 (session_of (envelope pf masterPassword_ sessionKey saltBytes ivBytes)
                    sessionKey)).
Proof.
  intros Hok. unfold enable, try_catch.
  destruct (authenticate_spec pf "Enable biometric unlock" w)
    as (b & w1 & Hauth & _ & _ & Hb).
  rewrite (Hb Hok) in Hauth. rewrite (@bind_returns _ _ _ _ _ _ _ Hauth). simpl.
  unfold generateTransferKey. unfold bind at 2, draw, ret. simpl.
  unfold bind at 1.
  set (sessionKey := arrayBufferToBase64 pf (getRandomValues pf (tick w1) 32)).
  destruct (encrypt_returns pf masterPassword_ sessionKey None None
              (set_tick (S (tick w1)) w1))
    as (saltBytes & ivBytes & w2 & Henc & _).
  rewrite (@bind_returns _ _ _ _ _ _ _ Henc).
  fold (session_of (envelope pf masterPassword_ sessionKey saltBytes ivBytes) sessionKey).
  match goal with
  | |- context [setItem pf SESSION_KEY_STORAGE ?v] =>
      destruct (setItem_spec pf SESSION_KEY_STORAGE v w2)
        as (w3 & Hset & _ & _ & _ & _ & _ & Hsession & _)
  end.
  rewrite (@bind_returns _ _ _ _ _ _ _ Hset).
  destruct (setItem_spec pf BIOMETRIC_KEY_STORAGE "true" w3)
    as (w4 & Hset' & _ & _ & _ & _ & _ & Hflag & Hother).
  rewrite (@bind_returns _ _ _ _ _ _ _ Hset').
  exists w4, sessionKey, saltBytes, ivBytes. split_conj.
  - reflexivity.
  - apply Hflag. discriminate.
  - rewrite Hother by discriminate. apply Hsession.
    apply (law_JSON_Session_text HL).
Qed.

Lemma unlock_spec (pf : Platform) (HL : Laws pf) (session : Session.t) (w : World) :
  challenge_always_succeeds pf ->
  stored pf w BIOMETRIC_KEY_STORAGE = Some "true" ->
  stored pf w SESSION_KEY_STORAGE = Some (JSON_stringify (JSON := JSON_Session pf) session) ->
  exists w',
    unlock pf w
    = (match decrypt pf (Session.encrypted session) (Session.sessionKey session)
               (Session.salt session) (Session.iv session) (Session.hmac session) with
       | Return masterPassword_ => Return (Some masterPassword_)
       | Throw _ => Return None
       end, w').
Proof.
  intros Hok Hflag Hsession. unfold unlock, try_catch, isEnabled.
  rewrite bind_bind.
  rewrite (@bind_returns _ _ _ _ _ _ _ (getItem_spec pf BIOMETRIC_KEY_STORAGE w)).
  rewrite bind_ret, Hflag, bool_decide_eq_true_2 by reflexivity. simpl.
  destruct (authenticate_spec pf "Unlock nAuth" w) as (b & w1 & Hauth & Hl & Hs & Hb).
  rewrite (Hb Hok) in Hauth. rewrite (@bind_returns _ _ _ _ _ _ _ Hauth). simpl.
  rewrite (@bind_returns _ _ _ _ _ _ _ (getItem_spec pf SESSION_KEY_STORAGE w1)).
  rewrite (stored_same_stores pf w w1 SESSION_KEY_STORAGE Hl Hs), Hsession.
  rewrite (proj2 (falsy_false _) (law_JSON_Session_text HL session)).
  unfold parse, json_session, lift, bind, ret.
  rewrite (law_JSON_Session HL). simpl.
  exists w1. now destruct (decrypt pf _ _ _ _ _).
Qed.

Lemma unlock_disabled (pf : Platform) (w : World) :
  stored pf w BIOMETRIC_KEY_STORAGE <> Some "true" ->
  unlock pf w = (Return None, w).
Proof.
  intros Hflag. unfold unlock, try_catch, isEnabled.
  rewrite bind_bind.
  rewrite (@bind_returns _ _ _ _ _ _ _ (getItem_spec pf BIOMETRIC_KEY_STORAGE w)).
  rewrite bind_ret, bool_decide_eq_false_2 by assumption. reflexivity.
Qed.

Lemma disable_spec (pf : Platform) (w : World) :
  fst (disable pf w) = Return tt
  /\ stored pf (after (disable pf) w) BIOMETRIC_KEY_STORAGE = None
  /\ stored pf (after (disable pf) w) SESSION_KEY_STORAGE = None.
Proof.
  unfold after, disable, bind.
  destruct (removeItem_spec pf BIOMETRIC_KEY_STORAGE w)
    as (w1 & -> & _ & _ & _ & _ & _ & Hflag & _).
  destruct (removeItem_spec pf SESSION_KEY_STORAGE w1)
    as (w2 & -> & _ & _ & _ & _ & _ & Hsession & Hother).
  simpl. split_conj; auto.
  rewrite Hother by discriminate. exact Hflag.
Qed.

(** C6, as amended: with a biometric challenge that always succeeds,
    [enable(pw)] returns [true] and a following [unlock()] returns exactly
    [pw], for every non-empty master password [pw] (the empty password is
    stored but does not come back, [decrypt] rejecting the empty result);
    after [disable()], [unlock()] returns absent ([null]); and when the
    challenge made by [enable] fails, [enable] returns [false] without
    throwing, and neither store is written. *)
Theorem C6_biometric_round_trip (pf : Platform) (HL : Laws pf) (pw : string)
  (w : World) :
  (challenge_always_succeeds pf -> pw <> "" ->
   exists w1 w2,
     enable pf pw w = (Return true, w1)
     /\ unlock pf w1 = (Return (Some pw), w2))
  /\ (fst (disable pf w) = Return tt
      /\ fst (unlock pf (after (disable pf) w)) = Return None)
  /\ (fst (authenticate pf "Enable biometric unlock" w) = Return false ->
      exists w',
        enable pf pw w = (Return false, w')
        /\ localStorage w' = localStorage w
        /\ secureStorage w' = secureStorage w).
Proof.
  split_conj.
  - intros Hok Hne.
    destruct (enable_spec HL pw w Hok)
      as (w1 & sessionKey & saltBytes & ivBytes & Henable & Hflag & Hsession).
    destruct (unlock_spec HL _ w1 Hok Hflag Hsession) as (w2 & Hunlock).
    exists w1, w2. split; [exact Henable|].
    rewrite Hunlock. unfold session_of.
    cbn [Session.encrypted Session.salt Session.iv Session.hmac Session.sessionKey].
    fold (decrypt_envelope pf (envelope pf pw sessionKey saltBytes ivBytes) sessionKey).
    rewrite (decrypt_encrypted HL).
    now rewrite (proj2 (falsy_false pw) Hne).
  - apply disable_spec.
  - destruct (disable_spec pf w) as (_ & Hflag & _).
    rewrite unlock_disabled; [reflexivity|]. rewrite Hflag. discriminate.
  - intros Hdenied. unfold enable, try_catch.
    destruct (authenticate_spec pf "Enable biometric unlock" w)
      as (b & w1 & Hauth & Hl & Hs & _).
    rewrite Hauth in Hdenied. simpl in Hdenied. injection Hdenied as ->.
    rewrite (@bind_returns _ _ _ _ _ _ _ Hauth). simpl.
    exists w1. auto.
Qed.

Lemma C6_biometric_round_trip_witness :
  (exists w1 w2,
     enable Small.platform "correct-horse-battery" Small.locked = (Return true, w1)
     /\ unlock Small.platform w1 = (Return (Some "correct-horse-battery"), w2))
  /\ (exists w',
        enable Small.refusing "correct-horse-battery" Small.locked = (Return false, w')
        /\ localStorage w' = localStorage Small.locked
        /\ secureStorage w' = secureStorage Small.locked).
Proof.
  split.
  - apply (C6_biometric_round_trip small_laws "correct-horse-battery" Small.locked).
    + repeat split.
    + discriminate.
  - apply (C6_biometric_round_trip
             (laws_with_biometric_prompt (fun _ _ => false) small_laws)
             "correct-horse-battery" Small.locked).
    vm_compute. reflexivity.
Defined.

(** C6, as stated, fails at the empty master password: [enable("")]
    succeeds and stores a session, but [unlock()] then returns absent. *)
Lemma C6_empty_password_not_returned :
  fst (enable Small.platform "" Small.locked) = Return true
  /\ fst (unlock Small.platform (after (enable Small.platform "") Small.locked))
     <> Return (Some "").
Proof. vm_compute. split; [reflexivity | discriminate]. Qed.

(** ** Transfer *)


Lemma exportVault_returned (pf : Platform) (transferPassword : option string)
  (master exportedData : string) (w w' : World) :
  masterPassword w = Some master ->
  exportVault pf transferPassword w = (Return exportedData, w') ->
  exists saltBytes ivBytes,
    let data := JSON_stringify (JSON := JSON_Accounts pf) (accounts_of w) in
    exportedData
    = JSON_stringify (JSON := JSON_Export pf)
        (export_of (envelope pf data (or_string transferPassword master)
                      saltBytes ivBytes)
           (createChecksum pf data)).
Proof.
  intros Hpw. unfold exportVault. unfold bind at 1, gets at 1.
  unfold bind at 1, gets at 1. rewrite Hpw.
  destruct (negb (isUnlocked w) || falsy master); [discriminate|].
  unfold bind at 1, gets at 1.
  match goal with
  | |- context [encrypt pf ?d ?p None None] =>
      destruct (encrypt_returns pf d p None None w)
        as (saltBytes & ivBytes & w1 & Henc & _)
  end.
  rewrite (@bind_returns _ _ _ _ _ _ _ Henc). unfold ret.
  intros [= <- _]. exists saltBytes, ivBytes. reflexivity.
Qed.




(** ** The example scenario

    Create a vault, add the sample account, lock: unlocking with the right
    password gives back a list of one account with its secret, unlocking
    with a wrong one returns [false] and exposes nothing. *)

Example scenario_right_password :
  let '(unlocked, w) := unlockVault Small.platform "correct-horse-battery" Small.locked in
  unlocked = Return true
  /\ map Account.secret (accounts_of w) = ["JBSWY3DPEHPK3PXP"]
  /\ fst (getMasterPassword w) = Return (Some "correct-horse-battery").
Proof. vm_compute. repeat split. Qed.

Example scenario_wrong_password :
  let '(unlocked, w) := unlockVault Small.platform "wrong" Small.locked in
  unlocked = Return false
  /\ accounts_of w = []
  /\ fst (getAccounts w) = Throw vault_is_locked.
Proof. vm_compute. repeat split. Qed.

(** * Further properties of the services *)

(** ** StorageService: reading back, removing, clearing *)

Lemma uses_ipc_stored (pf : Platform) (w : World) (key : string) :
  stored pf w key
  = if uses_ipc pf then
      match secureStorage w !! (STORAGE_PREFIX +:+ key) with
      | Some value =>
          if safeStorage_isEncryptionAvailable pf then Some value
          else if falsy value then None else Some value
      | None => None
      end
    else localStorage w !! (STORAGE_PREFIX +:+ key).
Proof.
  unfold stored, uses_ipc, getItem, localStorage_getItem, ipc_storage_get, gets.
  destruct (isCapacitor (getPlatformInfo pf)), (isElectron (getPlatformInfo pf)),
    (electronAPI pf); reflexivity.
Qed.

Lemma setItem_after (pf : Platform) (key value : string) (w : World) :
  after (setItem pf key value) w
  = if uses_ipc pf
    then set_secureStorage (<[STORAGE_PREFIX +:+ key := value]> (secureStorage w)) w
    else set_localStorage (<[STORAGE_PREFIX +:+ key := value]> (localStorage w)) w.
Proof.
  unfold after, uses_ipc, setItem, localStorage_setItem, ipc_storage_set, modify.
  destruct (isCapacitor (getPlatformInfo pf)), (isElectron (getPlatformInfo pf)),
    (electronAPI pf); reflexivity.
Qed.

(** X1: a value written with [setItem] is what [getItem] then reads under
    the same key, on every host and backend, with one exception: the
    Electron IPC store without [safeStorage] reports a stored empty string
    as missing.  Other keys read as before, and the vault's runtime state
    is not touched. *)
Theorem X1_setItem_then_getItem (pf : Platform) (key value : string) (w : World) :
  fst (setItem pf key value w) = Return tt
  /\ fst (getItem pf key (after (setItem pf key value) w))
     = Return (if uses_ipc pf && negb (safeStorage_isEncryptionAvailable pf)
                  && falsy value
               then None else Some value)
  /\ (forall key', key' <> key ->
        fst (getItem pf key' (after (setItem pf key value) w))
        = fst (getItem pf key' w))
  /\ runtime (after (setItem pf key value) w) = runtime w.
Proof.
  split_conj.
  - destruct (setItem_spec pf key value w) as (w' & -> & _). reflexivity.
  - rewrite getItem_spec, uses_ipc_stored, setItem_after. simpl.
    destruct (uses_ipc pf); simpl; rewrite lookup_insert_eq; [|reflexivity].
    destruct (safeStorage_isEncryptionAvailable pf); simpl; [reflexivity|].
    now destruct (falsy value).
  - intros key' Hne. rewrite !getItem_spec. simpl. f_equal.
    destruct (setItem_spec pf key value w) as (w' & E & _ & _ & _ & _ & _ & _ & Hother).
    unfold after. rewrite E. simpl. now apply Hother.
  - rewrite setItem_after. now destruct (uses_ipc pf).
Qed.

Lemma X1_setItem_then_getItem_witness :
  fst (getItem Small.platform "biometric_dont_ask"
         (after (setItem Small.platform "biometric_dont_ask" "true") Small.locked))
  = Return (Some "true")
  /\ fst (getItem Small.platform VAULT_KEY
            (after (setItem Small.platform "biometric_dont_ask" "true") Small.locked))
     = fst (getItem Small.platform VAULT_KEY Small.locked).
Proof.
  destruct (X1_setItem_then_getItem Small.platform "biometric_dont_ask" "true"
              Small.locked) as (_ & Hread & Hother & _).
  split; [exact Hread | apply Hother; discriminate].
Defined.

Lemma removeItem_after (pf : Platform) (key : string) (w : World) :
  after (removeItem pf key) w
  = if uses_ipc pf
    then set_secureStorage (delete (STORAGE_PREFIX +:+ key) (secureStorage w)) w
    else set_localStorage (delete (STORAGE_PREFIX +:+ key) (localStorage w)) w.
Proof.
  unfold after, uses_ipc, removeItem, localStorage_removeItem, ipc_storage_remove,
    modify.
  destruct (isCapacitor (getPlatformInfo pf)), (isElectron (getPlatformInfo pf)),
    (electronAPI pf); reflexivity.
Qed.

(** X2: after [removeItem] the key reads as missing, whether or not it was
    stored; every other key reads as before; removing again changes
    nothing; and the vault's runtime state is not touched. *)
Theorem X2_removeItem_removes (pf : Platform) (key : string) (w : World) :
  fst (removeItem pf key w) = Return tt
  /\ fst (getItem pf key (after (removeItem pf key) w)) = Return None
  /\ (forall key', key' <> key ->
        fst (getItem pf key' (after (removeItem pf key) w))
        = fst (getItem pf key' w))
  /\ after (removeItem pf key) (after (removeItem pf key) w)
     = after (removeItem pf key) w
  /\ runtime (after (removeItem pf key) w) = runtime w.
Proof.
  destruct (removeItem_spec pf key w)
    as (w' & E & _ & _ & _ & _ & _ & Hgone & Hother).
  assert (Ew : after (removeItem pf key) w = w') by (unfold after; now rewrite E).
  split_conj.
  - now rewrite E.
  - rewrite getItem_spec, Ew. simpl. now rewrite Hgone.
  - intros key' Hne. rewrite !getItem_spec, Ew. simpl. f_equal. now apply Hother.
  - rewrite !removeItem_after.
    destruct (uses_ipc pf); simpl; unfold set_secureStorage, set_localStorage; simpl;
      f_equal; apply delete_id, lookup_delete_eq.
  - rewrite removeItem_after. now destruct (uses_ipc pf).
Qed.

Lemma X2_removeItem_removes_witness :
  fst (getItem Small.platform VAULT_KEY
         (after (removeItem Small.platform VAULT_KEY) Small.locked)) = Return None
  /\ fst (getItem Small.platform "biometric_dont_ask"
            (after (removeItem Small.platform VAULT_KEY) Small.locked))
     = fst (getItem Small.platform "biometric_dont_ask" Small.locked).
Proof.
  destruct (X2_removeItem_removes Small.platform VAULT_KEY Small.locked)
    as (_ & Hgone & Hother & _).
  split; [exact Hgone | apply Hother; discriminate].
Defined.

Lemma prefixed_full_key (key : string) :
  String.prefix STORAGE_PREFIX (STORAGE_PREFIX +:+ key) = true.
Proof.
  unfold STORAGE_PREFIX. rewrite !append_cons, append_nil. simpl.
  repeat (destruct (ascii_dec _ _) as [_|Hne]; [|now exfalso; apply Hne]).
  now destruct key.
Qed.

Lemma lookup_remove_prefixed (keys : list string) (items : gmap string string)
  (key : string) :
  remove_prefixed keys items !! key
  = if String.prefix STORAGE_PREFIX key && bool_decide (key ∈ keys)
    then None else items !! key.
Proof.
  unfold remove_prefixed. revert items.
  induction keys as [|k keys IH]; intros items; simpl.
  - now rewrite andb_false_r.
  - rewrite IH. destruct (String.prefix STORAGE_PREFIX key) eqn:Hp; simpl.
    2:{ destruct (String.prefix STORAGE_PREFIX k) eqn:Hk; [|reflexivity].
        rewrite lookup_delete_ne; [reflexivity|]. intros ->. congruence. }
    destruct (decide (key = k)) as [->|Hne].
    + rewrite Hp, lookup_delete_eq.
      rewrite (bool_decide_eq_true_2 (k ∈ k :: keys)) by left.
      now destruct (bool_decide (k ∈ keys)).
    + assert (Hin : bool_decide (key ∈ k :: keys) = bool_decide (key ∈ keys)).
      { apply bool_decide_ext. rewrite elem_of_cons. tauto. }
      rewrite Hin. destruct (bool_decide (key ∈ keys)); [reflexivity|].
      destruct (String.prefix STORAGE_PREFIX k); [|reflexivity].
      now rewrite lookup_delete_ne.
Qed.

Lemma clearLocalStorage_lookup (w : World) (key : string) :
  localStorage (after clearLocalStorage w) !! key
  = if String.prefix STORAGE_PREFIX key then None else localStorage w !! key.
Proof.
  unfold after, clearLocalStorage, modify. simpl.
  rewrite lookup_remove_prefixed.
  destruct (String.prefix STORAGE_PREFIX key); [|reflexivity]. simpl.
  case_bool_decide as Hin; [reflexivity|].
  destruct (localStorage w !! key) as [v|] eqn:E; [|reflexivity].
  exfalso. apply Hin. apply list_elem_of_fmap. exists (key, v).
  split; [reflexivity|]. now apply elem_of_map_to_list.
Qed.

Lemma clear_after (pf : Platform) (w : World) :
  after (clear pf) w
  = if uses_ipc pf then set_secureStorage ∅ w else after clearLocalStorage w.
Proof.
  unfold after, uses_ipc, clear, ipc_storage_clear, modify.
  destruct (isCapacitor (getPlatformInfo pf)), (isElectron (getPlatformInfo pf)),
    (electronAPI pf); reflexivity.
Qed.

(** X3: after [StorageService.clear] every key of the application reads as
    missing.  On the [localStorage] backend only the entries whose name
    starts with the prefix [nauth_] are removed, entries of other
    applications are kept; on the Electron IPC backend the whole store of
    the main process is emptied and [localStorage] is left alone.  The
    vault's runtime state is not touched: a vault that was unlocked stays
    unlocked in memory. *)
Theorem X3_clear_removes_every_item (pf : Platform) (w : World) :
  fst (clear pf w) = Return tt
  /\ (forall key, fst (getItem pf key (after (clear pf) w)) = Return None)
  /\ (uses_ipc pf = false ->
        secureStorage (after (clear pf) w) = secureStorage w
        /\ forall name,
             localStorage (after (clear pf) w) !! name
             = if String.prefix STORAGE_PREFIX name then None
               else localStorage w !! name)
  /\ (uses_ipc pf = true ->
        secureStorage (after (clear pf) w) = ∅
        /\ localStorage (after (clear pf) w) = localStorage w)
  /\ runtime (after (clear pf) w) = runtime w.
Proof.
  split_conj.
  - unfold clear, clearLocalStorage, ipc_storage_clear, modify.
    destruct (isCapacitor (getPlatformInfo pf)), (isElectron (getPlatformInfo pf)),
      (electronAPI pf); reflexivity.
  - intros key. rewrite getItem_spec, uses_ipc_stored, clear_after.
    cbn [fst]. destruct (uses_ipc pf).
    + simpl. now rewrite lookup_empty.
    + now rewrite clearLocalStorage_lookup, prefixed_full_key.
  - intros Hb. rewrite clear_after, Hb. split; [reflexivity|].
    intros name. apply clearLocalStorage_lookup.
  - intros Hb. rewrite clear_after, Hb. split; reflexivity.
  - rewrite clear_after. now destruct (uses_ipc pf).
Qed.

Lemma X3_clear_removes_every_item_witness :
  secureStorage (after (clear Small.platform) Small.locked) = ∅
  /\ localStorage (after (clear Small.platform) Small.locked)
     = localStorage Small.locked.
Proof.
  destruct (X3_clear_removes_every_item Small.platform Small.locked)
    as (_ & _ & _ & Hipc & _).
  apply Hipc. reflexivity.
Defined.

(** ** The small platform obeys the laws of the stored vault *)

Lemma small_get_Z (z : Z) : Small.get_Z (Z_toString z) = Some z.
Proof.
  unfold Small.get_Z, Z_toString.
  destruct (to_int_not_nil z).
  rewrite NilZero.isi by assumption. simpl. now rewrite DecimalZ.of_to.
Qed.

Lemma small_get_account (a : Account.t) (rest : string) :
  Small.get_account (Small.put_account a rest) = Some (a, rest).
Proof.
  destruct a as [id name issuer secret type algorithm digits period counter
                   createdAt updatedAt].
  unfold Small.get_account, Small.put_account. cbn [Account.id Account.name
    Account.issuer Account.secret Account.type Account.algorithm Account.digits
    Account.period Account.counter Account.createdAt Account.updatedAt].
  repeat (rewrite small_get_put; cbn [mbind option_bind]).
  assert (Ht : Small.get_type (Small.put_type type) = Some type) by now destruct type.
  assert (Ha : Small.get_algorithm (Small.put_algorithm algorithm) = Some algorithm)
    by now destruct algorithm.
  rewrite Ht. cbn [mbind option_bind].
  repeat (rewrite small_get_put; cbn [mbind option_bind]).
  rewrite Ha. cbn [mbind option_bind].
  repeat (first [rewrite small_get_put | rewrite small_get_Z];
          cbn [mbind option_bind]).
  reflexivity.
Qed.

Lemma small_put_not_bracket (s rest : string) :
  String.eqb (Small.put s rest) "]" = false.
Proof. unfold Small.put. now destruct s. Qed.

Lemma small_get_accounts (l : list Account.t) (fuel : nat) :
  (length l <= fuel)%nat ->
  Small.get_accounts fuel (fold_right Small.put_account "]" l) = Some l.
Proof.
  revert fuel. induction l as [|a l IH]; intros fuel Hfuel.
  - now destruct fuel.
  - destruct fuel as [|fuel]; [simpl in Hfuel; lia|].
    cbn [fold_right Small.get_accounts].
    unfold Small.put_account at 1. rewrite small_put_not_bracket.
    fold (Small.put_account a (fold_right Small.put_account "]" l)).
    rewrite small_get_account. cbn [mbind option_bind].
    rewrite IH by (simpl in Hfuel; lia). reflexivity.
Qed.

Lemma small_length_put (s rest : string) :
  (String.length rest < String.length (Small.put s rest))%nat.
Proof.
  unfold Small.put.
  assert (H : forall n r, (String.length r <= String.length (Small.ones n r))%nat).
  { induction n as [|n IH]; intros r; simpl; [lia|]. specialize (IH r). lia. }
  specialize (H (String.length s) (String "0" (s +:+ rest))).
  simpl in H. rewrite length_append in H. lia.
Qed.

Lemma small_length_put_account (a : Account.t) (rest : string) :
  (String.length rest < String.length (Small.put_account a rest))%nat.
Proof.
  unfold Small.put_account.
  repeat first [ apply small_length_put
               | eapply Nat.lt_trans; [|apply small_length_put] ].
Qed.

Lemma small_length_accounts (l : list Account.t) :
  (length l <= String.length (fold_right Small.put_account "]" l))%nat.
Proof.
  induction l as [|a l IH]; simpl; [lia|].
  pose proof (small_length_put_account a (fold_right Small.put_account "]" l)).
  lia.
Qed.

Lemma small_store_laws : StoreLaws Small.platform.
Proof.
  split.
  - intros [a b c d e]. simpl.
    repeat (rewrite small_get_put; simpl). reflexivity.
  - intros x. apply small_put_not_empty.
  - intros l. simpl. apply small_get_accounts, small_length_accounts.
Qed.

(** ** The stored vault record *)

Lemma persisted_same_stores (pf : Platform) (w w' : World) (password : string)
  (accs : list Account.t) :
  same_stores w w' -> persisted pf w password accs -> persisted pf w' password accs.
Proof.
  intros [Hl Hs] (vault & Hv & Hd). exists vault. split; [|exact Hd].
  now rewrite (stored_same_stores pf w w' VAULT_KEY Hl Hs).
Qed.

(** A [saveVault] that returns has written a record that decrypts, under the
    password in memory, to the accounts in memory. *)
Lemma saveVault_returned (pf : Platform) (HL : Laws pf) (HS : StoreLaws pf)
  (w w' : World) :
  saveVault pf w = (Return tt, w') ->
  exists password,
    masterPassword w = Some password /\ password <> "" /\ isUnlocked w = true
    /\ masterPassword w' = masterPassword w /\ accounts w' = accounts w
    /\ isUnlocked w' = true /\ heap w' = heap w
    /\ persisted pf w' password (accounts_of w)
    /\ (forall key, key <> VAULT_KEY -> stored pf w' key = stored pf w key).
Proof.
  unfold saveVault, json_accounts, json_vault.
  unfold bind at 1, gets at 1. unfold bind at 1, gets at 1.
  destruct (masterPassword w) as [password|] eqn:Hpw; [|discriminate].
  destruct (isUnlocked w) eqn:Hun; [|discriminate].
  destruct (falsy password) eqn:Hf; [discriminate|]. cbn [negb orb].
  unfold bind at 1, gets at 1.
  destruct (encrypt_returns pf (JSON_stringify (JSON := JSON_Accounts pf) (accounts_of w)) password None None w)
    as (saltBytes & ivBytes & w1 & Henc & E1 & E2 & E3 & E4 & El & Es & _).
  rewrite (@bind_returns _ _ _ _ _ _ _ Henc).
  match goal with
  | |- setItem pf VAULT_KEY ?v w1 = _ -> _ =>
      destruct (setItem_spec pf VAULT_KEY v w1)
        as (w2 & -> & F1 & F2 & F3 & F4 & _ & Hkey & Hother)
  end.
  intros [= <-]. exists password. split_conj; try congruence.
  - now apply falsy_false.
  - eexists. split.
    + apply Hkey. apply (law_JSON_Vault_text HS).
    + cbn [EncryptedVault.data EncryptedVault.salt EncryptedVault.iv
           EncryptedVault.hmac].
      fold (decrypt_envelope pf
              (envelope pf (JSON_stringify (JSON := JSON_Accounts pf) (accounts_of w)) password saltBytes ivBytes)
              password).
      rewrite (decrypt_encrypted HL).
      now rewrite (proj2 (falsy_false _) (law_JSON_Accounts_text HL (accounts_of w))).
  - intros key Hne. rewrite Hother by assumption.
    now apply stored_same_stores.
Qed.

(** With the flag set and a non-empty password in memory, [saveVault]
    returns. *)
Lemma saveVault_unlocked (pf : Platform) (w : World) (password : string) :
  isUnlocked w = true -> masterPassword w = Some password -> password <> "" ->
  exists w', saveVault pf w = (Return tt, w').
Proof.
  intros Hun Hpw Hne.
  destruct (saveVault_spec pf w) as (r & w' & E & _ & _ & _ & _ & _ & _ & Hok).
  destruct (Hok password Hun Hpw Hne) as [-> _]. now exists w'.
Qed.

(** Without the flag, or without a non-empty password in memory,
    [saveVault] throws and writes nothing. *)
Lemma saveVault_locked (pf : Platform) (w : World) :
  isUnlocked w = false \/ masterPassword w = None \/ masterPassword w = Some "" ->
  saveVault pf w = (Throw vault_is_locked, w).
Proof.
  unfold saveVault, bind, gets, throw.
  intros [H | [H | H]]; rewrite H; simpl.
  - destruct (masterPassword w) as [p|]; reflexivity.
  - reflexivity.
  - now destruct (isUnlocked w).
Qed.

(** [unlockVault] on a record that decrypts. *)
Lemma unlockVault_persisted (pf : Platform) (HS : StoreLaws pf) (w : World)
  (password : string) (accs : list Account.t) :
  persisted pf w password accs ->
  exists w',
    unlockVault pf password w = (Return true, w')
    /\ accounts_of w' = accs /\ masterPassword w' = Some password
    /\ isUnlocked w' = true /\ same_stores w w' /\ tick w' = tick w.
Proof.
  intros (vault & Hv & Hd). unfold unlockVault.
  rewrite (@bind_returns _ _ _ _ _ _ _ (getItem_spec pf VAULT_KEY w)), Hv.
  rewrite (proj2 (falsy_false _) (law_JSON_Vault_text HS vault)).
  unfold try_catch, parse, json_vault, json_accounts.
  rewrite (law_JSON_Vault HS). cbn [or_throw].
  rewrite bind_lift, bind_lift, Hd, bind_lift, (law_JSON_Accounts HS).
  cbn [or_throw]. unfold bind, new_array, modify, ret. simpl.
  eexists. split; [reflexivity|]. unfold same_stores. heap_simpl.
  split_conj; reflexivity.
Qed.

(** [unlockVault] without a record. *)
Lemma unlockVault_missing (pf : Platform) (w : World) (password : string) :
  stored pf w VAULT_KEY = None ->
  unlockVault pf password w = (Throw (Error "Vault does not exist"), w).
Proof.
  intros Hv. unfold unlockVault.
  now rewrite (@bind_returns _ _ _ _ _ _ _ (getItem_spec pf VAULT_KEY w)), Hv.
Qed.

Lemma initialize_spec (pf : Platform) (w : World) :
  initialize pf w = (Return (bool_decide (is_Some (stored pf w VAULT_KEY))), w).
Proof.
  unfold initialize.
  now rewrite (@bind_returns _ _ _ _ _ _ _ (getItem_spec pf VAULT_KEY w)).
Qed.

Lemma saveVault_saved (pf : Platform) (HL : Laws pf) (HS : StoreLaws pf)
  (w w' : World) :
  saveVault pf w = (Return tt, w') -> saved pf w'.
Proof.
  intros Hsave.
  destruct (@saveVault_returned pf HL HS w w' Hsave)
    as (password & Hpw & Hne & _ & Hpw' & Hacc & Hun & Hheap & Hp & _).
  exists password. split_conj; try congruence.
  unfold accounts_of, array_at in *. now rewrite Hacc, Hheap.
Qed.

Lemma bind_returned {A B} (m : M A) (k : A -> M B) (w w' : World) (b : B) :
  bind m k w = (Return b, w') ->
  exists a w1, m w = (Return a, w1) /\ k a w1 = (Return b, w').
Proof.
  unfold bind. destruct (m w) as [[a|e] w1]; [|discriminate]. eauto.
Qed.

Lemma mutate_saved (pf : Platform) (HL : Laws pf) (HS : StoreLaws pf)
  (m : mutation) (w w' : World) :
  mutate pf m w = (Return tt, w') -> saved pf w'.
Proof.
  destruct m as [password|account|id updates|id|currentPassword newPassword];
    cbn [mutate].
  - unfold createVault. rewrite (@bind_returns _ _ _ _ _ _ _ (initialize_spec pf w)).
    destruct (bool_decide _); [discriminate|].
    intros H. apply bind_returned in H as (_ & w1 & _ & H).
    apply bind_returned in H as (_ & w2 & _ & H).
    apply bind_returned in H as (_ & w3 & _ & H).
    exact (@saveVault_saved pf HL HS _ _ H).
  - intros H. apply bind_returned in H as (a & w1 & H & [= <-]).
    unfold addAccount in H. apply bind_returned in H as (unlocked & w2 & _ & H).
    destruct (negb unlocked); [discriminate|].
    apply bind_returned in H as (? & w3 & _ & H).
    apply bind_returned in H as (? & w4 & _ & H).
    apply bind_returned in H as (? & w5 & _ & H).
    apply bind_returned in H as (? & w6 & _ & H).
    apply bind_returned in H as ([] & w7 & H & [= _ <-]).
    exact (@saveVault_saved pf HL HS _ _ H).
  - unfold updateAccount. intros H.
    apply bind_returned in H as (unlocked & w1 & _ & H).
    destruct (negb unlocked); [discriminate|].
    apply bind_returned in H as (accounts_ & w2 & _ & H).
    destruct (findIndex _ accounts_); [|discriminate].
    apply bind_returned in H as (? & w3 & _ & H).
    apply bind_returned in H as (? & w4 & _ & H).
    exact (@saveVault_saved pf HL HS _ _ H).
  - unfold deleteAccount. intros H.
    apply bind_returned in H as (unlocked & w1 & _ & H).
    destruct (negb unlocked); [discriminate|].
    apply bind_returned in H as (accounts_ & w2 & _ & H).
    destruct (findIndex _ accounts_); [|discriminate].
    apply bind_returned in H as (? & w3 & _ & H).
    exact (@saveVault_saved pf HL HS _ _ H).
  - intros H. apply bind_returned in H as (changed & w1 & H & Hc).
    destruct changed; [|discriminate]. injection Hc as <-.
    unfold changeMasterPassword in H.
    apply bind_returned in H as (unlocked & w2 & _ & H).
    destruct (negb unlocked); [discriminate|].
    apply bind_returned in H as (pw & w3 & _ & H).
    destruct (negb (bool_decide _)); [discriminate|].
    apply bind_returned in H as (? & w4 & _ & H).
    apply bind_returned in H as ([] & w5 & H & [= <-]).
    exact (@saveVault_saved pf HL HS _ _ H).
Qed.

(** X4: whatever has been written survives the loss of the in-memory
    state.  When [createVault], [addAccount], [updateAccount],
    [deleteAccount] or a successful [changeMasterPassword] returns, the
    vault is unlocked under a non-empty master password, and from any later
    state with the same stored data (after [lockVault], after a restart of
    the application) [unlockVault] with that password returns [true] and
    restores exactly the account list the operation left in memory. *)
Theorem X4_returned_mutations_are_durable (pf : Platform) (HL : Laws pf)
  (HS : StoreLaws pf) (m : mutation) (w w' : World) :
  mutate pf m w = (Return tt, w') ->
  exists password,
    masterPassword w' = Some password /\ password <> "" /\ isUnlocked w' = true
    /\ forall w'', same_stores w' w'' ->
         fst (unlockVault pf password w'') = Return true
         /\ runtime (after (unlockVault pf password) w'')
            = (accounts_of w', Some password, true).
Proof.
  intros Hm. destruct (@mutate_saved pf HL HS _ _ _ Hm) as (password & Hpw & Hne & Hun & Hp).
  exists password. split_conj; try assumption.
  intros w'' Hsame. apply (@persisted_same_stores pf _ _ _ _ Hsame) in Hp.
  destruct (@unlockVault_persisted pf HS _ _ _ Hp) as (w3 & E & Hacc & Hpw3 & Hun3 & _).
  unfold after, runtime. rewrite E. simpl. split; [reflexivity|]. congruence.
Qed.

Lemma X4_returned_mutations_are_durable_witness :
  exists password,
    masterPassword Small.with_github = Some password /\ password <> ""
    /\ isUnlocked Small.with_github = true
    /\ forall w'', same_stores Small.with_github w'' ->
         fst (unlockVault Small.platform password w'') = Return true
         /\ runtime (after (unlockVault Small.platform password) w'')
            = (accounts_of Small.with_github, Some password, true).
Proof.
  apply (X4_returned_mutations_are_durable small_laws small_store_laws
           (AddAccount Small.github) Small.created).
  vm_compute. reflexivity.
Defined.

(** ** Creating, re-keying and deleting the vault *)

Lemma createVault_fresh (pf : Platform) (password : string) (w : World) :
  stored pf w VAULT_KEY = None ->
  exists w0,
    createVault pf password w = saveVault pf w0
    /\ accounts_of w0 = [] /\ masterPassword w0 = Some password
    /\ isUnlocked w0 = true /\ same_stores w w0.
Proof.
  intros Hv. unfold createVault.
  rewrite (@bind_returns _ _ _ _ _ _ _ (initialize_spec pf w)), Hv.
  rewrite bool_decide_eq_false_2 by (intros [? ?]; discriminate).
  unfold bind, new_array, modify. simpl.
  eexists. split; [reflexivity|]. unfold same_stores. heap_simpl.
  split_conj; reflexivity.
Qed.

(** X5: [createVault] refuses to replace a stored record, throwing
    [Vault already exists] and changing nothing.  Without a record and
    with a non-empty password it returns, leaves an unlocked, empty vault
    under that password, and has stored a record that decrypts under the
    password to the empty list, so that [initialize] reports a vault from
    then on; no other stored item is touched.  With the empty password it
    throws [Vault is locked] after having set the flag: the vault is then
    unlocked in memory under the empty password, and nothing is stored. *)
Theorem X5_createVault (pf : Platform) (HL : Laws pf) (HS : StoreLaws pf)
  (password : string) (w : World) :
  (stored pf w VAULT_KEY <> None ->
     createVault pf password w = (Throw (Error "Vault already exists"), w))
  /\ (stored pf w VAULT_KEY = None -> password <> "" ->
        fst (createVault pf password w) = Return tt
        /\ runtime (after (createVault pf password) w) = ([], Some password, true)
        /\ persisted pf (after (createVault pf password) w) password []
        /\ fst (initialize pf (after (createVault pf password) w)) = Return true
        /\ forall key, key <> VAULT_KEY ->
             stored pf (after (createVault pf password) w) key = stored pf w key)
  /\ (stored pf w VAULT_KEY = None -> password = "" ->
        fst (createVault pf password w) = Throw vault_is_locked
        /\ runtime (after (createVault pf password) w) = ([], Some "", true)
        /\ same_stores w (after (createVault pf password) w)).
Proof.
  split_conj.
  - intros Hv. unfold createVault.
    rewrite (@bind_returns _ _ _ _ _ _ _ (initialize_spec pf w)).
    rewrite bool_decide_eq_true_2; [reflexivity|].
    destruct (stored pf w VAULT_KEY); [eauto | congruence].
  - intros Hv Hne.
    destruct (createVault_fresh pf password w Hv)
      as (w0 & E & Hacc & Hpw & Hun & Hl & Hs).
    destruct (saveVault_unlocked pf w0 Hun Hpw Hne) as (w' & Hsave).
    destruct (@saveVault_returned pf HL HS w0 w' Hsave)
      as (p & Hp & _ & _ & Hpw' & Hacc' & Hun' & Hheap & Hper & Hother).
    assert (p = password) as -> by congruence.
    unfold after. rewrite E, Hsave. simpl. split_conj.
    + reflexivity.
    + unfold runtime, accounts_of, array_at in *.
      rewrite Hacc', Hheap, Hacc, Hun'. congruence.
    + now rewrite Hacc in Hper.
    + rewrite initialize_spec. simpl. destruct Hper as (vault & -> & _).
      now rewrite bool_decide_eq_true_2 by eauto.
    + intros key Hkey. rewrite Hother by assumption.
      now apply stored_same_stores.
  - intros Hv ->.
    destruct (createVault_fresh pf "" w Hv) as (w0 & E & Hacc & Hpw & Hun & Hsame).
    unfold after. rewrite E, saveVault_locked by auto. simpl.
    unfold runtime. rewrite Hacc, Hpw, Hun. auto.
Qed.

Lemma X5_createVault_witness :
  fst (createVault Small.platform "correct-horse-battery" Small.fresh) = Return tt
  /\ runtime (after (createVault Small.platform "correct-horse-battery") Small.fresh)
     = ([], Some "correct-horse-battery", true)
  /\ persisted Small.platform
       (after (createVault Small.platform "correct-horse-battery") Small.fresh)
       "correct-horse-battery" []
  /\ fst (initialize Small.platform
            (after (createVault Small.platform "correct-horse-battery") Small.fresh))
     = Return true
  /\ forall key, key <> VAULT_KEY ->
       stored Small.platform
         (after (createVault Small.platform "correct-horse-battery") Small.fresh) key
       = stored Small.platform Small.fresh key.
Proof.
  apply (X5_createVault small_laws small_store_laws "correct-horse-battery"
           Small.fresh).
  - vm_compute. reflexivity.
  - discriminate.
Defined.

(** X6: [addAccount] is not undone when the save fails.  In a vault whose
    flag is set but whose master password is absent or empty (the state
    [createVault] with the empty password leaves behind), [addAccount]
    throws [Vault is locked] and writes nothing to storage, yet the new
    account has been pushed and stays in the in-memory list. *)
Theorem X6_addAccount_stays_in_memory_when_save_fails (pf : Platform)
  (account : AccountData.t) (w : World) :
  isUnlocked w = true ->
  masterPassword w = None \/ masterPassword w = Some "" ->
  fst (addAccount pf account w) = Throw vault_is_locked
  /\ accounts_of (after (addAccount pf account) w)
     = (accounts_of w ++ [admitted pf (tick w) account])%list
  /\ same_stores w (after (addAccount pf account) w).
Proof.
  intros Hun Hpw.
  unfold after, addAccount, generateId, bind, gets, draw, ret, update_array, modify.
  rewrite Hun. simpl.
  rewrite saveVault_locked by (simpl; auto).
  simpl. unfold same_stores. heap_simpl. split_conj; reflexivity.
Qed.

Lemma X6_addAccount_stays_in_memory_when_save_fails_witness :
  fst (addAccount Small.platform Small.github
         (after (createVault Small.platform "") Small.fresh))
  = Throw vault_is_locked
  /\ accounts_of (after (addAccount Small.platform Small.github)
                    (after (createVault Small.platform "") Small.fresh))
     = (accounts_of (after (createVault Small.platform "") Small.fresh)
        ++ [admitted Small.platform
              (tick (after (createVault Small.platform "") Small.fresh))
              Small.github])%list
  /\ same_stores (after (createVault Small.platform "") Small.fresh)
       (after (addAccount Small.platform Small.github)
          (after (createVault Small.platform "") Small.fresh)).
Proof.
  apply X6_addAccount_stays_in_memory_when_save_fails.
  - vm_compute. reflexivity.
  - right. vm_compute. reflexivity.
Defined.

Lemma changeMasterPassword_unlocked (pf : Platform)
  (currentPassword newPassword : string) (w : World) :
  isUnlocked w = true ->
  changeMasterPassword pf currentPassword newPassword w
  = if bool_decide (Some currentPassword = masterPassword w)
    then bind (saveVault pf) (fun _ => ret true)
           (set_masterPassword (Some newPassword) w)
    else (Return false, w).
Proof.
  intros Hun. unfold changeMasterPassword.
  unfold bind at 1, gets at 1. rewrite Hun. cbn [negb].
  unfold bind at 1, gets at 1.
  now destruct (bool_decide (Some currentPassword = masterPassword w)).
Qed.

(** X7: [changeMasterPassword] on an unlocked vault.  With a current
    password other than the one in memory it returns [false] and changes
    nothing.  With the right one and a non-empty new password it returns
    [true], keeps the accounts, and has stored a record that decrypts under
    the new password to those accounts; no other stored item is touched.
    With the right one and the empty new password it throws
    [Vault is locked] after having replaced the password in memory by the
    empty string: storage still holds the record under the old password. *)
Theorem X7_changeMasterPassword (pf : Platform) (HL : Laws pf) (HS : StoreLaws pf)
  (currentPassword newPassword : string) (w : World) :
  isUnlocked w = true ->
  (masterPassword w <> Some currentPassword ->
     changeMasterPassword pf currentPassword newPassword w = (Return false, w))
  /\ (masterPassword w = Some currentPassword -> newPassword <> "" ->
        fst (changeMasterPassword pf currentPassword newPassword w) = Return true
        /\ runtime (after (changeMasterPassword pf currentPassword newPassword) w)
           = (accounts_of w, Some newPassword, true)
        /\ persisted pf (after (changeMasterPassword pf currentPassword newPassword) w)
             newPassword (accounts_of w)
        /\ forall key, key <> VAULT_KEY ->
             stored pf (after (changeMasterPassword pf currentPassword newPassword) w)
               key
             = stored pf w key)
  /\ (masterPassword w = Some currentPassword -> newPassword = "" ->
        changeMasterPassword pf currentPassword newPassword w
        = (Throw vault_is_locked, set_masterPassword (Some "") w)).
Proof.
  intros Hun. rewrite !changeMasterPassword_unlocked by assumption. split_conj.
  - intros Hpw. rewrite bool_decide_eq_false_2 by congruence. reflexivity.
  - intros Hpw Hne. unfold after.
    rewrite !changeMasterPassword_unlocked by assumption.
    rewrite bool_decide_eq_true_2 by congruence.
    set (w0 := set_masterPassword (Some newPassword) w).
    destruct (saveVault_unlocked pf w0 Hun eq_refl Hne) as (w' & Hsave).
    destruct (@saveVault_returned pf HL HS w0 w' Hsave)
      as (p & Hp & _ & _ & Hpw' & Hacc' & Hun' & Hheap & Hper & Hother).
    injection Hp as <-.
    unfold after, bind. rewrite Hsave. simpl. split_conj.
    + reflexivity.
    + unfold runtime, accounts_of, array_at. rewrite Hacc', Hheap, Hun', Hpw'.
      reflexivity.
    + exact Hper.
    + intros key Hkey. rewrite Hother by assumption. now apply stored_same_stores.
  - intros Hpw ->. rewrite bool_decide_eq_true_2 by congruence.
    unfold bind. rewrite saveVault_locked by (simpl; auto). reflexivity.
Qed.

Lemma X7_changeMasterPassword_witness :
  fst (changeMasterPassword Small.platform "correct-horse-battery" "tr0ub4dor&3"
         Small.with_github) = Return true
  /\ runtime (after (changeMasterPassword Small.platform "correct-horse-battery"
                       "tr0ub4dor&3") Small.with_github)
     = (accounts_of Small.with_github, Some "tr0ub4dor&3", true)
  /\ persisted Small.platform
       (after (changeMasterPassword Small.platform "correct-horse-battery"
                 "tr0ub4dor&3") Small.with_github)
       "tr0ub4dor&3" (accounts_of Small.with_github)
  /\ forall key, key <> VAULT_KEY ->
       stored Small.platform
         (after (changeMasterPassword Small.platform "correct-horse-battery"
                   "tr0ub4dor&3") Small.with_github) key
       = stored Small.platform Small.with_github key.
Proof.
  apply (X7_changeMasterPassword small_laws small_store_laws
           "correct-horse-battery" "tr0ub4dor&3" Small.with_github).
  - vm_compute. reflexivity.
  - vm_compute. reflexivity.
  - discriminate.
Defined.

Lemma lockVault_spec (w : World) :
  exists w',
    lockVault w = (Return tt, w')
    /\ accounts_of w' = [] /\ isUnlocked w' = false
    /\ same_stores w w' /\ tick w' = tick w.
Proof.
  unfold lockVault, bind, new_array, modify, gets, wipeString, ret, same_stores,
    accounts_of, array_at.
  simpl. destruct (masterPassword w) as [password|]; simpl.
  - destruct (falsy password); simpl; eexists; (split; [reflexivity|]); simpl;
      rewrite lookup_insert_eq; auto.
  - eexists; (split; [reflexivity|]); simpl; rewrite lookup_insert_eq; auto.
Qed.

(** X8: [deleteVault] returns from any state; afterwards the vault is
    locked with an empty in-memory list, there is no vault record
    ([initialize] reports none, and [unlockVault] throws
    [Vault does not exist] for every password).  Every other stored item
    is left as it was: the biometric flag and the session record that
    holds the encrypted master password stay in storage. *)
Theorem X8_deleteVault (pf : Platform) (w : World) :
  fst (deleteVault pf w) = Return tt
  /\ isUnlocked (after (deleteVault pf) w) = false
  /\ accounts_of (after (deleteVault pf) w) = []
  /\ fst (initialize pf (after (deleteVault pf) w)) = Return false
  /\ (forall password,
        fst (unlockVault pf password (after (deleteVault pf) w))
        = Throw (Error "Vault does not exist"))
  /\ (forall key, key <> VAULT_KEY ->
        stored pf (after (deleteVault pf) w) key = stored pf w key).
Proof.
  unfold after, deleteVault, bind.
  destruct (lockVault_spec w) as (w1 & -> & Hacc & Hun & (Hl & Hs) & _).
  destruct (removeItem_spec pf VAULT_KEY w1)
    as (w2 & -> & _ & Hacc2 & Hun2 & Hheap & _ & Hgone & Hother).
  cbn [fst snd]. split_conj.
  - reflexivity.
  - congruence.
  - unfold accounts_of, array_at in *. now rewrite Hacc2, Hheap.
  - rewrite initialize_spec, Hgone. cbn [fst].
    now rewrite bool_decide_eq_false_2 by (intros [? ?]; discriminate).
  - intros password. now rewrite unlockVault_missing.
  - intros key Hkey. rewrite Hother by assumption. now apply stored_same_stores.
Qed.

Lemma X8_deleteVault_witness :
  stored Small.platform (after (deleteVault Small.platform) Sample.enabled)
    SESSION_KEY_STORAGE
  = stored Small.platform Sample.enabled SESSION_KEY_STORAGE.
Proof.
  destruct (X8_deleteVault Small.platform Sample.enabled)
    as (_ & _ & _ & _ & _ & Hother).
  apply Hother. discriminate.
Defined.

(** ** Updating and deleting accounts *)

Lemma findIndex_first {A} (p : A -> bool) (before : list A) (x : A) (rest : list A) :
  p x = true -> Forall (fun a => p a = false) before ->
  findIndex p (before ++ x :: rest)%list = Some (length before).
Proof.
  intros Hx Hb. induction Hb as [|y before Hy _ IH]; simpl.
  - now rewrite Hx.
  - now rewrite Hy, IH.
Qed.

Lemma findIndex_None {A} (p : A -> bool) (xs : list A) :
  find p xs = None -> findIndex p xs = None.
Proof.
  induction xs as [|x xs IH]; simpl; [reflexivity|].
  destruct (p x); [discriminate|]. intros H. now rewrite IH.
Qed.

Lemma find_none_Forall {A} (p : A -> bool) (xs : list A) :
  Forall (fun a => p a = false) xs -> find p xs = None.
Proof. induction 1 as [|x xs Hx _ IH]; simpl; [reflexivity|]. now rewrite Hx. Qed.

Lemma first_with_id_findIndex (id : string) (accounts before : list Account.t)
  (account : Account.t) (rest : list Account.t) :
  first_with_id id accounts before account rest ->
  findIndex (fun acc => String.eqb (Account.id acc) id) accounts
  = Some (length before)
  /\ find (fun acc => String.eqb (Account.id acc) id) accounts = Some account.
Proof.
  intros (-> & Hid & Hb). split.
  - apply findIndex_first; [now apply String.eqb_eq|].
    eapply Forall_impl; [exact Hb|]. intros a Ha. now apply String.eqb_neq.
  - induction Hb as [|y before Hy _ IH]; simpl.
    + now rewrite (proj2 (String.eqb_eq _ _) Hid).
    + now rewrite (proj2 (String.eqb_neq _ _) Hy).
Qed.

Lemma take_drop_middle_app {A} (before : list A) (x : A) (rest : list A) :
  (take (length before) (before ++ x :: rest)
   ++ drop (S (length before)) (before ++ x :: rest))%list
  = (before ++ rest)%list.
Proof.
  rewrite take_app_length.
  change (S (length before)) with (1 + length before)%nat.
  rewrite Nat.add_comm, <- drop_drop, drop_app_length. reflexivity.
Qed.

Lemma saveVault_keeps (pf : Platform) (w : World) :
  accounts_of (after (saveVault pf) w) = accounts_of w
  /\ masterPassword (after (saveVault pf) w) = masterPassword w
  /\ isUnlocked (after (saveVault pf) w) = isUnlocked w.
Proof.
  destruct (saveVault_spec pf w) as (r & w' & E & Hpw & Hacc & Hun & Hheap & _).
  unfold after, accounts_of, array_at. rewrite E. cbn [snd].
  now rewrite Hpw, Hacc, Hun, Hheap.
Qed.

Lemma deleteAccount_found (pf : Platform) (id : string) (w : World) (index : nat) :
  isUnlocked w = true ->
  findIndex (fun acc => String.eqb (Account.id acc) id) (accounts_of w) = Some index ->
  exists w0,
    deleteAccount pf id w = saveVault pf w0
    /\ accounts_of w0
       = (take index (accounts_of w) ++ drop (S index) (accounts_of w))%list
    /\ masterPassword w0 = masterPassword w /\ isUnlocked w0 = true
    /\ same_stores w w0 /\ tick w0 = tick w.
Proof.
  intros Hun Hindex.
  unfold deleteAccount, bind, gets, update_array, modify. rewrite Hun. simpl.
  rewrite Hindex. eexists. split; [reflexivity|].
  unfold same_stores, accounts_of at 1, array_at at 1. simpl.
  rewrite lookup_insert_eq. split_conj; try reflexivity; assumption.
Qed.

Lemma updateAccount_found (pf : Platform) (id : string) (updates : Partial.t)
  (w : World) (index : nat) :
  isUnlocked w = true ->
  findIndex (fun acc => String.eqb (Account.id acc) id) (accounts_of w) = Some index ->
  exists w0,
    updateAccount pf id updates w = saveVault pf w0
    /\ accounts_of w0
       = match accounts_of w !! index with
         | Some old =>
             <[index := spread old updates (Date_now pf (tick w))]> (accounts_of w)
         | None => accounts_of w
         end
    /\ masterPassword w0 = masterPassword w /\ isUnlocked w0 = true
    /\ same_stores w w0 /\ tick w0 = S (tick w).
Proof.
  intros Hun Hindex.
  unfold updateAccount, bind, gets, draw, update_array, modify. rewrite Hun. simpl.
  rewrite Hindex. eexists. split; [reflexivity|].
  unfold same_stores, accounts_of at 1, array_at at 1. simpl.
  rewrite lookup_insert_eq. split_conj; try reflexivity; assumption.
Qed.

Lemma not_found (pf : Platform) (id : string) (w : World) :
  isUnlocked w = true ->
  fst (getAccount id w) = Return None ->
  findIndex (fun acc => String.eqb (Account.id acc) id) (accounts_of w) = None.
Proof.
  intros Hun. unfold getAccount, bind, gets, ret. rewrite Hun. simpl.
  intros [= Hfind]. now apply findIndex_None.
Qed.

Lemma getAccount_unlocked (id : string) (w : World) :
  isUnlocked w = true ->
  getAccount id w
  = (Return (find (fun acc => String.eqb (Account.id acc) id) (accounts_of w)), w).
Proof. intros Hun. unfold getAccount, bind, gets, ret. now rewrite Hun. Qed.

(** X9: [deleteAccount] on a vault unlocked under a non-empty password.
    When no account has the id (when [getAccount] returns nothing) it
    throws [Account not found] and changes nothing.  Otherwise it returns
    and removes exactly the first account with that id: the accounts
    before it and after it are kept, in order; and when no later account
    carries the same id, [getAccount] no longer finds the id. *)
Theorem X9_deleteAccount (pf : Platform) (id password : string) (w : World) :
  isUnlocked w = true -> masterPassword w = Some password -> password <> "" ->
  (fst (getAccount id w) = Return None ->
     deleteAccount pf id w = (Throw (Error "Account not found"), w))
  /\ (forall before account rest,
        first_with_id id (accounts_of w) before account rest ->
        fst (getAccount id w) = Return (Some account)
        /\ fst (deleteAccount pf id w) = Return tt
        /\ accounts_of (after (deleteAccount pf id) w) = (before ++ rest)%list
        /\ (Forall (fun acc => Account.id acc <> id) rest ->
              fst (getAccount id (after (deleteAccount pf id) w)) = Return None)).
Proof.
  intros Hun Hpw Hne. split.
  - intros Hnone. apply (not_found pf) in Hnone; [|assumption].
    unfold deleteAccount, bind, gets, throw. rewrite Hun. simpl. now rewrite Hnone.
  - intros before account rest Hfirst.
    destruct (first_with_id_findIndex Hfirst) as [Hindex Hfind].
    rewrite getAccount_unlocked, Hfind by assumption.
    split; [reflexivity|].
    destruct (deleteAccount_found pf id w Hun Hindex)
      as (w0 & E & Hacc & Hpw0 & Hun0 & _).
    rewrite Hpw in Hpw0.
    destruct (saveVault_unlocked pf w0 Hun0 Hpw0 Hne) as (w' & Hsave).
    destruct (saveVault_keeps pf w0) as (Hacc' & _ & Hun').
    unfold after in *. rewrite E, Hsave in *. cbn [fst snd] in *.
    assert (Hlist : accounts_of w' = (before ++ rest)%list).
    { rewrite Hacc', Hacc. destruct Hfirst as (-> & _).
      apply take_drop_middle_app. }
    split_conj; [reflexivity | exact Hlist |].
    intros Hrest. rewrite getAccount_unlocked by congruence. cbn [fst].
    rewrite Hlist. f_equal. apply find_none_Forall.
    destruct Hfirst as (_ & _ & Hb).
    apply Forall_app. split; (eapply Forall_impl; [eassumption|]);
      intros a Ha; now apply String.eqb_neq.
Qed.

Lemma X9_deleteAccount_witness :
  fst (getAccount (Account.id Sample.gitlab_account) Small.other_device)
  = Return (Some Sample.gitlab_account)
  /\ fst (deleteAccount Small.platform (Account.id Sample.gitlab_account)
            Small.other_device) = Return tt
  /\ accounts_of (after (deleteAccount Small.platform
                           (Account.id Sample.gitlab_account)) Small.other_device)
     = ([Sample.github_account] ++ [Sample.bank_account])%list
  /\ (Forall (fun acc => Account.id acc <> Account.id Sample.gitlab_account)
        [Sample.bank_account] ->
      fst (getAccount (Account.id Sample.gitlab_account)
             (after (deleteAccount Small.platform
                       (Account.id Sample.gitlab_account)) Small.other_device))
      = Return None).
Proof.
  apply (proj2 (@X9_deleteAccount Small.platform
                  (Account.id Sample.gitlab_account) "another-password"
                  Small.other_device eq_refl eq_refl ltac:(discriminate))).
  unfold first_with_id. split_conj.
  - vm_compute. reflexivity.
  - reflexivity.
  - repeat constructor. vm_compute. discriminate.
Defined.

Lemma lookup_middle_app {A} (before : list A) (x : A) (rest : list A) :
  (before ++ x :: rest)%list !! length before = Some x.
Proof. induction before as [|y before IH]; [reflexivity | exact IH]. Qed.

Lemma insert_middle_app {A} (before : list A) (x y : A) (rest : list A) :
  <[length before := y]> (before ++ x :: rest)%list = (before ++ y :: rest)%list.
Proof.
  induction before as [|z before IH]; [reflexivity|].
  simpl. f_equal. exact IH.
Qed.

Lemma updateAccount_first (pf : Platform) (id password : string)
  (updates : Partial.t) (w : World) (before : list Account.t) (old : Account.t)
  (rest : list Account.t) :
  isUnlocked w = true -> masterPassword w = Some password -> password <> "" ->
  first_with_id id (accounts_of w) before old rest ->
  exists w',
    updateAccount pf id updates w = (Return tt, w')
    /\ accounts_of w'
       = (before ++ spread old updates (Date_now pf (tick w)) :: rest)%list.
Proof.
  intros Hun Hpw Hne Hfirst.
  destruct (first_with_id_findIndex Hfirst) as [Hindex _].
  destruct (updateAccount_found pf id updates w Hun Hindex)
    as (w0 & E & Hacc & Hpw0 & Hun0 & _).
  rewrite Hpw in Hpw0.
  destruct (saveVault_unlocked pf w0 Hun0 Hpw0 Hne) as (w' & Hsave).
  destruct (saveVault_keeps pf w0) as (Hacc' & _).
  unfold after in Hacc'. rewrite Hsave in Hacc'. cbn [snd] in Hacc'.
  exists w'. split; [congruence|].
  rewrite Hacc', Hacc. destruct Hfirst as (-> & _).
  now rewrite lookup_middle_app, insert_middle_app.
Qed.

(** X10: [updateAccount] on a vault unlocked under a non-empty password.
    When no account has the id it throws [Account not found] and changes
    nothing.  Otherwise it returns and replaces exactly the first account
    with that id, in place: the fields named in the update take the new
    values, the others keep theirs, and [updatedAt] is the current time,
    whatever the update said about it; every other account is kept, in
    order. *)
Theorem X10_updateAccount (pf : Platform) (id password : string)
  (updates : Partial.t) (w : World) :
  isUnlocked w = true -> masterPassword w = Some password -> password <> "" ->
  (fst (getAccount id w) = Return None ->
     updateAccount pf id updates w = (Throw (Error "Account not found"), w))
  /\ (forall before old rest,
        first_with_id id (accounts_of w) before old rest ->
        fst (updateAccount pf id updates w) = Return tt
        /\ accounts_of (after (updateAccount pf id updates) w)
           = (before ++ spread old updates (Date_now pf (tick w)) :: rest)%list
        /\ Account.updatedAt (spread old updates (Date_now pf (tick w)))
           = Date_now pf (tick w)).
Proof.
  intros Hun Hpw Hne. split.
  - intros Hnone. apply (not_found pf) in Hnone; [|assumption].
    unfold updateAccount, bind, gets, throw. rewrite Hun. simpl. now rewrite Hnone.
  - intros before old rest Hfirst.
    destruct (@updateAccount_first pf id password updates w _ _ _ Hun Hpw Hne Hfirst)
      as (w' & E & Hacc).
    unfold after. rewrite E. auto.
Qed.

Lemma X10_updateAccount_witness :
  fst (updateAccount Small.platform (Account.id Sample.gitlab_account)
         Sample.rename Small.other_device) = Return tt
  /\ accounts_of (after (updateAccount Small.platform
                           (Account.id Sample.gitlab_account) Sample.rename)
                    Small.other_device)
     = ([Sample.github_account]
        ++ spread Sample.gitlab_account Sample.rename
             (Date_now Small.platform (tick Small.other_device))
        :: [Sample.bank_account])%list
  /\ Account.updatedAt
       (spread Sample.gitlab_account Sample.rename
          (Date_now Small.platform (tick Small.other_device)))
     = Date_now Small.platform (tick Small.other_device).
Proof.
  apply (proj2 (@X10_updateAccount Small.platform
                  (Account.id Sample.gitlab_account) "another-password"
                  Sample.rename Small.other_device
                  eq_refl eq_refl ltac:(discriminate))).
  unfold first_with_id. split_conj.
  - vm_compute. reflexivity.
  - reflexivity.
  - repeat constructor. vm_compute. discriminate.
Defined.

Lemma JS_plus_exact (a b : Z) :
  - 2 ^ 53 <= a + b <= 2 ^ 53 -> JS_plus a b = a + b.
Proof.
  intros H. unfold JS_plus, round_to_double.
  destruct (Z.abs (a + b) <=? 2 ^ 53) eqn:E; [reflexivity|].
  apply Z.leb_gt in E. lia.
Qed.

(** X11: [incrementHOTPCounter] on a vault unlocked under a non-empty
    password.  For an id that no account has, and for an id whose first
    account is a TOTP account, it throws [Account is not HOTP] and changes
    nothing.  For an id whose first account is an HOTP account it returns
    and that account's counter becomes [counter + 1] as JavaScript adds
    numbers: larger by exactly one while the counter is below 2^53 in
    magnitude, and unchanged once the counter has reached 2^53, where the
    sum rounds back to the counter.  Its [updatedAt] is the current time;
    all its other fields and all other accounts are as before. *)
Theorem X11_incrementHOTPCounter (pf : Platform) (id password : string) (w : World) :
  isUnlocked w = true -> masterPassword w = Some password -> password <> "" ->
  (fst (getAccount id w) = Return None ->
     incrementHOTPCounter pf id w = (Throw not_hotp_error, w))
  /\ (forall before account rest,
        first_with_id id (accounts_of w) before account rest ->
        (Account.type account = totp ->
           incrementHOTPCounter pf id w = (Throw not_hotp_error, w))
        /\ (Account.type account = hotp ->
              fst (incrementHOTPCounter pf id w) = Return tt
              /\ (exists counter',
                    accounts_of (after (incrementHOTPCounter pf id) w)
                    = (before
                       ++ {| Account.id := Account.id account;
                             Account.name := Account.name account;
                             Account.issuer := Account.issuer account;
                             Account.secret := Account.secret account;
                             Account.type := hotp;
                             Account.algorithm := Account.algorithm account;
                             Account.digits := Account.digits account;
                             Account.period := Account.period account;
                             Account.counter := counter';
                             Account.createdAt := Account.createdAt account;
                             Account.updatedAt := Date_now pf (tick w) |}
                       :: rest)%list
                    /\ counter' = JS_plus (Account.counter account) 1
                    /\ (- 2 ^ 53 < Account.counter account < 2 ^ 53 ->
                          counter' = Account.counter account + 1)
                    /\ (Account.counter account = 2 ^ 53 ->
                          counter' = Account.counter account)))).
Proof.
  intros Hun Hpw Hne. unfold incrementHOTPCounter. split.
  - intros Hnone. rewrite getAccount_unlocked in Hnone by assumption.
    injection Hnone as Hnone.
    rewrite (@bind_returns _ _ _ _ _ _ _ (getAccount_unlocked id w Hun)).
    now rewrite Hnone.
  - intros before account rest Hfirst.
    destruct (first_with_id_findIndex Hfirst) as [_ Hfind]. split.
    + intros Htype.
      rewrite (@bind_returns _ _ _ _ _ _ _ (getAccount_unlocked id w Hun)).
      now rewrite Hfind, Htype.
    + intros Htype. unfold after.
      rewrite !(@bind_returns _ _ _ _ _ _ _ (getAccount_unlocked id w Hun)).
      rewrite Hfind, Htype. cbn [is_hotp negb].
      destruct (@updateAccount_first pf id password
                  (only_counter (JS_plus (Account.counter account) 1)) w _ _ _
                  Hun Hpw Hne Hfirst) as (w' & -> & Hacc).
      cbn [fst snd]. split; [reflexivity|].
      exists (JS_plus (Account.counter account) 1). split_conj.
      * rewrite Hacc. unfold spread, only_counter. simpl. now rewrite Htype.
      * reflexivity.
      * intros Hsafe. apply JS_plus_exact. lia.
      * intros ->. vm_compute. reflexivity.
Qed.

Lemma X11_incrementHOTPCounter_witness :
  fst (incrementHOTPCounter Small.platform (Account.id Sample.bank_account)
         Small.other_device) = Return tt
  /\ map Account.counter
       (accounts_of (after (incrementHOTPCounter Small.platform
                              (Account.id Sample.bank_account)) Small.other_device))
     = [0; 0; 5].
Proof.
  destruct (proj2 (proj2 (@X11_incrementHOTPCounter Small.platform
                            (Account.id Sample.bank_account) "another-password"
                            Small.other_device
                            eq_refl eq_refl ltac:(discriminate))
                     [Sample.github_account; Sample.gitlab_account]
                     Sample.bank_account []
                     ltac:(unfold first_with_id; split_conj;
                           [ vm_compute; reflexivity | reflexivity
                           | repeat constructor; vm_compute; discriminate ]))
              eq_refl) as (Hreturns & counter' & Hlist & _ & Hsafe & _).
  split; [exact Hreturns|].
  rewrite Hlist, Hsafe by (vm_compute; split; reflexivity).
  reflexivity.
Defined.

(** ** The locked vault *)

(** X12: while the vault is locked, every operation that reads or changes
    the accounts throws and leaves everything as it was: [getAccounts],
    [getAccount], [addAccount], [updateAccount], [deleteAccount],
    [exportVault], [changeMasterPassword], [saveVault],
    [incrementHOTPCounter], [search] and [getStats] throw
    [Vault is locked], [importVault] throws
    [Vault must be unlocked to import], and [getMasterPassword] returns
    nothing. *)
Theorem X12_locked_vault_refuses (pf : Platform) (w : World) :
  isUnlocked w = false ->
  getAccounts w = (Throw vault_is_locked, w)
  /\ (forall id, getAccount id w = (Throw vault_is_locked, w))
  /\ (forall account, addAccount pf account w = (Throw vault_is_locked, w))
  /\ (forall id updates, updateAccount pf id updates w = (Throw vault_is_locked, w))
  /\ (forall id, deleteAccount pf id w = (Throw vault_is_locked, w))
  /\ (forall transferPassword,
        exportVault pf transferPassword w = (Throw vault_is_locked, w))
  /\ (forall currentPassword newPassword,
        changeMasterPassword pf currentPassword newPassword w
        = (Throw vault_is_locked, w))
  /\ saveVault pf w = (Throw vault_is_locked, w)
  /\ (forall exportedData transferPassword,
        importVault pf exportedData transferPassword w
        = (Throw (Error "Vault must be unlocked to import"), w))
  /\ getMasterPassword w = (Return None, w)
  /\ (forall id, incrementHOTPCounter pf id w = (Throw vault_is_locked, w))
  /\ (forall toLowerCase query,
        search toLowerCase query w = (Throw vault_is_locked, w))
  /\ getStats w = (Throw vault_is_locked, w).
Proof.
  intros Hlocked. split_conj; intros;
    unfold getAccounts, getAccount, addAccount, updateAccount, deleteAccount,
      exportVault, changeMasterPassword, importVault, getMasterPassword,
      incrementHOTPCounter, search, getStats, getAccounts, getAccount,
      bind, gets, throw, ret;
    rewrite ?Hlocked; simpl; try reflexivity.
  - now destruct (masterPassword w).
  - now apply saveVault_locked; left.
Qed.

Lemma X12_locked_vault_refuses_witness :
  getAccounts Small.locked = (Throw vault_is_locked, Small.locked)
  /\ (forall account,
        addAccount Small.platform account Small.locked
        = (Throw vault_is_locked, Small.locked))
  /\ getMasterPassword Small.locked = (Return None, Small.locked).
Proof.
  destruct (X12_locked_vault_refuses Small.platform Small.locked eq_refl)
    as (H1 & _ & H3 & _ & _ & _ & _ & _ & _ & H10 & _).
  exact (conj H1 (conj H3 H10)).
Defined.

(** ** AccountService.getStats and AccountService.search *)

Lemma new_array_keeps (xs : list Account.t) (w : World) :
  (accounts_of w = [] -> xs = []) ->
  accounts_of (after (new_array xs) w) = accounts_of w.
Proof.
  intros Hxs. unfold after, new_array, accounts_of, array_at in *. simpl.
  destruct (decide (fresh (dom (heap w)) = accounts w)) as [E|E].
  - rewrite E, lookup_insert_eq. simpl.
    pose proof (fresh_location_unused w) as Hnone. rewrite E in Hnone.
    rewrite Hnone in *. simpl in *. auto.
  - now rewrite lookup_insert_ne.
Qed.

Lemma getAccounts_unlocked (w : World) :
  isUnlocked w = true ->
  exists r w',
    getAccounts w = (Return r, w')
    /\ array_at w' r = accounts_of w /\ accounts_of w' = accounts_of w
    /\ masterPassword w' = masterPassword w /\ isUnlocked w' = true
    /\ same_stores w w' /\ tick w' = tick w.
Proof.
  intros Hun. unfold getAccounts, bind, gets, new_array. rewrite Hun. simpl.
  eexists _, _. split; [reflexivity|].
  unfold same_stores, accounts_of, array_at. simpl. rewrite lookup_insert_eq.
  split_conj; try reflexivity; try assumption.
  destruct (decide (fresh (dom (heap w)) = accounts w)) as [E|E].
  - rewrite E, lookup_insert_eq. reflexivity.
  - now rewrite lookup_insert_ne.
Qed.

Lemma length_filter_split {A} (p q : A -> bool) (xs : list A) :
  (forall x, q x = negb (p x)) ->
  (length (List.filter p xs) + length (List.filter q xs))%nat = length xs.
Proof.
  intros Hq. induction xs as [|x xs IH]; simpl; [reflexivity|].
  rewrite (Hq x). destruct (p x); simpl; lia.
Qed.

Lemma size_list_to_set_le (l : list string) :
  (size (list_to_set l : gset string) <= length l)%nat.
Proof.
  induction l as [|x l IH].
  - rewrite list_to_set_nil, size_empty. simpl. lia.
  - rewrite list_to_set_cons, size_union_alt, size_singleton. simpl.
    assert (H : (size ((list_to_set l : gset string) ∖ {[x]})
                 <= size (list_to_set l : gset string))%nat).
    { apply subseteq_size, subseteq_difference_l. reflexivity. }
    lia.
Qed.

(** X13: on an unlocked vault [getStats] returns; [total] is the number of
    accounts in the vault, the TOTP and HOTP counts add up to it, the
    number of distinct issuers is at most [total] and at least one as soon
    as there is an account; the vault's runtime state and storage are left
    as they were. *)
Theorem X13_getStats_adds_up (w : World) :
  isUnlocked w = true ->
  exists stats,
    fst (getStats w) = Return stats
    /\ total stats = Z.of_nat (length (accounts_of w))
    /\ totpCount stats + hotpCount stats = total stats
    /\ issuers stats <= total stats
    /\ (0 < total stats -> 1 <= issuers stats)
    /\ runtime (after getStats w) = runtime w
    /\ same_stores w (after getStats w).
Proof.
  intros Hun.
  destruct (getAccounts_unlocked w Hun)
    as (r & w' & E & Hr & Hacc & Hpw & Hun' & Hsame & _).
  unfold after, getStats, bind, read_array, gets, ret. rewrite E. simpl.
  rewrite Hr. eexists. split; [reflexivity|]. simpl. split_conj.
  - reflexivity.
  - rewrite <- Nat2Z.inj_add. f_equal. apply length_filter_split.
    intros x. now destruct (Account.type x).
  - apply inj_le. rewrite <- (length_map Account.issuer (accounts_of w)).
    apply size_list_to_set_le.
  - intros Hpos. destruct (accounts_of w) as [|a l]; [simpl in Hpos; lia|].
    cbn [map]. rewrite list_to_set_cons, size_union_alt, size_singleton. lia.
  - unfold runtime. now rewrite Hacc, Hpw, Hun', Hun.
  - exact Hsame.
Qed.

Lemma X13_getStats_adds_up_witness :
  exists stats,
    fst (getStats Small.other_device) = Return stats
    /\ total stats = Z.of_nat (length (accounts_of Small.other_device))
    /\ totpCount stats + hotpCount stats = total stats
    /\ issuers stats <= total stats
    /\ (0 < total stats -> 1 <= issuers stats)
    /\ runtime (after getStats Small.other_device) = runtime Small.other_device
    /\ same_stores Small.other_device (after getStats Small.other_device).
Proof. apply X13_getStats_adds_up. reflexivity. Defined.

Lemma includes_empty (s : string) : includes "" s = true.
Proof. now destruct s. Qed.

Lemma filter_all {A} (p : A -> bool) (xs : list A) :
  (forall x, p x = true) -> List.filter p xs = xs.
Proof.
  intros Hp. induction xs as [|x xs IH]; simpl; [reflexivity|].
  now rewrite Hp, IH.
Qed.

(** X14: on an unlocked vault [search] returns a new array holding, in
    vault order, exactly the accounts whose lower-cased name or issuer
    contains the lower-cased query; a query whose lower-cased form is empty
    returns every account; two queries with the same lower-cased form
    return the same accounts; the vault's runtime state and storage are
    left as they were. *)
Theorem X14_search_filters (toLowerCase : string -> string) (query : string)
  (w : World) :
  isUnlocked w = true ->
  exists r,
    fst (search toLowerCase query w) = Return r
    /\ array_at (after (search toLowerCase query) w) r
       = List.filter
           (fun account =>
              includes (toLowerCase query) (toLowerCase (Account.name account))
              || includes (toLowerCase query) (toLowerCase (Account.issuer account)))
           (accounts_of w)
    /\ (toLowerCase query = "" ->
          array_at (after (search toLowerCase query) w) r = accounts_of w)
    /\ (forall query' r',
          toLowerCase query' = toLowerCase query ->
          fst (search toLowerCase query' w) = Return r' ->
          array_at (after (search toLowerCase query') w) r'
          = array_at (after (search toLowerCase query) w) r)
    /\ runtime (after (search toLowerCase query) w) = runtime w
    /\ same_stores w (after (search toLowerCase query) w).
Proof.
  intros Hun.
  destruct (getAccounts_unlocked w Hun)
    as (r0 & w0 & E & Hr & Hacc & Hpw & Hun0 & (Hl & Hs) & _).
  assert (Hsearch : forall q,
    search toLowerCase q w
    = new_array
        (List.filter
           (fun account =>
              includes (toLowerCase q) (toLowerCase (Account.name account))
              || includes (toLowerCase q) (toLowerCase (Account.issuer account)))
           (accounts_of w)) w0).
  { intros q. unfold search, bind, read_array, gets. rewrite E. simpl.
    now rewrite Hr. }
  unfold after. rewrite Hsearch. unfold new_array at 1 2 3 4 5. cbn [fst snd].
  eexists. split; [reflexivity|].
  assert (Hread : forall xs,
    array_at (set_heap (<[fresh (dom (heap w0)) := xs]> (heap w0)) w0)
      (fresh (dom (heap w0))) = xs).
  { intros xs. unfold array_at. simpl. now rewrite lookup_insert_eq. }
  split_conj.
  - apply Hread.
  - intros Hq. rewrite Hread, Hq. apply filter_all. intros x.
    now rewrite includes_empty.
  - intros query' r' Hq. rewrite Hsearch. unfold new_array. cbn [fst snd].
    intros [= <-]. now rewrite !Hread, Hq.
  - unfold runtime. cbn [masterPassword isUnlocked set_heap]. rewrite Hpw, Hun0, Hun.
    f_equal. f_equal. rewrite <- Hacc.
    match goal with
    | |- accounts_of (set_heap (<[_ := ?xs]> _) _) = _ =>
        apply (@new_array_keeps xs w0)
    end.
    now intros ->.
  - split; simpl; assumption.
Qed.

Lemma X14_search_filters_witness :
  exists r,
    fst (search Sample.lower "GIT" Small.other_device) = Return r
    /\ array_at (after (search Sample.lower "GIT") Small.other_device) r
       = [Sample.github_account; Sample.gitlab_account].
Proof.
  destruct (X14_search_filters Sample.lower "GIT" Small.other_device eq_refl)
    as (r & Hr & Hlist & _).
  exists r. split; [exact Hr|]. rewrite Hlist. vm_compute. reflexivity.
Defined.

(** ** OTPService.formatCode *)

Lemma substring_split (n : nat) (s : string) :
  (n <= String.length s)%nat ->
  s = JS_substring 0 n s +:+ JS_substring_from n s
  /\ String.length (JS_substring 0 n s) = n.
Proof.
  unfold JS_substring, JS_substring_from. rewrite Nat.sub_0_r.
  revert s. induction n as [|n IH]; intros s Hn.
  - rewrite Nat.sub_0_r. destruct s as [|c s]; [now split|].
    simpl. split; [|reflexivity]. rewrite append_nil. f_equal.
    clear. induction s as [|d s IH]; simpl; [reflexivity | now rewrite <- IH].
  - destruct s as [|c s]; [simpl in Hn; lia|].
    simpl in Hn. destruct (IH s ltac:(lia)) as [Hs Hl].
    simpl. rewrite append_cons. split; [now rewrite <- Hs | now rewrite Hl].
Qed.

(** X15: [formatCode] only inserts one space.  A code of six, seven or
    eight characters is cut after its third character (after the fourth for
    eight) and the two parts are joined by a single space, no character
    lost or reordered; a code of any other length is returned as it is. *)
Theorem X15_formatCode_inserts_one_space (code : string) :
  ((6 <= String.length code <= 8)%nat ->
     exists left right,
       code = left +:+ right
       /\ formatCode code = left +:+ " " +:+ right
       /\ String.length left = if (String.length code =? 8)%nat then 4%nat else 3%nat)
  /\ (~ (6 <= String.length code <= 8)%nat -> formatCode code = code).
Proof.
  unfold formatCode. split.
  - intros Hlen.
    destruct (String.length code =? 6)%nat eqn:E6;
      [|destruct (String.length code =? 7)%nat eqn:E7;
        [|destruct (String.length code =? 8)%nat eqn:E8]].
    + apply Nat.eqb_eq in E6. rewrite E6. simpl.
      destruct (@substring_split 3 code ltac:(lia)) as [Hs Hl]. eauto.
    + apply Nat.eqb_eq in E7. rewrite E7. simpl.
      destruct (@substring_split 3 code ltac:(lia)) as [Hs Hl]. eauto.
    + destruct (@substring_split 4 code ltac:(lia)) as [Hs Hl]. eauto.
    + apply Nat.eqb_neq in E6, E7, E8. lia.
  - intros Hlen.
    destruct (String.length code =? 6)%nat eqn:E6;
      [apply Nat.eqb_eq in E6; lia|].
    destruct (String.length code =? 7)%nat eqn:E7;
      [apply Nat.eqb_eq in E7; lia|].
    destruct (String.length code =? 8)%nat eqn:E8;
      [apply Nat.eqb_eq in E8; lia|].
    reflexivity.
Qed.

Lemma X15_formatCode_inserts_one_space_witness :
  exists left right,
    "12345678" = left +:+ right
    /\ formatCode "12345678" = left +:+ " " +:+ right
    /\ String.length left = 4%nat.
Proof.
  apply (proj1 (X15_formatCode_inserts_one_space "12345678")).
  simpl. lia.
Defined.

(** ** Base64 of byte arrays *)

(** X16: the two Base64 helpers of the encryption service are inverse on
    byte arrays: [base64ToUint8Array(arrayBufferToBase64(buffer))] returns
    the bytes of [buffer], for every buffer; this is what lets [decrypt]
    recover the salt and the IV that [encrypt] wrote into the envelope. *)
Theorem X16_base64_round_trip (pf : Platform) (HL : Laws pf) (buffer : Uint8Array) :
  base64ToUint8Array pf (arrayBufferToBase64 pf buffer) = Return buffer
  /\ forall data password iv w,
       let e := fst (encrypt pf data password (Some buffer) iv w) in
       exists envelope_,
         e = Return envelope_
         /\ base64ToUint8Array pf (Encrypted.salt envelope_) = Return buffer.
Proof.
  split.
  - apply base64_of_buffer, (law_atob_btoa HL).
  - intros data password iv w.
    unfold encrypt, generateIV, bind, ret, draw.
    destruct iv as [i|]; simpl; eexists; (split; [reflexivity|]); simpl;
      apply base64_of_buffer, (law_atob_btoa HL).
Qed.

Lemma X16_base64_round_trip_witness :
  base64ToUint8Array Small.platform
    (arrayBufferToBase64 Small.platform [Byte.x00; Byte.x7f; Byte.xff])
  = Return [Byte.x00; Byte.x7f; Byte.xff].
Proof.
  apply (proj1 (X16_base64_round_trip small_laws [Byte.x00; Byte.x7f; Byte.xff])).
Defined.

(** ** Biometric unlock on the hosts, and after a password change *)

Lemma same_memory_runtime (w w' : World) : same_memory w w' -> runtime w' = runtime w.
Proof.
  intros (Hpw & Hacc & Hun & Hheap). unfold runtime, accounts_of, array_at.
  now rewrite Hpw, Hacc, Hun, Hheap.
Qed.

Lemma same_memory_trans (w1 w2 w3 : World) :
  same_memory w1 w2 -> same_memory w2 w3 -> same_memory w1 w3.
Proof. unfold same_memory. intros (? & ? & ? & ?) (? & ? & ? & ?). split_conj; congruence. Qed.

Lemma stored_same (pf : Platform) (w w' : World) (key : string) :
  same_stores w w' -> stored pf w' key = stored pf w key.
Proof. intros [Hl Hs]. now apply stored_same_stores. Qed.

Lemma authenticate_keeps (pf : Platform) (reason : string) (w : World) :
  exists (b : bool) (w' : World),
    authenticate pf reason w = (Return b, w')
    /\ same_memory w w' /\ same_stores w w'
    /\ (challenge_always_succeeds pf -> b = true)
    /\ (no_biometric_prompt pf -> b = false /\ w' = w).
Proof.
  unfold authenticate, draw, ret, challenge_always_succeeds, no_biometric_prompt,
    same_memory, same_stores.
  simpl.
  destruct (window_process_renderer pf), (electronAPI pf);
    try (destruct (bool_decide _)); eexists _, _;
    (split; [reflexivity|]); simpl; split_conj; try reflexivity;
    try (intros (? & ? & Hprompt); try discriminate; apply Hprompt);
    try (intros ?; try discriminate; split; reflexivity).
Qed.

Lemma isEnabled_spec (pf : Platform) (w : World) :
  isEnabled pf w
  = (Return (bool_decide (stored pf w BIOMETRIC_KEY_STORAGE = Some "true")), w).
Proof.
  unfold isEnabled.
  now rewrite (@bind_returns _ _ _ _ _ _ _ (getItem_spec pf BIOMETRIC_KEY_STORAGE w)).
Qed.

(** [unlock] never throws and never writes. *)
Lemma unlock_returns (pf : Platform) (w : World) :
  exists r w', unlock pf w = (Return r, w') /\ same_memory w w' /\ same_stores w w'.
Proof.
  unfold unlock, try_catch.
  rewrite (@bind_returns _ _ _ _ _ _ _ (isEnabled_spec pf w)).
  destruct (bool_decide _); cbn [negb].
  2:{ eexists _, _. split; [reflexivity|]. now split; [split_conj | split]. }
  destruct (authenticate_keeps pf "Unlock nAuth" w) as (b & w1 & Hauth & Hm & Hs & _).
  rewrite (@bind_returns _ _ _ _ _ _ _ Hauth).
  destruct b; cbn [negb]; [|eexists _, _; split; [reflexivity|]; now split].
  rewrite (@bind_returns _ _ _ _ _ _ _ (getItem_spec pf SESSION_KEY_STORAGE w1)).
  destruct (stored pf w1 SESSION_KEY_STORAGE) as [sessionData|];
    [|eexists _, _; split; [reflexivity|]; now split].
  destruct (falsy sessionData); [eexists _, _; split; [reflexivity|]; now split|].
  unfold parse, bind, lift, ret.
  destruct (or_throw SyntaxError (JSON_parse sessionData)) as [session|e];
    [|eexists _, _; split; [reflexivity|]; now split].
  destruct (decrypt pf _ _ _ _ _);
    eexists _, _; (split; [reflexivity|]); now split.
Qed.

Lemma disable_keeps (pf : Platform) (w : World) :
  exists w',
    disable pf w = (Return tt, w')
    /\ same_memory w w'
    /\ stored pf w' BIOMETRIC_KEY_STORAGE = None
    /\ stored pf w' SESSION_KEY_STORAGE = None
    /\ (forall key, key <> BIOMETRIC_KEY_STORAGE -> key <> SESSION_KEY_STORAGE ->
          stored pf w' key = stored pf w key).
Proof.
  unfold disable, bind.
  destruct (removeItem_spec pf BIOMETRIC_KEY_STORAGE w)
    as (w1 & -> & A1 & A2 & A3 & A4 & _ & Hflag & Hother1).
  destruct (removeItem_spec pf SESSION_KEY_STORAGE w1)
    as (w2 & -> & B1 & B2 & B3 & B4 & _ & Hsession & Hother2).
  exists w2. unfold same_memory. split_conj; try congruence.
  - rewrite Hother2 by discriminate. exact Hflag.
  - intros key H1 H2. now rewrite Hother2, Hother1.
Qed.

Lemma enable_keeps (pf : Platform) (HL : Laws pf) (masterPassword_ : string)
  (w : World) :
  challenge_always_succeeds pf ->
  exists w' sessionKey saltBytes ivBytes,
    enable pf masterPassword_ w = (Return true, w')
    /\ same_memory w w'
    /\ stored pf w' BIOMETRIC_KEY_STORAGE = Some "true"
    /\ stored pf w' SESSION_KEY_STORAGE
       = Some (JSON_stringify (JSON := JSON_Session pf)
                 (session_of (envelope pf masterPassword_ sessionKey saltBytes ivBytes)
                    sessionKey))
    /\ (forall key, key <> BIOMETRIC_KEY_STORAGE -> key <> SESSION_KEY_STORAGE ->
          stored pf w' key = stored pf w key).
Proof.
  intros Hok. unfold enable, try_catch.
  destruct (authenticate_keeps pf "Enable biometric unlock" w)
    as (b & w1 & Hauth & (A1 & A2 & A3 & A4) & Hs1 & Hb & _).
  rewrite (Hb Hok) in Hauth. rewrite (@bind_returns _ _ _ _ _ _ _ Hauth). simpl.
  unfold generateTransferKey. unfold bind at 2, draw, ret. simpl.
  unfold bind at 1.
  set (sessionKey := arrayBufferToBase64 pf (getRandomValues pf (tick w1) 32)).
  destruct (encrypt_returns pf masterPassword_ sessionKey None None
              (set_tick (S (tick w1)) w1))
    as (saltBytes & ivBytes & w2 & Henc & B1 & B2 & B3 & B4 & Bl & Bs & _).
  rewrite (@bind_returns _ _ _ _ _ _ _ Henc).
  fold (session_of (envelope pf masterPassword_ sessionKey saltBytes ivBytes) sessionKey).
  match goal with
  | |- context [setItem pf SESSION_KEY_STORAGE ?v] =>
      destruct (setItem_spec pf SESSION_KEY_STORAGE v w2)
        as (w3 & Hset & C1 & C2 & C3 & C4 & _ & Hsession & Hother3)
  end.
  rewrite (@bind_returns _ _ _ _ _ _ _ Hset).
  destruct (setItem_spec pf BIOMETRIC_KEY_STORAGE "true" w3)
    as (w4 & Hset' & D1 & D2 & D3 & D4 & _ & Hflag & Hother4).
  rewrite (@bind_returns _ _ _ _ _ _ _ Hset').
  exists w4, sessionKey, saltBytes, ivBytes. simpl in *.
  unfold same_memory. split_conj; try congruence.
  - apply Hflag. discriminate.
  - rewrite Hother4 by discriminate. apply Hsession.
    apply (law_JSON_Session_text HL).
  - intros key H1 H2. rewrite Hother4, Hother3 by assumption.
    rewrite (stored_same_stores pf (set_tick (S (tick w1)) w1) w2 key Bl Bs).
    apply (stored_same pf (w := w) (w' := set_tick (S (tick w1)) w1)). exact Hs1.
Qed.

(** [enable] never throws, and writes only its two items. *)
Lemma enable_returns (pf : Platform) (masterPassword_ : string) (w : World) :
  exists b w',
    enable pf masterPassword_ w = (Return b, w')
    /\ same_memory w w'
    /\ (forall key, key <> BIOMETRIC_KEY_STORAGE -> key <> SESSION_KEY_STORAGE ->
          stored pf w' key = stored pf w key).
Proof.
  unfold enable, try_catch.
  destruct (authenticate_keeps pf "Enable biometric unlock" w)
    as (b & w1 & Hauth & (A1 & A2 & A3 & A4) & Hs1 & _).
  rewrite (@bind_returns _ _ _ _ _ _ _ Hauth).
  destruct b; cbn [negb].
  2:{ exists false, w1. split; [reflexivity|]. split; [now split_conj|].
      intros key _ _. now apply stored_same. }
  unfold generateTransferKey. unfold bind at 2, draw, ret. simpl.
  unfold bind at 1.
  set (sessionKey := arrayBufferToBase64 pf (getRandomValues pf (tick w1) 32)).
  destruct (encrypt_returns pf masterPassword_ sessionKey None None
              (set_tick (S (tick w1)) w1))
    as (saltBytes & ivBytes & w2 & Henc & B1 & B2 & B3 & B4 & Bl & Bs & _).
  rewrite (@bind_returns _ _ _ _ _ _ _ Henc).
  match goal with
  | |- context [setItem pf SESSION_KEY_STORAGE ?v] =>
      destruct (setItem_spec pf SESSION_KEY_STORAGE v w2)
        as (w3 & Hset & C1 & C2 & C3 & C4 & _ & _ & Hother3)
  end.
  rewrite (@bind_returns _ _ _ _ _ _ _ Hset).
  destruct (setItem_spec pf BIOMETRIC_KEY_STORAGE "true" w3)
    as (w4 & Hset' & D1 & D2 & D3 & D4 & _ & _ & Hother4).
  rewrite (@bind_returns _ _ _ _ _ _ _ Hset').
  exists true, w4. simpl in *.
  unfold same_memory. split_conj; try congruence.
  intros key H1 H2. rewrite Hother4, Hother3 by assumption.
  rewrite (stored_same_stores pf (set_tick (S (tick w1)) w1) w2 key Bl Bs).
  apply (@stored_same pf w (set_tick (S (tick w1)) w1) key). exact Hs1.
Qed.

Lemma enable_refused (pf : Platform) (masterPassword_ : string) (w : World) :
  fst (authenticate pf "Enable biometric unlock" w) = Return false ->
  exists w',
    enable pf masterPassword_ w = (Return false, w')
    /\ same_memory w w' /\ same_stores w w'.
Proof.
  intros Hdenied. unfold enable, try_catch.
  destruct (authenticate_keeps pf "Enable biometric unlock" w)
    as (b & w1 & Hauth & Hm & Hs & _).
  rewrite Hauth in Hdenied. simpl in Hdenied. injection Hdenied as ->.
  rewrite (@bind_returns _ _ _ _ _ _ _ Hauth). simpl.
  exists w1. auto.
Qed.

Lemma unlock_enabled (pf : Platform) (HL : Laws pf) (password sessionKey : string)
  (saltBytes ivBytes : Uint8Array) (w : World) :
  challenge_always_succeeds pf -> password <> "" ->
  stored pf w BIOMETRIC_KEY_STORAGE = Some "true" ->
  stored pf w SESSION_KEY_STORAGE
  = Some (JSON_stringify (JSON := JSON_Session pf)
            (session_of (envelope pf password sessionKey saltBytes ivBytes) sessionKey)) ->
  exists w', unlock pf w = (Return (Some password), w') /\ same_stores w w'.
Proof.
  intros Hok Hne Hflag Hsession.
  destruct (unlock_spec HL _ w Hok Hflag Hsession) as (w' & Hunlock).
  destruct (unlock_returns pf w) as (r & w'' & E & _ & Hs).
  exists w'. rewrite Hunlock in E |- *. unfold session_of in *.
  cbn [Session.encrypted Session.salt Session.iv Session.hmac Session.sessionKey] in *.
  fold (decrypt_envelope pf (envelope pf password sessionKey saltBytes ivBytes)
          sessionKey) in *.
  rewrite (decrypt_encrypted HL) in *.
  rewrite (proj2 (falsy_false password) Hne) in *.
  injection E as _ <-. auto.
Qed.

(** X17: off the desktop there is no biometric unlock.  On a host that is
    not Electron (a browser, a Capacitor shell), or whose preload bridge is
    missing, [authenticate] returns [false] without any prompt, [enable]
    returns [false] and stores nothing, [unlock] returns nothing even when
    the stored flag says biometric unlock is enabled, and the unlock button
    of the sign-in screen ends in [Biometric authentication failed]; none
    of them changes anything. *)
Theorem X17_no_biometric_off_the_desktop (pf : Platform) (w : World) :
  no_biometric_prompt pf ->
  (forall reason, authenticate pf reason w = (Return false, w))
  /\ (forall password, enable pf password w = (Return false, w))
  /\ unlock pf w = (Return None, w)
  /\ handleBiometricUnlock pf w
     = (Return (ShowError "Biometric authentication failed"), w).
Proof.
  intros Hno.
  assert (Hauth : forall reason, authenticate pf reason w = (Return false, w)).
  { intros reason.
    destruct (authenticate_keeps pf reason w) as (b & w' & E & _ & _ & _ & Hb).
    destruct (Hb Hno) as [-> ->]. exact E. }
  assert (Hunlock : unlock pf w = (Return None, w)).
  { unfold unlock, try_catch.
    rewrite (@bind_returns _ _ _ _ _ _ _ (isEnabled_spec pf w)).
    destruct (bool_decide _); cbn [negb]; [|reflexivity].
    now rewrite (@bind_returns _ _ _ _ _ _ _ (Hauth "Unlock nAuth")). }
  split_conj.
  - exact Hauth.
  - intros password. unfold enable, try_catch.
    now rewrite (@bind_returns _ _ _ _ _ _ _ (Hauth "Enable biometric unlock")).
  - exact Hunlock.
  - unfold handleBiometricUnlock, try_catch.
    now rewrite (@bind_returns _ _ _ _ _ _ _ Hunlock).
Qed.

Lemma X17_no_biometric_off_the_desktop_witness :
  (forall password, enable Sample.browser password Sample.in_browser
                    = (Return false, Sample.in_browser))
  /\ unlock Sample.phone Sample.in_browser = (Return None, Sample.in_browser).
Proof.
  split.
  - apply (@X17_no_biometric_off_the_desktop Sample.browser Sample.in_browser).
    reflexivity.
  - apply (@X17_no_biometric_off_the_desktop Sample.phone Sample.in_browser).
    reflexivity.
Defined.

(** X18: [updatePassword] after a change of master password.  When
    biometric unlock is not enabled it returns [true] and changes nothing.
    When it is enabled and the prompt succeeds, it returns [true] and the
    next [unlock] returns the new password (a non-empty one).  When it is
    enabled and the prompt is refused, it returns [false] and biometric
    unlock is left disabled: the flag and the stored session are gone.  In
    every case the vault's runtime state and the vault record are left as
    they were. *)
Theorem X18_updatePassword (pf : Platform) (HL : Laws pf) (newPassword : string)
  (w : World) :
  (stored pf w BIOMETRIC_KEY_STORAGE <> Some "true" ->
     updatePassword pf newPassword w = (Return true, w))
  /\ (stored pf w BIOMETRIC_KEY_STORAGE = Some "true" ->
      challenge_always_succeeds pf -> newPassword <> "" ->
        fst (updatePassword pf newPassword w) = Return true
        /\ fst (unlock pf (after (updatePassword pf newPassword) w))
           = Return (Some newPassword))
  /\ (stored pf w BIOMETRIC_KEY_STORAGE = Some "true" ->
      (forall t reason, biometric_prompt pf t reason = false) ->
        fst (updatePassword pf newPassword w) = Return false
        /\ stored pf (after (updatePassword pf newPassword) w) BIOMETRIC_KEY_STORAGE
           = None
        /\ stored pf (after (updatePassword pf newPassword) w) SESSION_KEY_STORAGE
           = None
        /\ fst (unlock pf (after (updatePassword pf newPassword) w)) = Return None)
  /\ runtime (after (updatePassword pf newPassword) w) = runtime w
  /\ stored pf (after (updatePassword pf newPassword) w) VAULT_KEY
     = stored pf w VAULT_KEY.
Proof.
  assert (Hup : updatePassword pf newPassword w
                = if bool_decide (stored pf w BIOMETRIC_KEY_STORAGE = Some "true")
                  then bind (disable pf) (fun _ => enable pf newPassword) w
                  else (Return true, w)).
  { unfold updatePassword.
    rewrite (@bind_returns _ _ _ _ _ _ _ (isEnabled_spec pf w)).
    now destruct (bool_decide _). }
  destruct (disable_keeps pf w) as (w1 & Hdis & Hm1 & Hflag1 & Hsession1 & Hother1).
  unfold after. rewrite Hup. split_conj.
  - intros Hoff. now rewrite bool_decide_eq_false_2.
  - intros Hon Hok Hne. rewrite bool_decide_eq_true_2 by assumption.
    rewrite (@bind_returns _ _ _ _ _ _ _ Hdis).
    destruct (@enable_keeps pf HL newPassword w1 Hok)
      as (w2 & sessionKey & saltBytes & ivBytes & -> & _ & Hflag & Hsession & _).
    cbn [fst snd]. split; [reflexivity|].
    destruct (@unlock_enabled pf HL newPassword sessionKey saltBytes ivBytes w2
                Hok Hne Hflag Hsession) as (w3 & -> & _).
    reflexivity.
  - intros Hon Hrefuse. rewrite bool_decide_eq_true_2 by assumption.
    rewrite (@bind_returns _ _ _ _ _ _ _ Hdis).
    assert (Hdenied : fst (authenticate pf "Enable biometric unlock" w1)
                      = Return false).
    { unfold authenticate, draw, ret.
      destruct (isElectron (getPlatformInfo pf)), (electronAPI pf),
        (isCapacitor (getPlatformInfo pf)); simpl; now rewrite ?Hrefuse. }
    destruct (enable_refused pf newPassword w1 Hdenied) as (w2 & -> & _ & Hs).
    cbn [fst snd].
    rewrite !(fun key => @stored_same pf w1 w2 key Hs). split_conj; auto.
    rewrite unlock_disabled; [reflexivity|].
    rewrite (@stored_same pf w1 w2 _ Hs), Hflag1. discriminate.
  - destruct (bool_decide _); [|reflexivity].
    rewrite (@bind_returns _ _ _ _ _ _ _ Hdis).
    destruct (enable_returns pf newPassword w1) as (b & w2 & -> & Hm2 & _).
    apply same_memory_runtime. exact (@same_memory_trans w w1 w2 Hm1 Hm2).
  - destruct (bool_decide _); [|reflexivity].
    rewrite (@bind_returns _ _ _ _ _ _ _ Hdis).
    destruct (enable_returns pf newPassword w1) as (b & w2 & -> & _ & Hother2).
    cbn [snd]. rewrite Hother2, Hother1 by discriminate. reflexivity.
Qed.

Lemma X18_updatePassword_witness :
  fst (updatePassword Small.platform "tr0ub4dor&3" Sample.enabled) = Return true
  /\ fst (unlock Small.platform
            (after (updatePassword Small.platform "tr0ub4dor&3") Sample.enabled))
     = Return (Some "tr0ub4dor&3").
Proof.
  apply (X18_updatePassword small_laws "tr0ub4dor&3" Sample.enabled).
  - vm_compute. reflexivity.
  - repeat split.
  - discriminate.
Defined.

(** ** The screens *)

Lemma getMasterPassword_unlocked (w : World) :
  isUnlocked w = true -> getMasterPassword w = (Return (masterPassword w), w).
Proof. intros Hun. unfold getMasterPassword, bind, gets, ret. now rewrite Hun. Qed.

(** X19: biometric unlock, end to end.  From a vault that is unlocked
    under a non-empty password and saved, with a prompt that succeeds, the
    settings screen enables biometric unlock and reports success without
    touching the vault in memory; from then on, in any state with the same
    stored data (after locking, after a restart), the biometric button of
    the sign-in screen goes on to the application with the vault unlocked
    under that password and holding the saved accounts. *)
Theorem X19_biometric_setup_then_unlock (pf : Platform) (HL : Laws pf)
  (HS : StoreLaws pf) (password : string) (accs : list Account.t) (w : World) :
  challenge_always_succeeds pf ->
  isUnlocked w = true -> masterPassword w = Some password -> password <> "" ->
  persisted pf w password accs ->
  fst (Settings_handleEnableBiometric pf w) = Return BiometricEnabled
  /\ runtime (after (Settings_handleEnableBiometric pf) w) = runtime w
  /\ forall w', same_stores (after (Settings_handleEnableBiometric pf) w) w' ->
       fst (handleBiometricUnlock pf w') = Return OnUnlock
       /\ runtime (after (handleBiometricUnlock pf) w') = (accs, Some password, true).
Proof.
  intros Hok Hun Hpw Hne Hper.
  destruct (@enable_keeps pf HL password w Hok)
    as (w1 & sessionKey & saltBytes & ivBytes & Hen & Hm & Hflag & Hsession & Hother).
  assert (Hsettings : Settings_handleEnableBiometric pf w = (Return BiometricEnabled, w1)).
  { unfold Settings_handleEnableBiometric, try_catch.
    rewrite (@bind_returns _ _ _ _ _ _ _ (getMasterPassword_unlocked w Hun)), Hpw.
    rewrite (proj2 (falsy_false password) Hne).
    now rewrite (@bind_returns _ _ _ _ _ _ _ Hen). }
  unfold after at 1 2. rewrite Hsettings. cbn [fst snd].
  split_conj; [reflexivity | now apply same_memory_runtime |].
  intros w' Hsame.
  assert (Hflag' : stored pf w' BIOMETRIC_KEY_STORAGE = Some "true")
    by now rewrite (@stored_same pf w1 w' _ Hsame).
  assert (Hsession' := Hsession).
  rewrite <- (@stored_same pf w1 w' _ Hsame) in Hsession'.
  destruct (@unlock_enabled pf HL password sessionKey saltBytes ivBytes w'
              Hok Hne Hflag' Hsession') as (w2 & Hunlock & Hs2).
  assert (Hper2 : persisted pf w2 password accs).
  { destruct Hper as (vault & Hv & Hd). exists vault. split; [|exact Hd].
    rewrite (@stored_same pf w' w2 _ Hs2), (@stored_same pf w1 w' _ Hsame).
    rewrite Hother by discriminate. exact Hv. }
  destruct (@unlockVault_persisted pf HS w2 password accs Hper2)
    as (w3 & Hvault & Hacc3 & Hpw3 & Hun3 & _).
  unfold after, handleBiometricUnlock, try_catch.
  rewrite (@bind_returns _ _ _ _ _ _ _ Hunlock).
  rewrite (proj2 (falsy_false password) Hne).
  rewrite (@bind_returns _ _ _ _ _ _ _ Hvault). cbn [fst snd ret].
  split; [reflexivity|]. unfold runtime. now rewrite Hacc3, Hpw3, Hun3.
Qed.

Lemma X19_biometric_setup_then_unlock_witness :
  fst (handleBiometricUnlock Small.platform Sample.restarted) = Return OnUnlock
  /\ runtime (after (handleBiometricUnlock Small.platform) Sample.restarted)
     = (accounts_of Small.with_github, Some "correct-horse-battery", true).
Proof.
  refine (proj2 (proj2 (@X19_biometric_setup_then_unlock Small.platform small_laws
                          small_store_laws "correct-horse-battery"
                          (accounts_of Small.with_github) Small.with_github
                          _ eq_refl eq_refl _ _)) Sample.restarted _).
  - repeat split.
  - discriminate.
  - destruct (@mutate_saved Small.platform small_laws small_store_laws
                (AddAccount Small.github) Small.created Small.with_github eq_refl)
      as (password & Hpw & _ & _ & Hper).
    injection Hpw as <-. exact Hper.
  - split; vm_compute; reflexivity.
Defined.

Lemma unlockVault_true (pf : Platform) (password : string) (w w' : World) :
  unlockVault pf password w = (Return true, w') ->
  isUnlocked w' = true /\ masterPassword w' = Some password /\ same_stores w w'.
Proof.
  unfold unlockVault.
  rewrite (@bind_returns _ _ _ _ _ _ _ (getItem_spec pf VAULT_KEY w)).
  destruct (stored pf w VAULT_KEY) as [vaultData|]; [|discriminate].
  destruct (falsy vaultData); [discriminate|].
  unfold try_catch.
  match goal with
  | |- match ?m w with _ => _ end = _ -> _ =>
      destruct (m w) as [[b|e] w1] eqn:E; [|discriminate]
  end.
  intros [= -> ->].
  apply bind_returned in E as (vault & w2 & Hparse & E).
  apply bind_returned in E as (decryptedData & w3 & Hdec & E).
  apply bind_returned in E as (parsed & w4 & Hparse' & E).
  unfold parse, lift in Hparse, Hdec, Hparse'.
  injection Hparse as _ <-. injection Hdec as _ <-. injection Hparse' as _ <-.
  unfold bind, new_array, modify, ret in E. simpl in E. injection E as <-.
  unfold same_stores. simpl. auto.
Qed.

Lemma shouldShowBiometricModal_spec (pf : Platform) (w : World) :
  exists ask, shouldShowBiometricModal pf w = (Return ask, w).
Proof.
  unfold shouldShowBiometricModal.
  rewrite (@bind_returns _ _ _ _ _ _ _ (getItem_spec pf "biometric_dont_ask" w)).
  eexists. reflexivity.
Qed.

(** X20: the sign-in form.  [handleSubmit] never throws.  With no vault
    yet, an empty password, a confirmation that differs, or a password
    shorter than eight characters ends in an error message with nothing
    changed: [createVault] is never reached with such a password.  And
    whenever the screen goes on to the application (directly or through
    the biometric offer, which then carries the typed password), the vault
    is unlocked under the typed password, which is not empty; if the vault
    was being created, the password has at least eight characters, equals
    its confirmation, and the stored record decrypts under it to the empty
    account list. *)
Theorem X20_handleSubmit (pf : Platform) (HL : Laws pf) (HS : StoreLaws pf)
  (vaultExists : bool) (password confirmPassword : string)
  (biometricAvailable biometricEnabled : bool) (w : World) :
  let submit :=
    handleSubmit pf vaultExists password confirmPassword biometricAvailable
      biometricEnabled in
  exists outcome,
    fst (submit w) = Return outcome
    /\ (vaultExists = false ->
        password = "" \/ password <> confirmPassword
        \/ (String.length password < 8)%nat ->
          proceeds outcome = false /\ after submit w = w)
    /\ (proceeds outcome = true ->
          isUnlocked (after submit w) = true
          /\ masterPassword (after submit w) = Some password
          /\ password <> ""
          /\ (forall pending, outcome = OfferBiometric pending -> pending = password)
          /\ (vaultExists = false ->
                (8 <= String.length password)%nat
                /\ confirmPassword = password
                /\ accounts_of (after submit w) = []
                /\ persisted pf (after submit w) password [])).
Proof.
  intros submit. unfold submit, after, handleSubmit.
  destruct (falsy password) eqn:Hf.
  { eexists. split; [reflexivity|]. split; [auto|discriminate]. }
  apply falsy_false in Hf.
  destruct vaultExists; cbn [negb andb].
  - (* unlocking *)
    unfold try_catch.
    destruct (unlockVault pf password w) as [[success|e] w1] eqn:Hu.
    2:{ unfold bind. rewrite Hu. eexists. split; [reflexivity|].
        split; [discriminate|discriminate]. }
    rewrite (@bind_returns _ _ _ _ _ _ _ Hu).
    destruct success.
    2:{ eexists. split; [reflexivity|]. split; [discriminate|discriminate]. }
    destruct (unlockVault_true pf password w Hu) as (Hun & Hpw & _).
    destruct (shouldShowBiometricModal_spec pf w1) as (ask & Hask).
    destruct (biometricAvailable && negb biometricEnabled).
    + rewrite (@bind_returns _ _ _ _ _ _ _ Hask).
      destruct ask; eexists; (split; [reflexivity|]);
        (split; [discriminate|]); intros _; cbn [snd]; split_conj; auto;
        try discriminate; now intros pending [= <-].
    + eexists. split; [reflexivity|]. split; [discriminate|].
      intros _. cbn [snd]. split_conj; auto; discriminate.
  - (* creating *)
    destruct (String.eqb password confirmPassword) eqn:Heq; cbn [negb].
    2:{ eexists. split; [reflexivity|]. split; [auto|discriminate]. }
    apply String.eqb_eq in Heq. subst confirmPassword.
    destruct (String.length password <? 8)%nat eqn:Hlen.
    { eexists. split; [reflexivity|]. split; [auto|discriminate]. }
    apply Nat.ltb_ge in Hlen.
    unfold try_catch.
    destruct (createVault pf password w) as [[[]|e] w1] eqn:Hc.
    2:{ unfold bind. rewrite Hc. eexists. split; [reflexivity|].
        split; [|discriminate]. intros _ [H|[H|H]]; [congruence|congruence|lia]. }
    rewrite (@bind_returns _ _ _ _ _ _ _ Hc).
    assert (Hfacts : isUnlocked w1 = true /\ masterPassword w1 = Some password
                     /\ accounts_of w1 = [] /\ persisted pf w1 password []).
    { destruct (stored pf w VAULT_KEY) eqn:Hv.
      - exfalso. unfold createVault in Hc.
        rewrite (@bind_returns _ _ _ _ _ _ _ (initialize_spec pf w)), Hv in Hc.
        rewrite bool_decide_eq_true_2 in Hc by eauto. discriminate.
      - destruct (createVault_fresh pf password w Hv)
          as (w0 & E & Hacc & Hpw & Hun & _).
        rewrite E in Hc.
        destruct (@saveVault_returned pf HL HS w0 w1 Hc)
          as (p & Hp & _ & _ & Hpw' & Hacc' & Hun' & Hheap & Hper & _).
        assert (p = password) as -> by congruence.
        rewrite Hacc in Hper. split_conj; try congruence.
        unfold accounts_of, array_at in *. now rewrite Hacc', Hheap. }
    destruct Hfacts as (Hun & Hpw & Hacc & Hper).
    destruct (shouldShowBiometricModal_spec pf w1) as (ask & Hask).
    destruct biometricAvailable.
    + rewrite (@bind_returns _ _ _ _ _ _ _ Hask).
      destruct ask; eexists; (split; [reflexivity|]);
        (split; [intros _ [H|[H|H]]; [congruence|congruence|lia]|]);
        intros _; cbn [snd]; split_conj; auto;
        try discriminate; now intros pending [= <-].
    + eexists. split; [reflexivity|].
      split; [intros _ [H|[H|H]]; [congruence|congruence|lia]|].
      intros _. cbn [snd]. split_conj; auto; discriminate.
Qed.

Lemma X20_handleSubmit_witness :
  let submit :=
    handleSubmit Small.platform false "correct-horse-battery"
      "correct-horse-battery" true false in
  exists outcome,
    fst (submit Small.fresh) = Return outcome
    /\ (false = false ->
        "correct-horse-battery" = "" \/ "correct-horse-battery" <> "correct-horse-battery"
        \/ (String.length "correct-horse-battery" < 8)%nat ->
          proceeds outcome = false /\ after submit Small.fresh = Small.fresh)
    /\ (proceeds outcome = true ->
          isUnlocked (after submit Small.fresh) = true
          /\ masterPassword (after submit Small.fresh) = Some "correct-horse-battery"
          /\ "correct-horse-battery" <> ""
          /\ (forall pending,
                outcome = OfferBiometric pending -> pending = "correct-horse-battery")
          /\ (false = false ->
                (8 <= String.length "correct-horse-battery")%nat
                /\ "correct-horse-battery" = "correct-horse-battery"
                /\ accounts_of (after submit Small.fresh) = []
                /\ persisted Small.platform (after submit Small.fresh)
                     "correct-horse-battery" [])).
Proof.
  exact (X20_handleSubmit small_laws small_store_laws false "correct-horse-battery"
           "correct-horse-battery" true false Small.fresh).
Defined.

Lemma clear_spec (pf : Platform) (w : World) :
  exists w',
    clear pf w = (Return tt, w')
    /\ same_memory w w'
    /\ forall key, stored pf w' key = None.
Proof.
  exists (after (clear pf) w). split_conj.
  - unfold after, clear, clearLocalStorage, ipc_storage_clear, modify.
    destruct (isCapacitor (getPlatformInfo pf)), (isElectron (getPlatformInfo pf)),
      (electronAPI pf); reflexivity.
  - rewrite clear_after. unfold same_memory.
    destruct (uses_ipc pf); split_conj; reflexivity.
  - intros key. rewrite uses_ipc_stored, clear_after.
    destruct (uses_ipc pf).
    + simpl. now rewrite lookup_empty.
    + now rewrite clearLocalStorage_lookup, prefixed_full_key.
Qed.

(** X21: deleting all data from the settings screen.  Unless the
    confirmation text is exactly [SUPPRIMER] nothing happens.  With it, the
    handler reports success and afterwards no item of the application is
    left in storage: no vault record ([initialize] reports none), no
    biometric flag, no stored session.  The vault in memory is not locked
    by the handler: its accounts, master password and unlocked flag are
    what they were. *)
Theorem X21_handleDeleteAllData (pf : Platform) (deleteConfirmText : string)
  (w : World) :
  (deleteConfirmText <> "SUPPRIMER" ->
     handleDeleteAllData pf deleteConfirmText w = (Return ConfirmationRequired, w))
  /\ (deleteConfirmText = "SUPPRIMER" ->
        fst (handleDeleteAllData pf deleteConfirmText w) = Return DataCleared
        /\ (forall key,
              fst (getItem pf key (after (handleDeleteAllData pf deleteConfirmText) w))
              = Return None)
        /\ fst (initialize pf (after (handleDeleteAllData pf deleteConfirmText) w))
           = Return false
        /\ fst (isEnabled pf (after (handleDeleteAllData pf deleteConfirmText) w))
           = Return false
        /\ runtime (after (handleDeleteAllData pf deleteConfirmText) w) = runtime w).
Proof.
  unfold after, handleDeleteAllData. split.
  - intros Hne. now rewrite (proj2 (String.eqb_neq _ _) Hne).
  - intros ->. rewrite String.eqb_refl. cbn [negb]. unfold try_catch.
    destruct (clear_spec pf w) as (w1 & Hclear & Hm1 & Hnone).
    rewrite (@bind_returns _ _ _ _ _ _ _ Hclear).
    destruct (disable_keeps pf w1) as (w2 & Hdis & Hm2 & Hflag & Hsession & Hother).
    rewrite (@bind_returns _ _ _ _ _ _ _ Hdis). cbn [fst snd ret].
    assert (Hall : forall key, stored pf w2 key = None).
    { intros key.
      destruct (decide (key = BIOMETRIC_KEY_STORAGE)) as [->|H1]; [exact Hflag|].
      destruct (decide (key = SESSION_KEY_STORAGE)) as [->|H2]; [exact Hsession|].
      now rewrite Hother. }
    split_conj.
    + reflexivity.
    + intros key. now rewrite getItem_spec, Hall.
    + rewrite initialize_spec, Hall. cbn [fst].
      now rewrite bool_decide_eq_false_2 by (intros [? ?]; discriminate).
    + rewrite isEnabled_spec, Hall. reflexivity.
    + apply same_memory_runtime. exact (@same_memory_trans w w1 w2 Hm1 Hm2).
Qed.

Lemma X21_handleDeleteAllData_witness :
  fst (handleDeleteAllData Small.platform "SUPPRIMER" Sample.enabled)
  = Return DataCleared
  /\ (forall key,
        fst (getItem Small.platform key
               (after (handleDeleteAllData Small.platform "SUPPRIMER") Sample.enabled))
        = Return None)
  /\ fst (initialize Small.platform
            (after (handleDeleteAllData Small.platform "SUPPRIMER") Sample.enabled))
     = Return false
  /\ fst (isEnabled Small.platform
            (after (handleDeleteAllData Small.platform "SUPPRIMER") Sample.enabled))
     = Return false
  /\ runtime (after (handleDeleteAllData Small.platform "SUPPRIMER") Sample.enabled)
     = runtime Sample.enabled.
Proof.
  apply (proj2 (X21_handleDeleteAllData Small.platform "SUPPRIMER" Sample.enabled)).
  reflexivity.
Defined.

(** ** Importing twice, and importing one's own export *)

Lemma import_loop_all_exist (pf : Platform) (incoming : list Account.t) (count : Z)
  (w : World) :
  Forall (fun a => existsb (same_issuer_and_name a) (accounts_of w) = true) incoming ->
  import_loop pf incoming count w = (Return count, w).
Proof.
  revert count. induction incoming as [|a rest IH]; intros count Hall.
  - reflexivity.
  - inversion Hall as [|? ? Ha Hrest]; subst. simpl.
    unfold bind at 1, gets at 1. rewrite Ha. cbn [negb]. now apply IH.
Qed.

Lemma existsb_same_refl (a : Account.t) (accounts : list Account.t) :
  In a accounts -> existsb (same_issuer_and_name a) accounts = true.
Proof.
  intros Hin. apply existsb_exists. exists a. split; [exact Hin|].
  unfold same_issuer_and_name. now rewrite !String.eqb_refl.
Qed.

Lemma import_loop_covers (pf : Platform) (incoming : list Account.t) (count n : Z)
  (w w' : World) :
  import_loop pf incoming count w = (Return n, w') ->
  Forall (fun a => existsb (same_issuer_and_name a) (accounts_of w') = true) incoming
  /\ (exists added, accounts_of w' = (accounts_of w ++ added)%list)
  /\ isUnlocked w' = isUnlocked w.
Proof.
  revert count w. induction incoming as [|a rest IH]; intros count w Hloop.
  - injection Hloop as _ <-. split_conj; [constructor | exists []; now rewrite app_nil_r
                                         | reflexivity].
  - simpl in Hloop. unfold bind at 1, gets at 1 in Hloop.
    destruct (existsb (same_issuer_and_name a) (accounts_of w)) eqn:Ea;
      cbn [negb] in Hloop.
    + destruct (IH count w Hloop) as (Hrest & (added & Hadded) & Hun).
      split_conj; [|eauto|exact Hun].
      constructor; [|exact Hrest]. now rewrite Hadded, existsb_app, Ea.
    + change (AccountData.mk _ _ _ _ _ _ _ _) with (data_of a) in Hloop.
      apply bind_returned in Hloop as (acc & w1 & Hadd & Hloop).
      pose proof (@addAccount_returned pf (data_of a) w w1 acc Hadd) as (Hun & -> & Hacc).
      destruct (addAccount_spec pf (data_of a) w Hun)
        as (r & w1' & E & _ & _ & _ & Hun1 & _).
      assert (w1' = w1) as -> by congruence.
      destruct (IH (count + 1) w1 Hloop) as (Hrest & (added & Hadded) & Hun').
      split_conj.
      * constructor; [|exact Hrest].
        rewrite Hadded, Hacc, !existsb_app. simpl.
        rewrite same_issuer_and_name_refl. now rewrite !orb_true_r.
      * exists (admitted pf (tick w) (data_of a) :: added).
        now rewrite Hadded, Hacc, <- app_assoc.
      * congruence.
Qed.

Lemma importVault_guard (pf : Platform) (exportedData transferPassword : string)
  (w : World) :
  importVault pf exportedData transferPassword w
  = if isUnlocked w
    then try_catch (importVault_try pf exportedData transferPassword)
           (fun _ => throw import_error) w
    else (Throw (Error "Vault must be unlocked to import"), w).
Proof. unfold importVault, bind, gets. now destruct (isUnlocked w). Qed.

(** X22: importing the same payload a second time adds nothing.  Whenever
    [importVault] has returned, a second [importVault] of the same payload
    with the same transfer password, on the state the first one left,
    returns [0] and changes nothing: every account of the payload then has
    an account with its issuer and name in the vault. *)
Theorem X22_second_import_adds_nothing (pf : Platform)
  (exportedData transferPassword : string) (n : Z) (w w' : World) :
  importVault pf exportedData transferPassword w = (Return n, w') ->
  importVault pf exportedData transferPassword w' = (Return 0, w').
Proof.
  rewrite !importVault_guard.
  destruct (isUnlocked w) eqn:Hun; [|discriminate].
  unfold try_catch at 1.
  destruct (importVault_try pf exportedData transferPassword w)
    as [[m|e] w1] eqn:Htry; [|discriminate].
  intros [= Hm Hw]. subst m w1.
  unfold importVault_try in Htry.
  apply bind_returned in Htry as (importData & w2 & Hparse & Htry).
  apply bind_returned in Htry as (decryptedData & w3 & Hdec & Htry).
  destruct (negb (String.eqb _ _)) eqn:Hsum; [discriminate|].
  apply bind_returned in Htry as (incoming & w4 & Hparse' & Hloop).
  unfold parse, lift in Hparse, Hdec, Hparse'.
  injection Hparse as Hparse <-. injection Hdec as Hdec <-.
  injection Hparse' as Hparse' <-.
  destruct (@import_loop_covers pf incoming 0 n w w' Hloop) as (Hall & _ & Hun').
  rewrite Hun', Hun.
  unfold try_catch, importVault_try, parse.
  rewrite Hparse, bind_lift, bind_lift, Hdec, Hsum, Hparse', bind_lift.
  now rewrite import_loop_all_exist.
Qed.

Lemma X22_second_import_adds_nothing_witness :
  importVault Small.platform Small.payload "transfer" Sample.merged
  = (Return 0, Sample.merged).
Proof.
  apply (@X22_second_import_adds_nothing Small.platform Small.payload "transfer" 2
           Small.with_github Sample.merged).
  vm_compute. reflexivity.
Defined.

Lemma exportVault_keeps (pf : Platform) (transferPassword : option string)
  (exportedData : string) (w w' : World) :
  exportVault pf transferPassword w = (Return exportedData, w') ->
  isUnlocked w = true /\ same_memory w w' /\ same_stores w w'.
Proof.
  unfold exportVault. unfold bind at 1, gets at 1. unfold bind at 1, gets at 1.
  destruct (masterPassword w) as [master|]; [|discriminate].
  destruct (isUnlocked w); [|discriminate]. cbn [negb orb].
  destruct (falsy master); [discriminate|].
  unfold bind at 1, gets at 1.
  match goal with
  | |- context [encrypt pf ?d ?p None None] =>
      destruct (encrypt_returns pf d p None None w)
        as (saltBytes & ivBytes & w1 & Henc & E1 & E2 & E3 & E4 & El & Es & _)
  end.
  rewrite (@bind_returns _ _ _ _ _ _ _ Henc). unfold ret.
  intros [= _ <-]. unfold same_memory, same_stores. auto 10.
Qed.

(** X23: importing one's own export adds nothing.  A payload that
    [exportVault] has just produced, imported into the same vault with the
    password it was exported under (the transfer password, or the master
    password when none or an empty one was given), passes the integrity
    and checksum checks, and [importVault] returns [0] and changes nothing:
    every exported account is already there. *)
Theorem X23_own_export_adds_nothing (pf : Platform) (HL : Laws pf)
  (HS : StoreLaws pf) (transferPassword : option string)
  (password exportedData : string) (w w' : World) :
  masterPassword w = Some password ->
  exportVault pf transferPassword w = (Return exportedData, w') ->
  importVault pf exportedData (or_string transferPassword password) w'
  = (Return 0, w').
Proof.
  intros Hpw Hexport.
  destruct (@exportVault_keeps pf transferPassword exportedData w w' Hexport)
    as (Hun & Hm & _).
  destruct (@exportVault_returned pf transferPassword password exportedData w w'
              Hpw Hexport)
    as (saltBytes & ivBytes & Hdata).
  cbn zeta in Hdata. subst exportedData.
  assert (Hacc : accounts_of w' = accounts_of w).
  { pose proof (@same_memory_runtime w w' Hm) as Hr. unfold runtime in Hr.
    congruence. }
  destruct Hm as (_ & _ & Hun' & _).
  rewrite importVault_guard, Hun', Hun.
  unfold try_catch, importVault_try, parse, json_export, json_accounts.
  rewrite (law_JSON_Export HL). cbn [or_throw]. rewrite bind_lift, bind_lift.
  unfold export_of.
  cbn [ExportData.encryptedData ExportData.salt ExportData.iv ExportData.hmac
       ExportData.checksum].
  fold (decrypt_envelope pf
          (envelope pf (JSON_stringify (JSON := JSON_Accounts pf) (accounts_of w))
             (or_string transferPassword password) saltBytes ivBytes)
          (or_string transferPassword password)).
  rewrite (decrypt_encrypted HL).
  rewrite (proj2 (falsy_false _) (law_JSON_Accounts_text HL (accounts_of w))).
  rewrite String.eqb_refl. cbn [negb].
  rewrite (law_JSON_Accounts HS). cbn [or_throw]. rewrite bind_lift.
  rewrite import_loop_all_exist; [reflexivity|].
  rewrite Hacc. apply List.Forall_forall. intros a Ha. now apply existsb_same_refl.
Qed.

Lemma X23_own_export_adds_nothing_witness :
  importVault Small.platform Small.payload "transfer" Sample.exported
  = (Return 0, Sample.exported).
Proof.
  apply (@X23_own_export_adds_nothing Small.platform small_laws small_store_laws
           (Some "transfer") "another-password" Small.payload Small.other_device
           Sample.exported).
  - reflexivity.
  - vm_compute. reflexivity.
Defined.

(** ** The shape of an accepted secret *)

Lemma all_equals_signs_spec (s : string) :
  all_equals_signs s = true <-> Forall (fun c => c = "="%char) (list_ascii_of_string s).
Proof.
  induction s as [|c s IH]; simpl.
  - split; [constructor | reflexivity].
  - rewrite andb_true_iff, IH, Ascii.eqb_eq. split.
    + intros [-> H]. now constructor.
    + intros H. inversion H; subst. auto.
Qed.

Lemma base32_tail_spec (s : string) :
  base32_tail s = true <->
  exists body padding,
    s = body +:+ padding
    /\ Forall (fun c => is_base32_char c = true) (list_ascii_of_string body)
    /\ Forall (fun c => c = "="%char) (list_ascii_of_string padding).
Proof.
  split.
  - induction s as [|c s IH]; simpl.
    + intros _. exists "", "". split_conj; [reflexivity | constructor | constructor].
    + destruct (is_base32_char c) eqn:Hc.
      * intros H. destruct (IH H) as (body & padding & -> & Hb & Hp).
        exists (String c body), padding. rewrite append_cons.
        split_conj; [reflexivity | now constructor | exact Hp].
      * intros H. exists "", (String c s). rewrite append_nil.
        split_conj; [reflexivity | constructor |].
        now apply (all_equals_signs_spec (String c s)).
  - intros (body & padding & -> & Hb & Hp).
    induction body as [|c body IH].
    + rewrite append_nil. destruct padding as [|c padding]; [reflexivity|].
      simpl in *. inversion Hp; subst. simpl.
      now apply (all_equals_signs_spec (String "=" padding)).
    + rewrite append_cons. simpl in *. inversion Hb as [|? ? Hc Hb']; subst.
      rewrite Hc. now apply IH.
Qed.

(** X24: what [validateSecret] accepts.  A secret is accepted exactly when
    its cleaned form (whitespace removed, then upper-cased) consists of one
    or more characters among [A]-[Z] and [2]-[7], followed only by [=]
    padding, and the OTP library can build a generator from it; a secret
    whose cleaned form is empty (an empty or all-whitespace one, say) is
    rejected whatever the library says.  The manual-entry form
    stores nothing else: every account it admits has such a secret, a
    non-empty name, a non-empty issuer ([Unknown] when none was typed) and
    the counter [0]. *)
Theorem X24_validateSecret_shape (pf : Platform) (secret : string) :
  (validateSecret pf secret = true <->
     base32_shape (clean pf secret) /\ TOTP_accepts pf (clean pf secret) = true)
  /\ (clean pf secret = "" -> validateSecret pf secret = false)
  /\ (forall form w w',
        handleManualSubmit pf form w = (Return None, w') ->
        exists account,
          accounts_of w' = (accounts_of w ++ [account])%list
          /\ base32_shape (Account.secret account)
          /\ Account.name account = AccountData.name form
          /\ Account.name account <> ""
          /\ Account.issuer account <> ""
          /\ Account.issuer account
             = (if falsy (AccountData.issuer form) then "Unknown"
                else AccountData.issuer form)
          /\ Account.counter account = 0).
Proof.
  assert (Hshape : forall s, base32Regex_test s = true <-> base32_shape s).
  { intros s. unfold base32Regex_test, base32_shape. split.
    - destruct s as [|c s]; [discriminate|].
      intros H. apply andb_true_iff in H as [Hc Ht].
      apply base32_tail_spec in Ht as (body & padding & -> & Hb & Hp).
      exists (String c body), padding. rewrite append_cons.
      split_conj; [reflexivity | discriminate | now constructor | exact Hp].
    - intros (body & padding & -> & Hne & Hb & Hp).
      destruct body as [|c body]; [congruence|].
      rewrite append_cons. simpl in Hb. inversion Hb as [|? ? Hc Hb']; subst.
      rewrite Hc. simpl. apply base32_tail_spec. eauto. }
  assert (Hvalid : forall s,
    validateSecret pf s = true <->
    base32_shape (clean pf s) /\ TOTP_accepts pf (clean pf s) = true).
  { intros s. unfold validateSecret. rewrite <- Hshape.
    destruct (base32Regex_test (clean pf s)); simpl; intuition congruence. }
  split_conj.
  - apply Hvalid.
  - intros Hempty. unfold validateSecret. now rewrite Hempty.
  - intros form w w' H. unfold handleManualSubmit in H.
    destruct (falsy (AccountData.name form)) eqn:Hname; [discriminate|].
    destruct (falsy (AccountData.secret form)) eqn:Hsecret; [discriminate|].
    cbn [orb] in H.
    destruct (validateSecret pf (AccountData.secret form)) eqn:Hv;
      cbn [negb] in H; [|discriminate].
    unfold try_catch, bind, ret in H.
    match type of H with
    | context [addManual pf ?d w] =>
        destruct (addManual pf d w) as [[a|e] w1] eqn:E
    end; [|discriminate].
    injection H as <-. unfold addManual in E. cbn [AccountData.secret] in E.
    destruct (validateSecret pf (clean pf (AccountData.secret form)));
      cbn [negb] in E; [|discriminate].
    pose proof (@addAccount_returned pf _ w w1 a E) as (_ & -> & Hacc).
    eexists. split; [exact Hacc|]. cbn [admitted Account.secret Account.name
      Account.issuer Account.counter AccountData.secret AccountData.name
      AccountData.issuer AccountData.counter].
    split_conj.
    + now apply Hvalid.
    + reflexivity.
    + now apply falsy_false.
    + unfold or_string. destruct (falsy (AccountData.issuer form)) eqn:Hi;
        [discriminate | now apply falsy_false].
    + reflexivity.
    + reflexivity.
Qed.

Lemma X24_validateSecret_shape_witness :
  base32_shape (clean Small.platform "jbsw y3dp ehpk 3pxp")
  /\ TOTP_accepts Small.platform (clean Small.platform "jbsw y3dp ehpk 3pxp") = true.
Proof.
  apply (proj1 (proj1 (X24_validateSecret_shape Small.platform
                         "jbsw y3dp ehpk 3pxp"))).
  vm_compute. reflexivity.
Defined.

(** X25: the manual-entry form never throws; what goes wrong ends in a
    message.  A missing name or secret is reported first, then a secret
    that does not validate, both without any change; and on a locked vault
    a valid entry ends in [Failed to add account], again with nothing
    changed. *)
Theorem X25_handleManualSubmit_reports (pf : Platform) (form : AccountData.t)
  (w : World) :
  (exists message w', handleManualSubmit pf form w = (Return message, w'))
  /\ (AccountData.name form = "" \/ AccountData.secret form = "" ->
        handleManualSubmit pf form w
        = (Return (Some "Name and secret are required"), w))
  /\ (AccountData.name form <> "" -> AccountData.secret form <> "" ->
      validateSecret pf (AccountData.secret form) = false ->
        handleManualSubmit pf form w
        = (Return (Some "Invalid secret key. Must be Base32 encoded."), w))
  /\ (AccountData.name form <> "" -> AccountData.secret form <> "" ->
      validateSecret pf (AccountData.secret form) = true ->
      isUnlocked w = false ->
        handleManualSubmit pf form w
        = (Return (Some "Failed to add account. Please try again."), w)).
Proof.
  unfold handleManualSubmit. split_conj.
  - destruct (falsy (AccountData.name form) || falsy (AccountData.secret form));
      [eexists _, _; reflexivity|].
    destruct (negb (validateSecret pf (AccountData.secret form)));
      [eexists _, _; reflexivity|].
    unfold try_catch, bind, ret.
    match goal with
    | |- context [addManual pf ?d w] => destruct (addManual pf d w) as [[a|e] w1]
    end; eexists _, _; reflexivity.
  - intros [H|H]; rewrite H; cbn [falsy String.eqb orb]; [reflexivity|].
    now rewrite orb_true_r.
  - intros Hname Hsecret Hv.
    rewrite (proj2 (falsy_false _) Hname), (proj2 (falsy_false _) Hsecret), Hv.
    reflexivity.
  - intros Hname Hsecret Hv Hlocked.
    rewrite (proj2 (falsy_false _) Hname), (proj2 (falsy_false _) Hsecret), Hv.
    cbn [orb negb]. unfold try_catch, bind, addManual.
    cbn [AccountData.secret].
    destruct (negb (validateSecret pf (clean pf (AccountData.secret form))));
      [reflexivity|].
    now rewrite addAccount_locked.
Qed.

Lemma X25_handleManualSubmit_reports_witness :
  handleManualSubmit Small.platform Small.github_as_typed Small.locked
  = (Return (Some "Failed to add account. Please try again."), Small.locked).
Proof.
  apply (X25_handleManualSubmit_reports Small.platform Small.github_as_typed
           Small.locked).
  - discriminate.
  - discriminate.
  - vm_compute. reflexivity.
  - reflexivity.
Defined.
